(** * Save and load commands: archive lifecycle of the project directory

    A shallow embedding of [saveCommand.ts] and [loadCommand.ts]: the two
    slash-command handlers, the metadata store they share, and the
    filesystem, codec and UI collaborators they call.

    Layout: JavaScript strings, POSIX paths, JSON values and the metadata
    records; a filesystem model with a small state-and-exception monad;
    the handlers, written call for call after the TypeScript; then the
    properties. *)

From Stdlib Require Import ZArith Ascii String DecimalString Sorted Permutation.
From stdpp Require Import base tactics option list gmap strings sorting.

Local Open Scope Z_scope.

(* ===================================================================== *)
(** ** JavaScript strings *)
(* ===================================================================== *)

(** Strings are sequences of code units below 256. *)
Module Js.

Definition chr (n : nat) : ascii := ascii_of_nat n.

Definition slash : ascii := chr 47.
Definition space : ascii := chr 32.
Definition dquote : string := String (chr 34) EmptyString.
Definition nl : string := String (chr 10) EmptyString.

(** [s.startsWith(p)] *)
Fixpoint startsWith (s p : string) {struct p} : bool :=
  match p, s with
  | EmptyString, _ => true
  | String _ _, EmptyString => false
  | String a p', String b s' => Ascii.eqb a b && startsWith s' p'
  end.

(** [s.endsWith(p)] *)
Definition endsWith (s p : string) : bool :=
  startsWith (String.rev s) (String.rev p).

(** [s.substring(n)] *)
Fixpoint substring_from (n : nat) (s : string) : string :=
  match n, s with
  | O, _ => s
  | S n', String _ s' => substring_from n' s'
  | S _, EmptyString => EmptyString
  end.

(** [s.split(sep)] for a one-character separator: never empty, the
    empty string gives one empty piece. *)
Fixpoint split (sep : ascii) (s : string) : list string :=
  match s with
  | EmptyString => [EmptyString]
  | String c s' =>
      if Ascii.eqb c sep then EmptyString :: split sep s'
      else match split sep s' with
           | seg :: rest => String c seg :: rest
           | [] => [String c EmptyString]
           end
  end.

(** [l.join(sep)] *)
Fixpoint join (sep : string) (l : list string) : string :=
  match l with
  | [] => EmptyString
  | [x] => x
  | x :: r => x +:+ sep +:+ join sep r
  end.

(** A string is truthy when it is not empty. *)
Definition truthy (s : string) : bool :=
  match s with EmptyString => false | _ => true end.

(** White space of [String.prototype.trim] among the code units below
    256: TAB, LF, VT, FF, CR, SP and NBSP. *)
Definition is_ws (c : ascii) : bool :=
  let n := nat_of_ascii c in
  (Nat.leb 9 n && Nat.leb n 13) || Nat.eqb n 32 || Nat.eqb n 160.

Fixpoint trimStart (s : string) : string :=
  match s with
  | EmptyString => EmptyString
  | String c s' => if is_ws c then trimStart s' else s
  end.

Definition trimEnd (s : string) : string :=
  String.rev (trimStart (String.rev s)).

(** [s.trim()] *)
Definition trim (s : string) : string := trimEnd (trimStart s).

Fixpoint repeat_char (c : ascii) (n : nat) : string :=
  match n with
  | O => EmptyString
  | S n' => String c (repeat_char c n')
  end.

(** [s.padStart(n, c)] for a one-character filler. *)
Definition padStart (n : nat) (c : ascii) (s : string) : string :=
  repeat_char c (n - String.length s) +:+ s.

(** [String(z)] for an integer. *)
Definition String_of_Z (z : Z) : string :=
  NilEmpty.string_of_int (Z.to_int z).




(** [sub] occurs in [s]. *)
Definition includes (s sub : string) : Prop :=
  ∃ pre post, s = pre +:+ sub +:+ post.

Fixpoint has_char (c : ascii) (s : string) : bool :=
  match s with
  | EmptyString => false
  | String d s' => Ascii.eqb d c || has_char c s'
  end.

End Js.

(* ===================================================================== *)
(** ** POSIX paths, after Node's [path] module *)
(* ===================================================================== *)

Module Path.

Definition dot : string := String (Js.chr 46) EmptyString.
Definition dotdot : string := String (Js.chr 46) dot.
Definition sep : string := String Js.slash EmptyString.

Definition segments (p : string) : list string := Js.split Js.slash p.

(** One step of [normalizeString] on the stack of segments kept so
    far (innermost first): empty and [.] segments are dropped, [..]
    pops a kept segment, and is itself kept only above the start of a
    relative path. *)
Definition norm_step (allowAboveRoot : bool) (stack : list string)
    (seg : string) : list string :=
  if decide (seg = EmptyString) then stack
  else if decide (seg = dot) then stack
  else if decide (seg = dotdot) then
    match stack with
    | top :: rest =>
        if decide (top = dotdot) then dotdot :: stack else rest
    | [] => if allowAboveRoot then [dotdot] else []
    end
  else seg :: stack.

Definition norm_from (allowAboveRoot : bool) (stack : list string)
    (segs : list string) : list string :=
  fold_left (norm_step allowAboveRoot) segs stack.

(** [normalizeString(path, allowAboveRoot, '/', isPosixPathSeparator)],
    read segment by segment. *)
Definition normalizeString (allowAboveRoot : bool) (p : string) : string :=
  Js.join sep (rev (norm_from allowAboveRoot [] (segments p))).

Definition isAbsolute (p : string) : bool := Js.startsWith p sep.

(** [path.posix.normalize] *)
Definition normalize (p : string) : string :=
  match p with
  | EmptyString => dot
  | _ =>
      let abs := isAbsolute p in
      let trailing := Js.endsWith p sep in
      let r := normalizeString (negb abs) p in
      match r with
      | EmptyString =>
          if abs then sep else if trailing then dot +:+ sep else dot
      | _ =>
          let r' := if trailing then r +:+ sep else r in
          if abs then sep +:+ r' else r'
      end
  end.

(** [path.join(a, b)] *)
Definition join (a b : string) : string :=
  match a, b with
  | EmptyString, EmptyString => dot
  | EmptyString, _ => normalize b
  | _, EmptyString => normalize a
  | _, _ => normalize (a +:+ sep +:+ b)
  end.

(** A directory entry name: not empty, not [.] or [..], no slash. *)
Definition is_simple (s : string) : bool :=
  bool_decide (s ≠ EmptyString) && bool_decide (s ≠ dot)
  && bool_decide (s ≠ dotdot) && negb (Js.has_char Js.slash s).

(** The location a path names, as the list of entry names from the
    root directory down. Relative paths are taken from the root: the
    working directory of the process is not modelled. *)
Definition resolve (p : string) : list string :=
  rev (norm_from false [] (segments p)).

(** [path.basename(p)]: the last segment, trailing slashes apart. *)
Definition basename (p : string) : string :=
  default EmptyString (last (filter (λ s, s ≠ EmptyString) (segments p))).

End Path.


(* ===================================================================== *)
(** ** JSON values and the metadata records *)
(* ===================================================================== *)

(** Exceptions: a Node system error with its [code], or one of the
    language's own. *)
Inductive exn :=
| SystemError (code : string) (syscall : string)
| SyntaxError (message : string)
| TypeError (message : string).

Definition exn_code (e : exn) : option string :=
  match e with SystemError c _ => Some c | _ => None end.

(** The text of an exception inside a template string: the name of its
    class, then its message. Of the message of a system error only the
    code and the system call are kept; the description and the path
    that Node puts around them are left out, and no property below
    depends on them. *)
Definition exn_toString (e : exn) : string :=
  match e with
  | SystemError c sc => "Error: " +:+ c +:+ ": " +:+ sc
  | SyntaxError m => "SyntaxError: " +:+ m
  | TypeError m => "TypeError: " +:+ m
  end.

Inductive outcome (A : Type) :=
| Ok (a : A)
| Thrown (e : exn).
Arguments Ok {A} a.
Arguments Thrown {A} e.

(** Values of [JSON.parse]; numbers are integers here. *)
#[warnings="-register-all"]
Inductive json :=
| JNull
| JBool (b : bool)
| JNum (n : Z)
| JStr (s : string)
| JArr (items : list json)
| JObj (fields : list (string * json)).

(** [if (v)] *)
Definition json_truthy (v : json) : bool :=
  match v with
  | JNull => false
  | JBool b => b
  | JNum n => negb (n =? 0)
  | JStr s => Js.truthy s
  | JArr _ | JObj _ => true
  end.

Fixpoint lookup_field (k : string) (l : list (string * json)) : option json :=
  match l with
  | [] => None
  | (k', v) :: r => if decide (k' = k) then Some v else lookup_field k r
  end.

(** [v.k] for a key that no prototype defines: [None] is [undefined],
    and reading a property of [null] throws. *)
Definition json_get (v : json) (k : string) : outcome (option json) :=
  match v with
  | JNull => Thrown (TypeError "Cannot read properties of null")
  | JObj fields => Ok (lookup_field k fields)
  | _ => Ok None
  end.

(** [if (v.k)] on the result of [json_get]. *)
Definition field_truthy (o : option json) : bool :=
  match o with Some v => json_truthy v | None => false end.

Record ArchiveMetadata := {
  filename : string;
  timestamp : Z;
  description : string;
}.

Definition ARCHIVE_METADATA_FILE : string := "archive-metadata.json".
Definition ARCHIVES_DIR_NAME : string := "archives".

Definition json_of_record (m : ArchiveMetadata) : json :=
  JObj [("filename", JStr (filename m));
        ("timestamp", JNum (timestamp m));
        ("description", JStr (description m))].

Definition json_of_metadata (l : list ArchiveMetadata) : json :=
  JArr (map json_of_record l).

Definition record_of_json (v : json) : option ArchiveMetadata :=
  match v with
  | JObj fields =>
      match lookup_field "filename" fields, lookup_field "timestamp" fields,
            lookup_field "description" fields with
      | Some (JStr f), Some (JNum t), Some (JStr d) =>
          Some {| filename := f; timestamp := t; description := d |}
      | _, _, _ => None
      end
  | _ => None
  end.

(** The store is typed [ArchiveMetadata[]]. A parsed value of any other
    shape is outside that type; it is modelled as a [TypeError] at the
    read, where JavaScript raises it at first use, inside the same [try]
    block of every caller. *)
Definition metadata_of_json (v : json) : option (list ArchiveMetadata) :=
  match v with
  | JArr items => mapM record_of_json items
  | _ => None
  end.

(** The fields of a [Date] in local time. *)
Record Date := {
  getFullYear : Z;
  getMonth : Z;
  getDate : Z;
  getHours : Z;
  getMinutes : Z;
  getSeconds : Z;
}.




(* ===================================================================== *)
(** ** The filesystem *)
(* ===================================================================== *)

Inductive node :=
| File (data : string)
| Dir.

Definition same_kind (a b : node) : bool :=
  match a, b with
  | File _, File _ | Dir, Dir => true
  | _, _ => false
  end.

(** What the handlers take from their platform: the JSON and tar
    codecs, the locale and time zone, and the directory for temporary
    files. *)
Class Platform := {
  JSON_parse : string → option json;
  JSON_stringify : json → string;
  toLocaleString : Z → string;
  localDate : Z → Date;
  tar_unpack : string → option (list (list string * node));
  tar_pack : list (string * node) → string;
  os_tmpdir : string;
}.

Module Fs.

(** The tree as a finite map from locations to nodes; the root
    directory, [[]], is always there and has no entry of its own. *)
Abbreviation tree := (gmap (list string) node).

Definition lookup_node (t : tree) (p : list string) : option node :=
  match p with [] => Some Dir | _ => t !! p end.

Definition parent (p : list string) : list string :=
  take (length p - 1) p.

(** The locations from the first name of [p] down to [p]. *)
Fixpoint prefixes (p : list string) : list (list string) :=
  match p with
  | [] => []
  | x :: r => [x] :: map (cons x) (prefixes r)
  end.

Definition is_file (t : tree) (p : list string) : bool :=
  match lookup_node t p with Some (File _) => true | _ => false end.

(** The code of a lookup that finds nothing at [p]: [ENOTDIR] when a
    regular file lies on the way to [p], [ENOENT] when the walk from
    the root just misses an entry. *)
Definition lookup_error (t : tree) (p : list string) : string :=
  if existsb (is_file t) (prefixes p) then "ENOTDIR" else "ENOENT".

(** [strip p k = Some r] when [k = p ++ r]. *)
Fixpoint strip (p k : list string) : option (list string) :=
  match p, k with
  | [], _ => Some k
  | x :: p', y :: k' => if decide (x = y) then strip p' k' else None
  | _ :: _, [] => None
  end.

Definition child_name (p k : list string) : option string :=
  match strip p k with Some [n] => Some n | _ => None end.

(** The names of the entries of directory [p]. *)
Definition children (t : tree) (p : list string) : list string :=
  omap (child_name p) (map_to_list t).*1.

(** [mkdir(p, {recursive: true})] *)
Definition mkdir_p (p : list string) (t : tree) : outcome unit * tree :=
  match find (is_file t) (prefixes p) with
  | Some q =>
      (Thrown (SystemError (if decide (q = p) then "EEXIST" else "ENOTDIR")
                           "mkdir"), t)
  | None => (Ok (), foldr (λ q t', <[q := Dir]> t') t (prefixes p))
  end.

(** [readFile(p, 'utf-8')] *)
Definition read_file (p : list string) (t : tree) : outcome string :=
  match lookup_node t p with
  | Some (File d) => Ok d
  | Some Dir => Thrown (SystemError "EISDIR" "read")
  | None => Thrown (SystemError (lookup_error t p) "open")
  end.

(** [writeFile(p, d)] *)
Definition write_file (p : list string) (d : string) (t : tree)
    : outcome unit * tree :=
  match p with
  | [] => (Thrown (SystemError "EISDIR" "open"), t)
  | _ =>
      match lookup_node t (parent p), t !! p with
      | None, _ => (Thrown (SystemError (lookup_error t (parent p)) "open"), t)
      | Some (File _), _ => (Thrown (SystemError "ENOTDIR" "open"), t)
      | Some Dir, Some Dir => (Thrown (SystemError "EISDIR" "open"), t)
      | Some Dir, _ => (Ok (), <[p := File d]> t)
      end
  end.

(** [mkdtemp(prefix)] at the location [p] of the chosen name. *)
Definition mkdtemp (p : list string) (t : tree) : outcome unit * tree :=
  match lookup_node t p, lookup_node t (parent p) with
  | Some _, _ => (Thrown (SystemError "EEXIST" "mkdtemp"), t)
  | None, Some Dir => (Ok (), <[p := Dir]> t)
  | None, Some (File _) => (Thrown (SystemError "ENOTDIR" "mkdtemp"), t)
  | None, None =>
      (Thrown (SystemError (lookup_error t (parent p)) "mkdtemp"), t)
  end.

(** [readdir(p)] *)
Definition readdir (p : list string) (t : tree) : outcome (list string) :=
  match lookup_node t p with
  | Some Dir => Ok (children t p)
  | Some (File _) => Thrown (SystemError "ENOTDIR" "scandir")
  | None => Thrown (SystemError (lookup_error t p) "scandir")
  end.

(** [rm(p, {recursive: true, force: true})]: a missing [p] is not an
    error. *)
Definition rm_rf (p : list string) (t : tree) : tree :=
  filter (λ kv, ¬ p `prefix_of` kv.1) t.

(** The entries at and below [src], moved to the same places below
    [dst]. *)
Definition image (src dst : list string) (t : tree) : tree :=
  list_to_map
    (omap (λ kv, (λ r, (dst ++ r, kv.2)) <$> strip src kv.1)
          (map_to_list t)).

Definition conflict (t : tree) (kv : list string * node) : bool :=
  match lookup_node t kv.1 with
  | Some n => negb (same_kind n kv.2)
  | None => false
  end.

(** [cp(src, dst, {recursive: true})]: directories merge, files are
    overwritten, a file never replaces a directory nor a directory a
    file. The copy is all or nothing here. *)
Definition cp_r (src dst : list string) (t : tree) : outcome unit * tree :=
  match lookup_node t src with
  | None => (Thrown (SystemError (lookup_error t src) "cp"), t)
  | Some _ =>
      if decide (src `prefix_of` dst)
      then (Thrown (SystemError "ERR_FS_CP_EINVAL" "cp"), t)
      else
        match mkdir_p (parent dst) t with
        | (Thrown e, t') => (Thrown e, t')
        | (Ok _, t1) =>
            let new := image src dst t in
            if existsb (conflict t1) (map_to_list new)
            then (Thrown (SystemError "ERR_FS_CP_DIR_TO_NON_DIR" "cp"), t1)
            else (Ok (), new ∪ t1)
        end
  end.

(** One entry of an archive written at location [p]. *)
Definition put_entry (p : list string) (n : node) (t : tree)
    : outcome unit * tree :=
  match mkdir_p (parent p) t with
  | (Thrown e, t') => (Thrown e, t')
  | (Ok _, t1) =>
      match n with
      | Dir => mkdir_p p t1
      | File d => write_file p d t1
      end
  end.

(** The entries of an archive written below [cwd], in order; entries
    with an empty path or a segment that is not an entry name are
    skipped, as the codec does for unsafe paths. *)
Fixpoint put_entries (cwd : list string)
    (entries : list (list string * node)) (t : tree)
    : outcome unit * tree :=
  match entries with
  | [] => (Ok (), t)
  | (rel, n) :: rest =>
      if bool_decide (rel ≠ []) && forallb Path.is_simple rel then
        match put_entry (cwd ++ rel) n t with
        | (Thrown e, t') => (Thrown e, t')
        | (Ok _, t') => put_entries cwd rest t'
        end
      else put_entries cwd rest t
  end.

(** The name the archiver shows its filter for the entry at [rel]
    below the archived directory [.]. *)
Definition entry_name (rel : list string) : string :=
  Js.join Path.sep (Path.dot :: rel).

(** An entry is archived when the filter accepts it and every
    directory above it. *)
Definition archived (filter : string → bool) (rel : list string) : bool :=
  filter Path.dot && forallb (λ q, filter (entry_name q)) (prefixes rel).

Definition entries_below (cwd : list string) (filter : string → bool)
    (t : tree) : list (string * node) :=
  omap (λ kv, strip cwd kv.1 ≫= λ rel,
              if archived filter rel then Some (entry_name rel, kv.2)
              else None)
       (map_to_list t).

(** Well-formed trees: every entry has a proper name and sits in a
    directory. *)
Definition wf (t : tree) : Prop :=
  ∀ k, is_Some (t !! k) →
       Forall (λ s, Path.is_simple s = true) k
       ∧ lookup_node t (parent k) = Some Dir.

End Fs.

(* ===================================================================== *)
(** ** The world and the monad of the handlers *)
(* ===================================================================== *)

(** Calls that leave the handler, in the order they are made. *)
Inductive event :=
| EvMkdir (p : string)
| EvReadFile (p : string)
| EvWriteFile (p : string) (data : string)
| EvMkdtemp (prefix : string)
| EvReaddir (p : string)
| EvRm (p : string)
| EvCp (src dst : string)
| EvTarExtract (file cwd : string)
| EvTarCreate (file cwd : string)
| EvAddItem (text : string) (ts : Z)
| EvLoadHistory (v : json)
| EvSetHistory (v : json).

(** The world a handler runs in. [faults] decides, call by call, whether
    the next call to a collaborator fails for a reason the tree does not
    show (permissions, a full disk, a callback that throws): [Some e]
    makes it throw [e] and leaves the tree as it is. [now] is the reading
    of [Date.now()], [mkdtemp_suffix] the characters [mkdtemp] appends. *)
Record world := World {
  fs : gmap (list string) node;
  faults : list (option exn);
  now : Z;
  mkdtemp_suffix : string;
  trace : list event;
}.

Definition M (A : Type) : Type := world → outcome A * world.

Definition ret {A} (a : A) : M A := λ w, (Ok a, w).

Definition throw {A} (e : exn) : M A := λ w, (Thrown e, w).

Definition bind {A B} (m : M A) (k : A → M B) : M B :=
  λ w, match m w with
       | (Ok a, w') => k a w'
       | (Thrown e, w') => (Thrown e, w')
       end.

Notation "'let!' x ':=' m 'in' k" := (bind m (λ x, k))
  (at level 10, x name, m at level 100, k at level 200,
   format "'[v' 'let!'  x  ':='  m  'in' '/' k ']'").
Notation "m ';;' k" := (bind m (λ _, k))
  (at level 100, k at level 200, right associativity).

(** [try { body } catch (e) { handler(e) }] *)
Definition try_catch {A} (body : M A) (handler : exn → M A) : M A :=
  λ w, match body w with
       | (Ok a, w') => (Ok a, w')
       | (Thrown e, w') => handler e w'
       end.

(** [try { body } finally { cleanup }]: the cleanup runs on every way out
    of the body; when it throws, its exception replaces the outcome of
    the body. *)
Definition try_finally {A} (body : M A) (cleanup : M unit) : M A :=
  λ w, match body w with
       | (r, w') =>
           match cleanup w' with
           | (Ok _, w'') => (r, w'')
           | (Thrown e, w'') => (Thrown e, w'')
           end
       end.

(** [for (const x of l) { body(x) }] *)
Fixpoint for_of {A} (l : list A) (body : A → M unit) : M unit :=
  match l with
  | [] => ret ()
  | x :: r => body x ;; for_of r body
  end.

Definition lift_outcome {A} (r : outcome A) : M A :=
  match r with Ok a => ret a | Thrown e => throw e end.

(** A call to a collaborator: logged, failed when the world says so,
    run on the tree otherwise. *)
Definition io {A} (ev : event)
    (run : Fs.tree → outcome A * Fs.tree) : M A :=
  λ w,
    let w1 := {| fs := fs w; faults := tail (faults w); now := now w;
                 mkdtemp_suffix := mkdtemp_suffix w;
                 trace := trace w ++ [ev] |} in
    match head (faults w) with
    | Some (Some e) => (Thrown e, w1)
    | _ =>
        match run (fs w) with
        | (r, t') =>
            (r, {| fs := t'; faults := tail (faults w); now := now w;
                   mkdtemp_suffix := mkdtemp_suffix w;
                   trace := trace w ++ [ev] |})
        end
    end.

Definition pure_read {A} (f : Fs.tree → outcome A)
    : Fs.tree → outcome A * Fs.tree :=
  λ t, (f t, t).

Section Collaborators.
Context `{Platform}.

Definition fs_mkdir (p : string) : M unit :=
  io (EvMkdir p) (Fs.mkdir_p (Path.resolve p)).

Definition fs_readFile (p : string) : M string :=
  io (EvReadFile p) (pure_read (Fs.read_file (Path.resolve p))).

Definition fs_writeFile (p data : string) : M unit :=
  io (EvWriteFile p data) (Fs.write_file (Path.resolve p) data).

Definition fs_readdir (p : string) : M (list string) :=
  io (EvReaddir p) (pure_read (Fs.readdir (Path.resolve p))).

Definition fs_rm (p : string) : M unit :=
  io (EvRm p) (λ t, (Ok (), Fs.rm_rf (Path.resolve p) t)).

Definition fs_cp (src dst : string) : M unit :=
  io (EvCp src dst) (Fs.cp_r (Path.resolve src) (Path.resolve dst)).

(** [mkdtemp(prefix)] returns the prefix with the chosen characters
    appended. *)
Definition fs_mkdtemp (prefix : string) : M string :=
  λ w,
    let name := prefix +:+ mkdtemp_suffix w in
    match io (EvMkdtemp prefix) (Fs.mkdtemp (Path.resolve name)) w with
    | (Ok _, w') => (Ok name, w')
    | (Thrown e, w') => (Thrown e, w')
    end.

(** [tar.extract({file, cwd})] *)
Definition tar_extract (file cwd : string) : M unit :=
  io (EvTarExtract file cwd)
     (λ t,
        match Fs.read_file (Path.resolve file) t with
        | Thrown e => (Thrown e, t)
        | Ok data =>
            match tar_unpack data with
            | None => (Thrown (SystemError "TAR_BAD_ARCHIVE" "extract"), t)
            | Some entries =>
                match Fs.lookup_node t (Path.resolve cwd) with
                | Some Dir => Fs.put_entries (Path.resolve cwd) entries t
                | Some (File _) =>
                    (Thrown (SystemError "ENOTDIR" "chdir"), t)
                | None =>
                    (Thrown (SystemError
                               (Fs.lookup_error t (Path.resolve cwd))
                               "chdir"), t)
                end
            end
        end).

(** [tar.create({gzip: true, file, cwd, filter}, ['.'])]: the output
    file is opened first, so it is there, empty, while the directory is
    walked, and stays behind when the walk fails. *)
Definition tar_create (file cwd : string) (filter : string → bool)
    : M unit :=
  io (EvTarCreate file cwd)
     (λ t,
        match Fs.write_file (Path.resolve file) EmptyString t with
        | (Thrown e, t') => (Thrown e, t')
        | (Ok _, t1) =>
            match Fs.lookup_node t1 (Path.resolve cwd) with
            | Some Dir =>
                Fs.write_file (Path.resolve file)
                  (tar_pack
                     (Fs.entries_below (Path.resolve cwd) filter t1)) t1
            | Some (File _) =>
                (Thrown (SystemError "ENOTDIR" "lstat"), t1)
            | None =>
                (Thrown (SystemError
                           (Fs.lookup_error t1 (Path.resolve cwd))
                           "lstat"), t1)
            end
        end).

(** The UI and chat-client sinks: no effect on the tree. *)
Definition ui_addItem (text : string) (ts : Z) : M unit :=
  io (EvAddItem text ts) (λ t, (Ok (), t)).

Definition ui_loadHistory (v : json) : M unit :=
  io (EvLoadHistory v) (λ t, (Ok (), t)).

Definition client_setHistory (v : json) : M unit :=
  io (EvSetHistory v) (λ t, (Ok (), t)).

(** [Date.now()] *)
Definition Date_now : M Z := λ w, (Ok (now w), w).

(** [JSON.parse(data)] *)
Definition parse (data : string) : M json :=
  match JSON_parse data with
  | Some v => ret v
  | None => throw (SyntaxError "Unexpected token in JSON")
  end.

End Collaborators.

(* ===================================================================== *)
(** ** The command context *)
(* ===================================================================== *)

(** [Config]: the accessors the handlers call. [getGeminiClient] tells
    whether a chat client is there to take [setHistory]. *)
Record Config := {
  getProjectTempDir : option string;
  getProjectRoot : option string;
  getGeminiClient : bool;
}.

(** [CommandContext]: [services.config], and whether the UI has the
    optional [loadHistory] sink. *)
Record CommandContext := {
  config : option Config;
  loadHistory : bool;
}.

Inductive MessageType := info | error.

(** [SlashCommandActionReturn], always of type ['message']. *)
Record SlashCommandActionReturn := {
  messageType : MessageType;
  content : string;
}.

Definition message (t : MessageType) (c : string) : SlashCommandActionReturn :=
  {| messageType := t; content := c |}.

Module Candidate.
Record t := { label : string; value : string; description : string }.
End Candidate.
Abbreviation CompletionCandidate := Candidate.t.

(** [if (!s)] on an optional string: [undefined] and the empty string
    are both falsy. *)
Definition truthy_string (o : option string) : option string :=
  match o with
  | Some s => if Js.truthy s then Some s else None
  | None => None
  end.

(** [[...new Set(l)]]: the values of [l] in the order of their first
    occurrence. *)
Fixpoint Set_values (l : list string) : list string :=
  match l with
  | [] => []
  | x :: r => x :: filter (λ y, y ≠ x) (Set_values r)
  end.

(** [Array.prototype.sort(cmp)]: a stable sort; insertion keeps the
    earlier of two elements that compare equal in front. *)
Fixpoint insert_by {A} (cmp : A → A → Z) (x : A) (l : list A) : list A :=
  match l with
  | [] => [x]
  | y :: r => if cmp x y <=? 0 then x :: l else y :: insert_by cmp x r
  end.

Definition Array_sort {A} (cmp : A → A → Z) (l : list A) : list A :=
  foldr (insert_by cmp) [] l.

(** [(a, b) => b.timestamp - a.timestamp] *)
Definition newest_first (a b : ArchiveMetadata) : Z :=
  timestamp b - timestamp a.

Section Handlers.
Context `{Platform}.

(** The metadata store; [saveCommand.ts] and [loadCommand.ts] each
    carry the same text of [getArchivesDir] and [readArchiveMetadata]. *)

Definition getArchivesDir (config : Config) : M (option string) :=
  match truthy_string (getProjectTempDir config) with
  | None => ret None
  | Some projectTempDir =>
      let archivesDir := Path.join projectTempDir ARCHIVES_DIR_NAME in
      fs_mkdir archivesDir ;;
      ret (Some archivesDir)
  end.

Definition readArchiveMetadata (archivesDir : string)
    : M (list ArchiveMetadata) :=
  let metadataPath := Path.join archivesDir ARCHIVE_METADATA_FILE in
  try_catch
    (let! data := fs_readFile metadataPath in
     let! v := parse data in
     match metadata_of_json v with
     | Some l => ret l
     | None => throw (TypeError "not a list of archive records")
     end)
    (λ thrown,
       if decide (exn_code thrown = Some "ENOENT") then ret []
       else throw thrown).

Definition writeArchiveMetadata (archivesDir : string)
    (metadata : list ArchiveMetadata) : M unit :=
  let metadataPath := Path.join archivesDir ARCHIVE_METADATA_FILE in
  fs_writeFile metadataPath (JSON_stringify (json_of_metadata metadata)).

(** [path.basename(config.getProjectRoot() || 'project')] *)
Definition projectName (config : Config) : string :=
  Path.basename (default "project" (truthy_string (getProjectRoot config))).

(** The records of the current project:
    [archives.filter(a => a.filename.startsWith(`${projectName}-archive-`))] *)
Definition filterArchives (config : Config)
    (archives : list ArchiveMetadata) : list ArchiveMetadata :=
  filter (λ archive,
            Js.startsWith (filename archive)
              (projectName config +:+ "-archive-") = true)
         archives.

(* ------------------------------------------------------------------- *)
(** *** saveCommand.ts *)
(* ------------------------------------------------------------------- *)

Definition pad2 (n : Z) : string := Js.padStart 2 "0" (Js.String_of_Z n).

(** [`${year}${month}${day}-${hours}${minutes}${seconds}`] *)
Definition formattedTimestamp (now : Date) : string :=
  let year := Js.String_of_Z (getFullYear now) in
  let month := pad2 (getMonth now + 1) in
  let day := pad2 (getDate now) in
  let hours := pad2 (getHours now) in
  let minutes := pad2 (getMinutes now) in
  let seconds := pad2 (getSeconds now) in
  year +:+ month +:+ day +:+ "-" +:+ hours +:+ minutes +:+ seconds.

Definition archiveFileName (config : Config) (timestamp : Z) : string :=
  projectName config +:+ "-archive-"
    +:+ formattedTimestamp (localDate timestamp) +:+ ".tar.gz".

Definition defaultExcludes : list string :=
  ["node_modules"; ".git"; ARCHIVES_DIR_NAME].

(** [[...new Set([...defaultExcludes, ...previouslySavedArchives])]] *)
Definition allExcludes (existingMetadata : list ArchiveMetadata)
    : list string :=
  let previouslySavedArchives := map filename existingMetadata in
  Set_values (defaultExcludes ++ previouslySavedArchives).

(** [filePath.startsWith('./') ? filePath.substring(2) : filePath] *)
Definition normalizedFilePath (filePath : string) : string :=
  if Js.startsWith filePath "./" then Js.substring_from 2 filePath
  else filePath.

(** The [filter] callback handed to [tar.create]. *)
Definition archiveFilter (allExcludes : list string) (filePath : string)
    : bool :=
  negb (existsb (λ exclude,
                   Js.startsWith (normalizedFilePath filePath) exclude)
                allExcludes).

Definition saveAction (context : CommandContext) (args : string)
    : M SlashCommandActionReturn :=
  match config context with
  | None => ret (message error "Configuration not available.")
  | Some config =>
      let! archivesDir := getArchivesDir config in
      match truthy_string archivesDir with
      | None =>
          ret (message error
                 "Could not determine the .gemini directory path.")
      | Some archivesDir =>
          let! timestamp := Date_now in
          let archiveFileName := archiveFileName config timestamp in
          let archivePath := Path.join archivesDir archiveFileName in
          let description := Js.trim args in
          try_catch
            (ui_addItem ("Creating archive: " +:+ archivePath) timestamp ;;
             let! existingMetadata := readArchiveMetadata archivesDir in
             let allExcludes := allExcludes existingMetadata in
             tar_create archivePath
               (default "." (getProjectRoot config))
               (archiveFilter allExcludes) ;;
             let newMetadata :=
               {| filename := archiveFileName; timestamp := timestamp;
                  description := description |} in
             writeArchiveMetadata archivesDir
               (existingMetadata ++ [newMetadata]) ;;
             ui_addItem ("Archive created successfully: " +:+ archivePath)
                        timestamp ;;
             ret (message info
                    ("Archive created at: " +:+ archivePath
                     +:+ (if Js.truthy description
                          then " with description: " +:+ Js.dquote
                               +:+ description +:+ Js.dquote
                          else ""))))
            (λ thrown,
               ret (message error
                      ("An unexpected error occurred: "
                       +:+ exn_toString thrown)))
      end
  end.

Definition save_completion (_context : CommandContext) (_partialArg : string)
    : M (list string) :=
  ret [].

(* ------------------------------------------------------------------- *)
(** *** loadCommand.ts *)
(* ------------------------------------------------------------------- *)

(** [args.split(' ').filter(Boolean)] *)
Definition parts (args : string) : list string :=
  filter (λ s : string, s ≠ EmptyString) (Js.split Js.space args).

(** The filename token: the first part, unless it is a flag. *)
Definition selectedFile (args : string) : string :=
  let selectedFile := default EmptyString (head (parts args)) in
  if Js.startsWith selectedFile "--" then EmptyString else selectedFile.

(** [parts.includes('--force')] *)
Definition forceConfirm (args : string) : bool :=
  bool_decide ("--force" ∈ parts args).

(** One line of the listing. *)
Definition archiveLine (archive : ArchiveMetadata) : string :=
  "- " +:+ filename archive +:+ " (Created: "
    +:+ toLocaleString (timestamp archive) +:+ ")"
    +:+ (if Js.truthy (description archive)
         then " - " +:+ description archive else "")
    +:+ Js.nl.

Definition listHeader : string :=
  "Available archives for the current project:" +:+ Js.nl +:+ Js.nl.

(** [content += ...] over the records. *)
Definition renderArchives (archives : list ArchiveMetadata) : string :=
  fold_left (λ content archive, content +:+ archiveLine archive)
            archives listHeader.

(** Lines 95-133: no filename, the archives are listed. *)
Definition listArchives (config : Config) (archivesDir : string)
    : M SlashCommandActionReturn :=
  try_catch
    (let! archives := readArchiveMetadata archivesDir in
     let filteredArchives := filterArchives config archives in
     if decide (length filteredArchives = 0%nat) then
       ret (message info "No saved archives found for the current project.")
     else
       let filteredArchives := Array_sort newest_first filteredArchives in
       ret (message info (renderArchives filteredArchives)))
    (λ _error,
       ret (message error
              ("Error loading archives: " +:+ exn_toString _error))).

Definition filesToKeep : list string :=
  [".git"; "node_modules"; ARCHIVES_DIR_NAME].

(** Lines 176-183: the project directory is cleared. *)
Definition clearProject (projectRoot : string)
    (projectContents : list string) : M unit :=
  for_of projectContents
    (λ item,
       if bool_decide (item ∈ filesToKeep) then ret ()
       else fs_rm (Path.join projectRoot item)).

(** Lines 187-192: the extracted entries are moved in. *)
Definition moveExtracted (tempDir projectRoot : string)
    (extractedContents : list string) : M unit :=
  for_of extractedContents
    (λ item,
       let sourcePath := Path.join tempDir item in
       let destinationPath := Path.join projectRoot item in
       fs_cp sourcePath destinationPath ;;
       fs_rm sourcePath).

(** Lines 165-198: the body of the [try] of the restore. *)
Definition restoreBody (selectedFile filePath projectRoot tempDir : string)
    : M SlashCommandActionReturn :=
  tar_extract filePath tempDir ;;
  let! projectContents := fs_readdir projectRoot in
  clearProject projectRoot projectContents ;;
  let! extractedContents := fs_readdir tempDir in
  moveExtracted tempDir projectRoot extractedContents ;;
  ret (message info
         ("Archive '" +:+ selectedFile
          +:+ "' loaded and extracted successfully to "
          +:+ projectRoot +:+ ".")).

(** Lines 161-202: the restore, with its temporary directory and the
    [finally] that removes it. *)
Definition restoreArchive (selectedFile filePath projectRoot : string)
    : M SlashCommandActionReturn :=
  let! tempDir := fs_mkdtemp (Path.join os_tmpdir "gemini-cli-load-") in
  try_finally
    (restoreBody selectedFile filePath projectRoot tempDir)
    (fs_rm tempDir).

(** Lines 204-230: the fallback, a JSON file of histories. *)
Definition loadJson (context : CommandContext) (config : Config)
    (selectedFile filePath : string) : M SlashCommandActionReturn :=
  let! data := fs_readFile filePath in
  let! toolCallData := parse data in
  let! history := lift_outcome (json_get toolCallData "history") in
  let rest : M SlashCommandActionReturn :=
    let! clientHistory :=
      lift_outcome (json_get toolCallData "clientHistory") in
    match clientHistory with
    | Some v =>
        if json_truthy v && getGeminiClient config
        then client_setHistory v else ret ()
    | None => ret ()
    end ;;
    ret (message info ("Archive '" +:+ selectedFile
                       +:+ "' loaded successfully."))
  in
  match history with
  | Some v =>
      if json_truthy v then
        if negb (loadHistory context) then
          ret (message error "loadHistory function is not available.")
        else ui_loadHistory v ;; rest
      else rest
  | None => rest
  end.

Definition forceMessage (selectedFile projectRoot : string) : string :=
  "Loading '" +:+ selectedFile
    +:+ "' will overwrite the contents of your current project directory ("
    +:+ projectRoot
    +:+ "). This is a destructive operation. To proceed, please run the command again with the '--force' flag (e.g., /load "
    +:+ selectedFile +:+ " --force).".

(** Lines 136-238: a filename is given. *)
Definition loadSelected (context : CommandContext) (config : Config)
    (archivesDir selectedFile : string) (forceConfirm : bool)
    : M SlashCommandActionReturn :=
  try_catch
    (let filePath := Path.join archivesDir selectedFile in
     if Js.endsWith selectedFile ".tar.gz" then
       match truthy_string (getProjectRoot config) with
       | None =>
           ret (message error "Could not determine the project root path.")
       | Some projectRoot =>
           if negb forceConfirm then
             ret (message error (forceMessage selectedFile projectRoot))
           else restoreArchive selectedFile filePath projectRoot
       end
     else loadJson context config selectedFile filePath)
    (λ _error,
       ret (message error
              ("Error loading archive " +:+ selectedFile +:+ ": "
               +:+ exn_toString _error))).

Definition loadAction (context : CommandContext) (args : string)
    : M SlashCommandActionReturn :=
  match config context with
  | None => ret (message error "Configuration not available.")
  | Some config =>
      let! archivesDir := getArchivesDir config in
      match truthy_string archivesDir with
      | None =>
          ret (message error
                 "Could not determine the .gemini directory path.")
      | Some archivesDir =>
          let selectedFile := selectedFile args in
          let forceConfirm := forceConfirm args in
          if negb (Js.truthy selectedFile) then
            listArchives config archivesDir
          else
            loadSelected context config archivesDir selectedFile
                         forceConfirm
      end
  end.

Definition completion (context : CommandContext) (_partialArg : string)
    : M (list CompletionCandidate) :=
  match config context with
  | None => ret []
  | Some config =>
      let! archivesDir := getArchivesDir config in
      match truthy_string archivesDir with
      | None => ret []
      | Some archivesDir =>
          try_catch
            (let! archives := readArchiveMetadata archivesDir in
             let filteredArchives := filterArchives config archives in
             let filteredArchives :=
               Array_sort newest_first filteredArchives in
             ret (map (λ archive,
                         {| Candidate.label := filename archive;
                            Candidate.value := filename archive;
                            Candidate.description := description archive |})
                      filteredArchives))
            (λ _error, ret [])
      end
  end.

End Handlers.

(* ===================================================================== *)
(** ** Vocabulary of the properties *)
(* ===================================================================== *)

(** The calls to the two history sinks among the calls of a trace. *)
Definition is_sink_call (ev : event) : bool :=
  match ev with
  | EvLoadHistory _ | EvSetHistory _ => true
  | _ => false
  end.

Definition sink_calls (tr : list event) : list event :=
  filter (λ ev, is_sink_call ev = true) tr.

(** The world a computation leaves, and the message it returns. *)
Definition after {A} (m : M A) (w : world) : world := (m w).2.

Definition answer (m : M SlashCommandActionReturn) (w : world) : string :=
  match (m w).1 with
  | Ok r => content r
  | Thrown _ => EmptyString
  end.

(** [s.includes(sub)], computed. *)
Fixpoint includesb (s sub : string) : bool :=
  Js.startsWith s sub
  || match s with
     | EmptyString => false
     | String _ s' => includesb s' sub
     end.

(** Nothing exists at or below location [p]. *)
Definition absent (t : Fs.tree) (p : list string) : Prop :=
  ∀ k, p `prefix_of` k → t !! k = None.

(** The check of well-formedness that runs. *)
Definition wf_check (t : Fs.tree) : bool :=
  forallb (λ kv : list string * node,
             forallb Path.is_simple kv.1
             && match Fs.lookup_node t (Fs.parent kv.1) with
                | Some Dir => true
                | _ => false
                end)
          (map_to_list t).

Definition newer_or_same (a b : ArchiveMetadata) : Prop :=
  timestamp b ≤ timestamp a.

Definition newer (a b : ArchiveMetadata) : Prop :=
  timestamp b < timestamp a.

(** A stack of [n] parent segments, as normalisation leaves them at the
    head of a relative path. *)
Definition ups (n : nat) : list string := replicate n Path.dotdot.

(** [m] relates every world it starts in to the world it ends in by
    [P], however it ends. *)
Definition along (P : world → world → Prop) {A} (m : M A) : Prop :=
  ∀ w r w', m w = (r, w') → P w w'.

(** The trace only grows. *)
Definition extends (w w' : world) : Prop := ∃ rest, trace w' = trace w ++ rest.

(** Well-formed trees stay well-formed. *)
Definition keeps_wf (w w' : world) : Prop := Fs.wf (fs w) → Fs.wf (fs w').

(** The tree is left as it is. *)
Definition same_tree (w w' : world) : Prop := fs w' = fs w.







(** [x] is a plain string prefix of [s]. *)
Definition string_prefix (x s : string) : Prop := ∃ rest, s = x +:+ rest.

(** The names the save handler excludes, given the records of the
    store. *)
Definition excluded_name (existing : list ArchiveMetadata) (x : string)
    : Prop :=
  x ∈ ["node_modules"; ".git"; "archives"]
  ∨ ∃ m, m ∈ existing ∧ filename m = x.

(** The path of the entry at [rel] below the archived directory,
    relative to it. *)
Definition relative_path (rel : list string) : string :=
  match rel with
  | [] => Path.dot
  | _ => Js.join Path.sep rel
  end.

(** No excluded name is a prefix of the path of the archived directory
    or of the relative path of the entry at [rel]. *)
Definition clear_of (existing : list ArchiveMetadata) (rel : list string)
    : Prop :=
  ∀ x, excluded_name existing x →
       ¬ string_prefix x Path.dot ∧ ¬ string_prefix x (relative_path rel).


(* ===================================================================== *)
(** ** A concrete platform and concrete worlds *)
(* ===================================================================== *)

Module Demo.

Definition rec (f : string) (t : Z) (d : string) : ArchiveMetadata :=
  {| filename := f; timestamp := t; description := d |}.

Definition old_backup := rec "test-project-archive-1.tar.gz" 1678886400000 "Old backup".
Definition newest_backup := rec "test-project-archive-3.tar.gz" 1678972800000 "Newest backup".
Definition mid_backup := rec "test-project-archive-2.tar.gz" 1678929600000 "Mid backup".
Definition twin_backup := rec "test-project-archive-4.tar.gz" 1678929600000 "".
Definition foreign_backup := rec "other-archive-9.tar.gz" 1679000000000 "Elsewhere".

Fixpoint stringify (v : json) : string :=
  match v with
  | JNull => "null"
  | JBool b => if b then "true" else "false"
  | JNum n => Js.String_of_Z n
  | JStr s => Js.dquote +:+ s +:+ Js.dquote
  | JArr items => "[" +:+ Js.join "," (map stringify items) +:+ "]"
  | JObj fields =>
      "{" +:+ Js.join ","
                (map (λ kv, Js.dquote +:+ kv.1 +:+ Js.dquote +:+ ":"
                            +:+ stringify kv.2) fields)
      +:+ "}"
  end.

(** The files of the demonstrations, by their content. *)
Definition parse_table : list (string * json) :=
  [("[]", JArr []);
   ("MIXED", json_of_metadata
               [old_backup; foreign_backup; newest_backup; mid_backup]);
   ("TIES", json_of_metadata [mid_backup; twin_backup]);
   ("FOREIGN", json_of_metadata [foreign_backup]);
   ("HISTORY", JObj [("history", JArr [JStr "hello"])]);
   ("NULL-HISTORY", JObj [("history", JNull)])].

Definition archive_entries : list (list string * node) :=
  [(["a.txt"], File "A"); (["d"; "b.txt"], File "B")].

#[export] Instance platform : Platform := {|
  JSON_parse := λ s, lookup_field s parse_table;
  JSON_stringify := stringify;
  toLocaleString := Js.String_of_Z;
  localDate := λ _, {| getFullYear := 2025; getMonth := 0; getDate := 1;
                       getHours := 12; getMinutes := 0; getSeconds := 0 |};
  tar_unpack := λ s, if decide (s = "TAR") then Some archive_entries
                     else None;
  tar_pack := λ _, "TAR";
  os_tmpdir := "/mock/tmp";
|}.

Definition cfg : Config :=
  {| getProjectTempDir := Some "/t";
     getProjectRoot := Some "/mock/path/test-project";
     getGeminiClient := true |}.

Definition ctx : CommandContext :=
  {| config := Some cfg; loadHistory := true |}.

(** A context whose project root is not known. *)
Definition rootless : CommandContext :=
  {| config := Some {| getProjectTempDir := Some "/t";
                       getProjectRoot := None;
                       getGeminiClient := true |};
     loadHistory := true |}.

Definition project : list string := ["mock"; "path"; "test-project"].

Definition base_tree : Fs.tree :=
  list_to_map
    [(["t"], Dir); (["mock"], Dir); (["mock"; "tmp"], Dir);
     (["mock"; "path"], Dir); (project, Dir);
     (project ++ ["old.txt"], File "x"); (project ++ [".git"], Dir);
     (["t"; "archives"], Dir);
     (["t"; "archives"; "x.tar.gz"], File "TAR");
     (["t"; "archives"; "h.json"], File "HISTORY");
     (["t"; "archives"; "e.json"], File "NULL-HISTORY");
     (["t"; "secret.json"], File "HISTORY")].

Definition world_of (t : Fs.tree) (f : list (option exn)) : world :=
  {| fs := t; faults := f; now := 1735732800000;
     mkdtemp_suffix := "abc123"; trace := [] |}.

Definition w0 : world := world_of base_tree [].

(** The same world with a metadata store of the given content. *)
Definition with_store (data : string) : world :=
  world_of (<[["t"; "archives"; "archive-metadata.json"] := File data]>
              base_tree) [].

(** The base world, where the eleventh call to a collaborator, the
    removal of the temporary directory at the end of a restore, is
    refused. *)
Definition cleanup_refused : world :=
  world_of base_tree
           (replicate 10 None ++ [Some (SystemError "EACCES" "rm")]).

(** A world in which the place of the archives directory is taken by
    a regular file. *)
Definition blocked : world :=
  world_of (<[["t"; "archives"] := File "not a directory"]> {[ ["t"] := Dir ]})
           [].

(** A world without the archives directory. *)
Definition fresh : world :=
  world_of (filter (λ kv, ¬ ["t"; "archives"] `prefix_of` kv.1) base_tree)
           [].

End Demo.

(** The scratch directory that [mkdtemp] makes in the concrete worlds. *)
Definition demo_temp : string := "/mock/tmp/gemini-cli-load-abc123".

Definition demo_temp_at : list string := ["mock"; "tmp"; "gemini-cli-load-abc123"].

(* ===================================================================== *)
(** ** Vocabulary of the further properties *)
(* ===================================================================== *)

(** Only the entries at locations in [S] may differ. *)
Definition only_changes (S : list string → Prop) (w w' : world) : Prop :=
  ∀ k, ¬ S k → fs w' !! k = fs w !! k.

(** The calls to [ui.addItem] among the calls of a trace. *)
Definition is_notice (ev : event) : bool :=
  match ev with EvAddItem _ _ => true | _ => false end.

Definition notices (tr : list event) : list event :=
  filter (λ ev, is_notice ev = true) tr.

(** No notice is added. *)
Definition silent (w w' : world) : Prop :=
  notices (trace w') = notices (trace w).

(** No history sink is called. *)
Definition no_history (w w' : world) : Prop :=
  sink_calls (trace w') = sink_calls (trace w).

(** No call is made to fail from now on. *)
Definition calm (w : world) : Prop := Forall (λ f, f = None) (faults w).

(** A calm world is left calm. *)
Definition stays_calm (w w' : world) : Prop := calm w → calm w'.

(** A second platform, whose JSON codec reads back the one store that
    the save of the demonstrations writes, and a legacy file with both
    histories. *)
Module Echo.

Definition saved : ArchiveMetadata :=
  Demo.rec "test-project-archive-20250101-120000.tar.gz" 1735732800000
           "my important backup".

Definition both : json :=
  JObj [("history", JArr [JStr "hello"]);
        ("clientHistory", JArr [JStr "hi"])].

Definition parse_table : list (string * json) :=
  (Demo.stringify (json_of_metadata [saved]), json_of_metadata [saved])
  :: ("BOTH", both) :: Demo.parse_table.

Definition platform : Platform := {|
  JSON_parse := λ s, lookup_field s parse_table;
  JSON_stringify := Demo.stringify;
  toLocaleString := Js.String_of_Z;
  localDate := λ _, {| getFullYear := 2025; getMonth := 0; getDate := 1;
                       getHours := 12; getMinutes := 0; getSeconds := 0 |};
  tar_unpack := λ s, if decide (s = "TAR") then Some Demo.archive_entries
                     else None;
  tar_pack := λ _, "TAR";
  os_tmpdir := "/mock/tmp";
|}.

(** The base world with a legacy file that holds both histories. *)
Definition with_both : world :=
  Demo.world_of (<[["t"; "archives"; "b.json"] := File "BOTH"]> Demo.base_tree)
                [].

(** The base world in which the fourth call to a collaborator, the
    creation of the archive by a save, is refused. *)
Definition archiver_refused : world :=
  Demo.world_of Demo.base_tree
                (replicate 3 None ++ [Some (SystemError "ENOSPC" "write")]).

(** A context with no configuration, and one whose project temporary
    directory is the empty string. *)
Definition unconfigured : CommandContext :=
  {| config := None; loadHistory := true |}.

Definition homeless : CommandContext :=
  {| config := Some {| getProjectTempDir := Some EmptyString;
                       getProjectRoot := Some "/mock/path/test-project";
                       getGeminiClient := true |};
     loadHistory := true |}.

End Echo.

(* ===================================================================== *)
(** * Properties *)
(* ===================================================================== *)

(** ** Strings *)

Lemma sapp_nil_l (t : string) : EmptyString +:+ t = t.
Proof. reflexivity. Qed.

Lemma sapp_cons (c : ascii) (s t : string) : String c s +:+ t = String c (s +:+ t).
Proof. reflexivity. Qed.

Lemma sapp_nil_r (s : string) : s +:+ EmptyString = s.
Proof. induction s as [|c s IH]; [done | by rewrite sapp_cons, IH]. Qed.

Lemma sapp_assoc (a b c : string) : (a +:+ b) +:+ c = a +:+ (b +:+ c).
Proof. induction a as [|x a IH]; [done | by rewrite !sapp_cons, IH]. Qed.

Lemma startsWith_spec (s p : string) :
  Js.startsWith s p = true ↔ ∃ r, s = p +:+ r.
Proof.
  revert s. induction p as [|a p IH]; intros s; simpl.
  - split; [intros _; exists s; reflexivity | done].
  - destruct s as [|b s].
    + split; [done | intros [r Hr]; discriminate].
    + rewrite andb_true_iff, IH. split.
      * intros [Hab [r ->]]. apply Ascii.eqb_eq in Hab as ->. exists r. reflexivity.
      * intros [r Hr]. rewrite sapp_cons in Hr. injection Hr as -> ->.
        split; [apply Ascii.eqb_refl | by exists r].
Qed.

Lemma startsWith_false (s p : string) :
  Js.startsWith s p = false ↔ ¬ ∃ r, s = p +:+ r.
Proof.
  rewrite <- startsWith_spec. destruct (Js.startsWith s p); split; try done.
Qed.

(** ** Trimming *)













(** ** The values of a set *)

Lemma elem_of_Set_values (x : string) (l : list string) :
  x ∈ Set_values l ↔ x ∈ l.
Proof.
  induction l as [|a l IH]; [done|]. simpl.
  rewrite !elem_of_cons, list_elem_of_filter, IH.
  destruct (decide (x = a)); tauto.
Qed.

Lemma NoDup_Set_values (l : list string) : NoDup (Set_values l).
Proof.
  induction l as [|a l IH]; [constructor|]. simpl. apply NoDup_cons. split.
  - rewrite list_elem_of_filter. by intros [? _].
  - by apply NoDup_filter.
Qed.

(** Values that are there once come first, in their order. *)
Lemma Set_values_app (a l : list string) :
  NoDup a →
  Set_values (a ++ l) = a ++ filter (λ y, y ∉ a) (Set_values l).
Proof.
  induction a as [|x a IH]; intros Hnd.
  - simpl. induction (Set_values l) as [|y r IHr]; [done|].
    rewrite filter_cons_True by apply not_elem_of_nil. by rewrite <- IHr.
  - apply NoDup_cons in Hnd as [Hx Hnd]. simpl. rewrite IH by done.
    rewrite filter_app. f_equal. f_equal.
    + clear IH Hnd. induction a as [|y a IHa]; [done|].
      apply not_elem_of_cons in Hx as [Hxy Hx].
      rewrite filter_cons_True by done. by rewrite IHa.
    + rewrite list_filter_filter. apply list_filter_iff.
      intros y. rewrite not_elem_of_cons. tauto.
Qed.

(** ** Sorting *)

Section Sort.
Context {A : Type} (cmp : A → A → Z).

Lemma insert_by_perm x l : insert_by cmp x l ≡ₚ x :: l.
Proof.
  induction l as [|y l IH]; simpl; [done|].
  destruct (cmp x y <=? 0); [done|].
  rewrite IH. apply Permutation_swap.
Qed.

Lemma Array_sort_perm l : Array_sort cmp l ≡ₚ l.
Proof.
  induction l as [|x l IH]; simpl; [done|].
  unfold Array_sort in *. simpl. rewrite insert_by_perm. by rewrite IH.
Qed.
End Sort.


Lemma insert_newest_first_sorted x l :
  StronglySorted newer_or_same l →
  StronglySorted newer_or_same (insert_by newest_first x l).
Proof.
  induction 1 as [|y l Hl IH Hy]; simpl.
  - repeat constructor.
  - unfold newest_first at 1. destruct (Z.leb_spec (timestamp y - timestamp x) 0).
    + constructor; [by constructor|]. constructor; [unfold newer_or_same; lia|].
      eapply Forall_impl; [exact Hy|]. unfold newer_or_same. intros; lia.
    + constructor; [done|]. rewrite insert_by_perm. constructor; [unfold newer_or_same; lia | done].
Qed.

Lemma Array_sort_sorted l : StronglySorted newer_or_same (Array_sort newest_first l).
Proof.
  induction l as [|x l IH]; [constructor|]. by apply insert_newest_first_sorted.
Qed.

Lemma sorted_strict l :
  NoDup (map timestamp l) → StronglySorted newer_or_same l → StronglySorted newer l.
Proof.
  induction l as [|x l IH]; intros Hnd Hs; [constructor|].
  simpl in Hnd. apply NoDup_cons in Hnd as [Hx Hnd]. 
  apply StronglySorted_inv in Hs as [Hs Hall].
  constructor; [by apply IH|].
  apply Forall_forall. intros y Hy. rewrite Forall_forall in Hall.
  specialize (Hall y Hy). unfold newer, newer_or_same in *.
  assert (timestamp y ≠ timestamp x); [|lia].
  intros Heq. apply Hx. rewrite <- Heq. apply list_elem_of_fmap. eauto.
Qed.

(** ** Paths *)

Lemma normalize_truthy p : Js.truthy (Path.normalize p) = true.
Proof.
  unfold Path.normalize. destruct p as [|c p]; [done|].
  set (q := String c p).
  destruct (Path.normalizeString _ q) as [|c' r] eqn:Hr.
  - by destruct (Path.isAbsolute q), (Js.endsWith q Path.sep).
  - by destruct (Path.isAbsolute q), (Js.endsWith q Path.sep).
Qed.

Lemma join_truthy a b : Js.truthy (Path.join a b) = true.
Proof.
  unfold Path.join. destruct a, b; try apply normalize_truthy. done.
Qed.

(** ** Splitting and joining *)

Lemma split_nonempty c s : Js.split c s ≠ [].
Proof.
  destruct s as [|d s]; simpl; [done|].
  destruct (Ascii.eqb d c); [done|]. by destruct (Js.split c s).
Qed.

Lemma split_sep_cons c s : Js.split c (String c s) = EmptyString :: Js.split c s.
Proof. simpl. by rewrite Ascii.eqb_refl. Qed.

Lemma split_app c a b :
  Js.split c (a +:+ String c b) = Js.split c a ++ Js.split c b.
Proof.
  induction a as [|d a IH].
  - rewrite sapp_nil_l. apply split_sep_cons.
  - rewrite sapp_cons. simpl. destruct (Ascii.eqb d c).
    + by rewrite IH.
    + rewrite IH. destruct (Js.split c a) eqn:E; [by apply split_nonempty in E|done].
Qed.

Lemma split_no_sep c s : Js.has_char c s = false → Js.split c s = [s].
Proof.
  induction s as [|d s IH]; simpl; [done|].
  rewrite orb_false_iff. intros [-> Hs]. by rewrite IH.
Qed.

Lemma split_has_no_sep c s seg :
  seg ∈ Js.split c s → Js.has_char c seg = false.
Proof.
  revert seg. induction s as [|d s IH]; simpl; intros seg.
  - by intros ->%list_elem_of_singleton.
  - destruct (Ascii.eqb d c) eqn:Hd.
    + intros [->|?]%elem_of_cons; [done | by apply IH].
    + destruct (Js.split c s) as [|x r] eqn:E; [by apply split_nonempty in E|].
      intros [->|?]%elem_of_cons.
      * simpl. rewrite Hd. apply IH. by left.
      * apply IH. by right.
Qed.

Lemma split_join c l :
  l ≠ [] → Forall (λ x, Js.has_char c x = false) l →
  Js.split c (Js.join (String c EmptyString) l) = l.
Proof.
  induction l as [|x [|y r] IH]; [done|..]; intros _ Hl.
  - simpl. apply split_no_sep. by apply Forall_inv in Hl.
  - apply Forall_cons in Hl as [Hx Hl].
    change (Js.join (String c EmptyString) (x :: y :: r))
      with (x +:+ String c EmptyString +:+ Js.join (String c EmptyString) (y :: r)).
    rewrite sapp_cons, sapp_nil_l, split_app, IH by done.
    by rewrite split_no_sep.
Qed.

Lemma join_empty sep l :
  Forall (λ x : string, x ≠ EmptyString) l → Js.join sep l = EmptyString → l = [].
Proof.
  destruct l as [|x [|y r]]; [done|..]; intros [Hx _]%Forall_cons.
  - simpl. done.
  - change (Js.join sep (x :: y :: r)) with (x +:+ sep +:+ Js.join sep (y :: r)).
    destruct x; [done|]. rewrite sapp_cons. done.
Qed.

(** ** Normalisation *)

Lemma norm_from_app b st l1 l2 :
  Path.norm_from b st (l1 ++ l2) = Path.norm_from b (Path.norm_from b st l1) l2.
Proof. apply fold_left_app. Qed.

Lemma norm_step_simple b st seg :
  Path.is_simple seg = true → Path.norm_step b st seg = seg :: st.
Proof.
  unfold Path.is_simple, Path.norm_step. rewrite !andb_true_iff, !bool_decide_eq_true.
  intros [[[? ?] ?] _]. by rewrite !decide_False.
Qed.

Lemma norm_from_simple b st l :
  Forall (λ s, Path.is_simple s = true) l → Path.norm_from b st l = rev l ++ st.
Proof.
  revert st. induction l as [|x l IH]; intros st Hl; [done|].
  apply Forall_cons in Hl as [Hx Hl]. simpl.
  rewrite norm_step_simple, IH by done. by rewrite <- app_assoc.
Qed.

Lemma norm_from_ups n : Path.norm_from false [] (ups n) = [].
Proof. induction n as [|n IH]; [done|]. simpl. exact IH. Qed.

(** What the stack of a normalisation holds. *)
Lemma norm_step_stack b st seg :
  Js.has_char Js.slash seg = false →
  Forall (λ s, Path.is_simple s = true ∨ (b = true ∧ s = Path.dotdot)) st →
  Forall (λ s, Path.is_simple s = true ∨ (b = true ∧ s = Path.dotdot))
         (Path.norm_step b st seg).
Proof.
  intros Hseg Hst. unfold Path.norm_step.
  repeat case_decide; try done.
  - destruct st as [|top rest].
    + destruct b; [|constructor]. apply Forall_singleton. by right.
    + case_decide; [|by apply Forall_cons in Hst as [_ ?]].
      constructor; [|done]. apply Forall_cons in Hst as [[Hs|[? _]] _].
      * subst top. vm_compute in Hs. discriminate.
      * by right.
  - constructor; [|done]. left. unfold Path.is_simple.
    rewrite Hseg. rewrite !andb_true_iff, !bool_decide_eq_true. done.
Qed.

Lemma norm_from_stack b st segs :
  Forall (λ s, Js.has_char Js.slash s = false) segs →
  Forall (λ s, Path.is_simple s = true ∨ (b = true ∧ s = Path.dotdot)) st →
  Forall (λ s, Path.is_simple s = true ∨ (b = true ∧ s = Path.dotdot))
         (Path.norm_from b st segs).
Proof.
  revert st. induction segs as [|x segs IH]; intros st Hsegs Hst; [done|].
  apply Forall_cons in Hsegs as [Hx Hsegs]. simpl.
  apply IH; [done|]. by apply norm_step_stack.
Qed.

Lemma segments_no_slash p :
  Forall (λ s, Js.has_char Js.slash s = false) (Path.segments p).
Proof. apply Forall_forall. intros s. apply split_has_no_sep. Qed.

Lemma norm_false_simple st p :
  Forall (λ s, Path.is_simple s = true) st →
  Forall (λ s, Path.is_simple s = true) (Path.norm_from false st (Path.segments p)).
Proof.
  intros Hst.
  eapply Forall_impl; [apply (norm_from_stack false st)|].
  - apply segments_no_slash.
  - eapply Forall_impl; [exact Hst|]. by left.
  - intros s [?|[? _]]; done.
Qed.

Lemma resolve_simple p : Forall (λ s, Path.is_simple s = true) (Path.resolve p).
Proof. unfold Path.resolve. apply Forall_rev, norm_false_simple. constructor. Qed.

Lemma ups_snoc n : ups n ++ [Path.dotdot] = Path.dotdot :: ups n.
Proof.
  unfold ups. induction n as [|n IH]; [done|].
  cbn [replicate app]. by f_equal.
Qed.

Lemma rev_ups n : rev (ups n) = ups n.
Proof.
  induction n as [|n IH]; [done|].
  change (ups (S n)) with (Path.dotdot :: ups n).
  cbn [rev]. by rewrite IH, ups_snoc.
Qed.

(** Above the start of a relative path only [..] segments pile up; the
    absolute reading drops them. *)
Lemma norm_step_true_false x stf n :
  Forall (λ s, Path.is_simple s = true) stf →
  Js.has_char Js.slash x = false →
  Forall (λ s, Path.is_simple s = true) (Path.norm_step false stf x)
  ∧ ∃ n', Path.norm_step true (stf ++ ups n) x
          = Path.norm_step false stf x ++ ups n'.
Proof.
  intros Hstf Hx. unfold Path.norm_step.
  case_decide; [by eauto|]. case_decide; [by eauto|].
  case_decide.
  - destruct stf as [|top rest].
    + split; [constructor|]. destruct n as [|n].
      * by exists 1%nat.
      * change ([] ++ ups (S n)) with (Path.dotdot :: ups n).
        cbv beta iota. rewrite decide_True by done. by exists (S (S n)).
    + apply Forall_cons in Hstf as [Htop Hrest].
      change ((top :: rest) ++ ups n) with (top :: (rest ++ ups n)).
      cbv beta iota.
      rewrite !decide_False by (intros ->; vm_compute in Htop; discriminate).
      eauto.
  - split; [|by exists n].
    constructor; [|done]. unfold Path.is_simple.
    rewrite Hx, !andb_true_iff, !bool_decide_eq_true. done.
Qed.

Lemma norm_true_false segs stf n :
  Forall (λ s, Path.is_simple s = true) stf →
  Forall (λ s, Js.has_char Js.slash s = false) segs →
  ∃ n', Path.norm_from true (stf ++ ups n) segs
        = Path.norm_from false stf segs ++ ups n'.
Proof.
  revert stf n. induction segs as [|x segs IH]; intros stf n Hstf Hsegs.
  { by exists n. }
  apply Forall_cons in Hsegs as [Hx Hsegs].
  change (Path.norm_from true (stf ++ ups n) (x :: segs))
    with (Path.norm_from true (Path.norm_step true (stf ++ ups n) x) segs).
  change (Path.norm_from false stf (x :: segs))
    with (Path.norm_from false (Path.norm_step false stf x) segs).
  destruct (norm_step_true_false x stf n Hstf Hx) as [Hs [n' ->]].
  by apply IH.
Qed.

Lemma resolve_normalize p : Path.resolve (Path.normalize p) = Path.resolve p.
Proof.
  destruct p as [|c0 p0]; [done|].
  unfold Path.normalize. cbv beta iota zeta. set (p := String c0 p0).
  set (abs := Path.isAbsolute p). set (trailing := Js.endsWith p Path.sep).
  unfold Path.normalizeString.
  assert (∃ n, Path.norm_from (negb abs) [] (Path.segments p)
               = Path.norm_from false [] (Path.segments p) ++ ups n) as [n Hn].
  { destruct abs; simpl.
    - exists 0%nat. by rewrite app_nil_r.
    - apply (norm_true_false _ [] 0%nat); [constructor | apply segments_no_slash]. }
  rewrite Hn. set (stf := Path.norm_from false [] (Path.segments p)).
  assert (Forall (λ s, Path.is_simple s = true) stf) as Hstf.
  { apply norm_false_simple. constructor. }
  set (L := rev (stf ++ ups n)).
  assert (L = ups n ++ rev stf) as HL.
  { unfold L. rewrite rev_app_distr. f_equal. apply rev_ups. }
  assert (Forall (λ s, Js.has_char Js.slash s = false) L) as Hns.
  { rewrite HL. apply Forall_app. split.
    - unfold ups. apply Forall_replicate. done.
    - apply Forall_rev.
      eapply Forall_impl; [exact Hstf|]. intros s. unfold Path.is_simple.
      rewrite !andb_true_iff, negb_true_iff. tauto. }
  assert (Forall (λ s : string, s ≠ EmptyString) L) as Hne.
  { rewrite HL. apply Forall_app. split.
    - unfold ups. apply Forall_replicate. done.
    - apply Forall_rev.
      eapply Forall_impl; [exact Hstf|]. intros s. unfold Path.is_simple.
      rewrite !andb_true_iff, !bool_decide_eq_true. tauto. }
  assert (Path.norm_from false [] L = stf) as HnL.
  { rewrite HL, norm_from_app, norm_from_ups, norm_from_simple.
    - by rewrite app_nil_r, rev_involutive.
    - by apply Forall_rev. }
  destruct (Js.join Path.sep L) as [|c r] eqn:Hr.
  - apply join_empty in Hr; [|done].
    assert (stf = []) as Hs.
    { rewrite Hr in HnL. by rewrite <- HnL. }
    unfold Path.resolve. fold stf. rewrite Hs.
    by destruct abs, trailing.
  - assert (L ≠ []) as HLne by (intros E; by rewrite E in Hr).
    assert (Path.segments (Js.join Path.sep L) = L) as Hseg by by apply split_join.
    rewrite Hr in Hseg.
    unfold Path.resolve at 2. fold stf. rewrite <- HnL.
    unfold Path.resolve. f_equal.
    destruct abs, trailing; unfold Path.segments, Path.sep in *.
    + rewrite sapp_cons, sapp_nil_l, split_sep_cons.
      rewrite split_app. unfold Path.segments in Hseg. rewrite Hseg.
      simpl. rewrite norm_from_app. done.
    + rewrite sapp_cons, sapp_nil_l, split_sep_cons. rewrite Hseg. done.
    + rewrite split_app, Hseg, norm_from_app. done.
    + by rewrite Hseg.
Qed.

Lemma resolve_join a b :
  Path.resolve (Path.join a b)
  = rev (Path.norm_from false (rev (Path.resolve a)) (Path.segments b)).
Proof.
  unfold Path.join. destruct a as [|ca a], b as [|cb b]; try done.
  - by rewrite resolve_normalize.
  - rewrite resolve_normalize. unfold Path.resolve at 2.
    rewrite rev_involutive. done.
  - rewrite resolve_normalize. unfold Path.resolve at 1 2.
    rewrite rev_involutive. unfold Path.sep.
    change (String Js.slash EmptyString +:+ String cb b)
      with (String Js.slash (String cb b)).
    unfold Path.segments. by rewrite split_app, norm_from_app.
Qed.

Lemma is_simple_no_slash x : Path.is_simple x = true → Js.has_char Js.slash x = false.
Proof. unfold Path.is_simple. rewrite !andb_true_iff, negb_true_iff. tauto. Qed.

Lemma resolve_join_simple d x :
  Path.is_simple x = true → Path.resolve (Path.join d x) = Path.resolve d ++ [x].
Proof.
  intros Hx. rewrite resolve_join. unfold Path.segments.
  rewrite split_no_sep by by apply is_simple_no_slash.
  simpl. rewrite norm_step_simple by done. simpl. by rewrite rev_involutive.
Qed.

(** ** Trees *)

Section FsFacts.
Implicit Types (t : gmap (list string) node) (p q k r : list string).

Lemma strip_spec p k r : Fs.strip p k = Some r ↔ k = p ++ r.
Proof.
  revert k. induction p as [|x p IH]; intros k; simpl.
  - split; congruence.
  - destruct k as [|y k]; [done|]. case_decide as Hxy.
    + subst y. rewrite IH. split; congruence.
    + split; [done|]. intros [= ? ?]. done.
Qed.

Lemma strip_app p r : Fs.strip p (p ++ r) = Some r.
Proof. by apply strip_spec. Qed.

Lemma strip_None p k : Fs.strip p k = None ↔ ¬ p `prefix_of` k.
Proof.
  split.
  - intros Hn [r ->]. by rewrite strip_app in Hn.
  - intros Hn. destruct (Fs.strip p k) as [r|] eqn:E; [|done].
    apply strip_spec in E. destruct Hn. by exists r.
Qed.

Lemma prefixes_spec p q : q ∈ Fs.prefixes p ↔ q ≠ [] ∧ q `prefix_of` p.
Proof.
  revert q. induction p as [|x p IH]; intros q; simpl.
  - split; [by intros ?%elem_of_nil|]. intros [Hq Hp].
    apply prefix_nil_inv in Hp. done.
  - rewrite elem_of_cons, list_elem_of_fmap. split.
    + intros [->|(q' & -> & Hq')].
      * split; [done|]. by apply prefix_cons, prefix_nil.
      * apply IH in Hq' as [_ Hq']. split; [done|]. by apply prefix_cons.
    + intros [Hq Hp]. destruct q as [|y q]; [done|].
      apply prefix_cons_inv_1 in Hp as Hy. subst y.
      apply prefix_cons_inv_2 in Hp.
      destruct q as [|z q]; [by left|]. right.
      exists (z :: q). split; [done|]. by apply IH.
Qed.

Lemma parent_snoc q (n : string) : Fs.parent (q ++ [n]) = q.
Proof.
  unfold Fs.parent. rewrite length_app. simpl.
  replace (length q + 1 - 1)%nat with (length q) by lia.
  by rewrite take_app_length.
Qed.

Lemma snoc_parent k : k ≠ [] → ∃ n, k = Fs.parent k ++ [n].
Proof.
  destruct k as [|x k] using rev_ind; [done|]. intros _.
  exists x. by rewrite parent_snoc.
Qed.

Lemma parent_prefix k : Fs.parent k `prefix_of` k.
Proof. unfold Fs.parent. apply prefix_take. Qed.

Lemma lookup_node_ne t p : p ≠ [] → Fs.lookup_node t p = t !! p.
Proof. by destruct p. Qed.

Lemma lookup_node_snoc t q (n : string) : Fs.lookup_node t (q ++ [n]) = t !! (q ++ [n]).
Proof. apply lookup_node_ne. by destruct q. Qed.

Lemma wf_ancestor t q r :
  Fs.wf t → r ≠ [] → is_Some (t !! (q ++ r)) → Fs.lookup_node t q = Some Dir.
Proof.
  intros Hwf. induction r as [|n r IH] using rev_ind; [done|].
  intros _ Hk. destruct (Hwf _ Hk) as [_ Hpar].
  rewrite app_assoc, parent_snoc in Hpar.
  destruct r as [|y r]; [by rewrite app_nil_r in Hpar|].
  apply IH; [done|]. rewrite lookup_node_ne in Hpar by by destruct q. by rewrite Hpar.
Qed.

Lemma wf_below t q k :
  Fs.wf t → q `prefix_of` k → k ≠ q → is_Some (t !! k) →
  Fs.lookup_node t q = Some Dir.
Proof.
  intros Hwf [r ->] Hne Hk. apply (wf_ancestor t q r); [done| |done].
  intros ->. by rewrite app_nil_r in Hne.
Qed.

Lemma wf_absent_below t q k :
  Fs.wf t → Fs.lookup_node t q = None → q `prefix_of` k → t !! k = None.
Proof.
  intros Hwf Hq Hpre. destruct (t !! k) as [n|] eqn:Hk; [|done].
  destruct (decide (k = q)) as [->|Hne].
  - destruct q; [done|]. simpl in Hq. congruence.
  - rewrite (wf_below t q k) in Hq; [done..|]. by rewrite Hk.
Qed.

Lemma wf_simple t k :
  Fs.wf t → is_Some (t !! k) → Forall (λ s, Path.is_simple s = true) k.
Proof. intros Hwf Hk. by destruct (Hwf _ Hk). Qed.

(** *** mkdir *)

Lemma lookup_mkdirs t (l : list (list string)) k :
  foldr (λ q t', <[q := Dir]> t') t l !! k
  = if decide (k ∈ l) then Some Dir else t !! k.
Proof.
  induction l as [|q l IH]; cbn [foldr].
  - case_decide as Hin; [by apply elem_of_nil in Hin|done].
  - destruct (decide (q = k)) as [->|Hne].
    + rewrite lookup_insert_eq, decide_True; [done|]. by left.
    + rewrite lookup_insert_ne, IH by done.
      destruct (decide (k ∈ l)).
      * rewrite decide_True; [done|]. by right.
      * rewrite decide_False; [done|]. intros [?|?]%elem_of_cons; done.
Qed.

Lemma mkdir_p_ok p t t' :
  Fs.mkdir_p p t = (Ok (), t') →
  (∀ q, q ∈ Fs.prefixes p → Fs.is_file t q = false)
  ∧ ∀ k, t' !! k = if decide (k ∈ Fs.prefixes p) then Some Dir else t !! k.
Proof.
  unfold Fs.mkdir_p. destruct (find _ _) as [q|] eqn:E; [done|].
  intros [= <-]. split; [|intros k; apply lookup_mkdirs].
  intros q Hq. 
  destruct (Fs.is_file t q) eqn:Hf; [|done].
  apply list_elem_of_In in Hq.
  pose proof (find_none _ _ E q Hq) as Hn. simpl in Hn. congruence.
Qed.

Lemma mkdir_p_thrown p t e t' :
  Fs.mkdir_p p t = (Thrown e, t') → t' = t.
Proof.
  unfold Fs.mkdir_p. destruct (find _ _); by intros [= <-].
Qed.

Lemma mkdir_p_lookup_node p t t' k :
  Fs.mkdir_p p t = (Ok (), t') →
  Fs.lookup_node t' k
  = if decide (k ∈ Fs.prefixes p) then Some Dir else Fs.lookup_node t k.
Proof.
  intros [_ Hl]%mkdir_p_ok. destruct k as [|x k]; simpl.
  - rewrite decide_False; [done|]. rewrite prefixes_spec. tauto.
  - apply Hl.
Qed.

Lemma mkdir_p_made p t t' :
  Fs.mkdir_p p t = (Ok (), t') → Fs.lookup_node t' p = Some Dir.
Proof.
  intros Hm. rewrite (mkdir_p_lookup_node _ _ _ _ Hm).
  destruct p as [|x p]; [done|]. rewrite decide_True; [done|].
  apply prefixes_spec. done.
Qed.

Lemma mkdir_p_wf p t o t' :
  Fs.wf t → Forall (λ s, Path.is_simple s = true) p →
  Fs.mkdir_p p t = (o, t') → Fs.wf t'.
Proof.
  intros Hwf Hp Hm. destruct o as [[]|e]; [|by rewrite (mkdir_p_thrown _ _ _ _ Hm)].
  pose proof (mkdir_p_ok _ _ _ Hm) as [_ Hl].
  intros k Hk. rewrite Hl in Hk.
  rewrite (mkdir_p_lookup_node _ _ _ _ Hm).
  destruct (decide (k ∈ Fs.prefixes p)) as [Hin|Hout].
  - apply prefixes_spec in Hin as [Hne [r ->]].
    split; [by apply Forall_app in Hp as [? _]|].
    destruct (snoc_parent _ Hne) as [n Hn].
    destruct (Fs.parent (k)) as [|y q] eqn:Epar; [by rewrite decide_False by (rewrite prefixes_spec; tauto)|].
    rewrite decide_True; [done|]. apply prefixes_spec. split; [done|].
    rewrite <- Epar. etrans; [apply parent_prefix|]. by apply prefix_app_r.
  - destruct (Hwf _ Hk) as [Hs Hpar]. split; [done|].
    by destruct (decide _).
Qed.

Lemma mkdir_p_id p t :
  Fs.wf t → Fs.lookup_node t p = Some Dir → Fs.mkdir_p p t = (Ok (), t).
Proof.
  intros Hwf Hp.
  assert (∀ q, q ∈ Fs.prefixes p → t !! q = Some Dir) as Hall.
  { intros q [Hne Hpre]%prefixes_spec.
    destruct (decide (p = q)) as [->|Hpq].
    - by rewrite lookup_node_ne in Hp.
    - rewrite <- lookup_node_ne by done. apply (wf_below t q p); [done..|].
      rewrite <- lookup_node_ne, Hp; [done|]. intros ->.
      apply prefix_nil_inv in Hpre. done. }
  unfold Fs.mkdir_p. destruct (find _ _) as [q|] eqn:E.
  - apply find_some in E as [Hq Hf]. apply list_elem_of_In, Hall in Hq.
    unfold Fs.is_file in Hf. destruct q; [done|]. simpl in Hf. by rewrite Hq in Hf.
  - f_equal. apply map_eq. intros k. rewrite lookup_mkdirs.
    destruct (decide _) as [Hin|]; [|done]. by rewrite Hall.
Qed.
End FsFacts.

Section FsFacts2.
Implicit Types (t : gmap (list string) node) (p q k r : list string).

(** *** readdir *)

Lemma child_name_spec p k (n : string) :
  Fs.child_name p k = Some n ↔ k = p ++ [n].
Proof.
  unfold Fs.child_name. destruct (Fs.strip p k) as [r|] eqn:E.
  - apply strip_spec in E as ->. destruct r as [|x [|y r]].
    + split; [done|]. by intros [=]%app_inv_head.
    + split; [by intros [= ->]|]. by intros [= ->]%app_inv_head.
    + split; [done|]. by intros [=]%app_inv_head.
  - split; [done|]. intros ->. by rewrite strip_app in E.
Qed.

Lemma children_spec t p (n : string) :
  n ∈ Fs.children t p ↔ is_Some (t !! (p ++ [n])).
Proof.
  unfold Fs.children. rewrite list_elem_of_omap. split.
  - intros (k & Hk & ->%child_name_spec).
    apply list_elem_of_fmap in Hk as ([k' v] & -> & Hkv).
    apply elem_of_map_to_list in Hkv. simpl. by rewrite Hkv.
  - intros [v Hv]. exists (p ++ [n]). split; [|by apply child_name_spec].
    apply list_elem_of_fmap. exists (p ++ [n], v). split; [done|].
    by apply elem_of_map_to_list.
Qed.

(** *** rm *)

Lemma rm_rf_lookup p t k :
  Fs.rm_rf p t !! k = if decide (p `prefix_of` k) then None else t !! k.
Proof.
  unfold Fs.rm_rf. destruct (decide (p `prefix_of` k)) as [Hp|Hp].
  - apply map_lookup_filter_None. right. intros v _. simpl. by intros [].
  - destruct (t !! k) as [v|] eqn:Hk.
    + by apply map_lookup_filter_Some.
    + apply map_lookup_filter_None. by left.
Qed.

Lemma rm_rf_lookup_node p t k :
  p ≠ [] →
  Fs.lookup_node (Fs.rm_rf p t) k
  = if decide (p `prefix_of` k) then None else Fs.lookup_node t k.
Proof.
  intros Hp. destruct k as [|x k]; simpl.
  - rewrite decide_False; [done|]. by intros ->%prefix_nil_inv.
  - apply rm_rf_lookup.
Qed.

Lemma rm_rf_wf p t : Fs.wf t → Fs.wf (Fs.rm_rf p t).
Proof.
  intros Hwf k Hk. rewrite rm_rf_lookup in Hk.
  destruct (decide (p `prefix_of` k)) as [|Hpk]; [by destruct Hk|].
  destruct (Hwf _ Hk) as [Hs Hpar]. split; [done|].
  destruct (Fs.parent k) as [|x q] eqn:E; [done|]. simpl.
  rewrite rm_rf_lookup, decide_False; [done|].
  intros Hpq. apply Hpk. etrans; [exact Hpq|]. rewrite <- E. apply parent_prefix.
Qed.

(** *** writeFile and mkdtemp *)

Lemma write_file_ok p d t t' :
  Fs.write_file p d t = (Ok (), t') →
  t' = <[p := File d]> t ∧ p ≠ []
  ∧ Fs.lookup_node t (Fs.parent p) = Some Dir ∧ t !! p ≠ Some Dir.
Proof.
  unfold Fs.write_file. destruct p as [|x p]; [done|].
  destruct (Fs.lookup_node t _) as [[]|]; [done| |done].
  destruct (t !! (x :: p)) as [[]|] eqn:E; [|done|]; by intros [= <-].
Qed.

Lemma write_file_thrown p d t e t' :
  Fs.write_file p d t = (Thrown e, t') → t' = t.
Proof.
  unfold Fs.write_file. destruct p as [|x p]; [by intros [= <-]|].
  destruct (Fs.lookup_node t _) as [[]|]; [by intros [= <-]| |by intros [= <-]].
  destruct (t !! (x :: p)) as [[]|]; by intros [= <-].
Qed.

Lemma insert_file_wf p d t :
  Fs.wf t → Forall (λ s, Path.is_simple s = true) p →
  Fs.lookup_node t (Fs.parent p) = Some Dir → t !! p ≠ Some Dir → p ≠ [] →
  Fs.wf (<[p := File d]> t).
Proof.
  intros Hwf Hp Hpar Hnd Hne k Hk.
  assert (∀ q, Fs.lookup_node t q = Some Dir →
               Fs.lookup_node (<[p := File d]> t) q = Some Dir) as Hkeep.
  { intros q Hq. destruct q as [|y q]; [done|]. simpl in *.
    rewrite lookup_insert_ne; [done|]. intros E. by subst p. }
  destruct (decide (p = k)) as [<-|Hpk].
  - split; [done|]. by apply Hkeep.
  - rewrite lookup_insert_ne in Hk by done.
    destruct (Hwf _ Hk) as [Hs Hpk']. split; [done|]. by apply Hkeep.
Qed.

Lemma write_file_wf p d t o t' :
  Fs.wf t → Forall (λ s, Path.is_simple s = true) p →
  Fs.write_file p d t = (o, t') → Fs.wf t'.
Proof.
  intros Hwf Hp Hw. destruct o as [[]|e]; [|by rewrite (write_file_thrown _ _ _ _ _ Hw)].
  apply write_file_ok in Hw as (-> & ? & ? & ?). by apply insert_file_wf.
Qed.

Lemma mkdtemp_ok p t t' :
  Fs.mkdtemp p t = (Ok (), t') →
  t' = <[p := Dir]> t ∧ Fs.lookup_node t p = None
  ∧ Fs.lookup_node t (Fs.parent p) = Some Dir.
Proof.
  unfold Fs.mkdtemp. destruct (Fs.lookup_node t p); [done|].
  destruct (Fs.lookup_node t _) as [[]|]; [done| |done]. by intros [= <-].
Qed.

Lemma mkdtemp_thrown p t e t' : Fs.mkdtemp p t = (Thrown e, t') → t' = t.
Proof.
  unfold Fs.mkdtemp. destruct (Fs.lookup_node t p); [by intros [= <-]|].
  destruct (Fs.lookup_node t _) as [[]|]; by intros [= <-].
Qed.

Lemma insert_dir_wf p t :
  Fs.wf t → Forall (λ s, Path.is_simple s = true) p →
  Fs.lookup_node t (Fs.parent p) = Some Dir → Fs.lookup_node t p = None →
  Fs.wf (<[p := Dir]> t).
Proof.
  intros Hwf Hp Hpar Hnone k Hk.
  assert (∀ q, Fs.lookup_node t q = Some Dir →
               Fs.lookup_node (<[p := Dir]> t) q = Some Dir) as Hkeep.
  { intros q Hq. destruct q as [|y q]; [done|]. simpl in *.
    destruct (decide (p = y :: q)) as [->|]; [by rewrite lookup_insert_eq|].
    by rewrite lookup_insert_ne. }
  destruct (decide (p = k)) as [<-|Hpk].
  - split; [done|]. by apply Hkeep.
  - rewrite lookup_insert_ne in Hk by done.
    destruct (Hwf _ Hk) as [Hs Hpk']. split; [done|]. by apply Hkeep.
Qed.

Lemma mkdtemp_wf p t o t' :
  Fs.wf t → Forall (λ s, Path.is_simple s = true) p →
  Fs.mkdtemp p t = (o, t') → Fs.wf t'.
Proof.
  intros Hwf Hp Hw. destruct o as [[]|e]; [|by rewrite (mkdtemp_thrown _ _ _ _ Hw)].
  apply mkdtemp_ok in Hw as (-> & ? & ?). by apply insert_dir_wf.
Qed.
End FsFacts2.

Section FsFacts3.
Implicit Types (t : gmap (list string) node) (p q k r : list string).

(** *** Entries of an archive *)

Lemma forallb_Forall {A} (f : A → bool) (l : list A) :
  forallb f l = true → Forall (λ x, f x = true) l.
Proof.
  rewrite forallb_forall, Forall_forall. intros Hf x Hx.
  by apply Hf, list_elem_of_In.
Qed.

Lemma put_entry_wf p n t o t' :
  Fs.wf t → Forall (λ s, Path.is_simple s = true) p →
  Fs.put_entry p n t = (o, t') → Fs.wf t'.
Proof.
  intros Hwf Hp. unfold Fs.put_entry.
  destruct (Fs.mkdir_p (Fs.parent p) t) as [[[]|e] t1] eqn:E1.
  - assert (Fs.wf t1) as Hwf1.
    { eapply mkdir_p_wf; [exact Hwf| |exact E1]. by apply Forall_take. }
    destruct n as [d|]; intros Hw.
    + by eapply write_file_wf.
    + by eapply mkdir_p_wf.
  - intros [= <- <-]. by rewrite (mkdir_p_thrown _ _ _ _ E1).
Qed.

Lemma mkdir_p_frame cwd p t t' k :
  Fs.wf t → Fs.lookup_node t cwd = Some Dir → cwd `prefix_of` p →
  Fs.mkdir_p p t = (Ok (), t') → ¬ cwd `prefix_of` k → t' !! k = t !! k.
Proof.
  intros Hwf Hcwd Hpre [_ Hl]%mkdir_p_ok Hk. rewrite Hl.
  destruct (decide _) as [[Hne Hkp]%prefixes_spec|]; [|done].
  destruct (prefix_weak_total _ _ _ Hkp Hpre) as [Hkc|]; [|done].
  symmetry. rewrite <- lookup_node_ne by done.
  destruct (decide (cwd = k)) as [<-|Hck]; [done|].
  destruct cwd as [|x c]; [by apply prefix_nil_inv in Hkc|].
  apply (wf_below t k (x :: c)); [done..|]. simpl in Hcwd. by rewrite Hcwd.
Qed.

Lemma put_entry_frame cwd rel n t o t' :
  Fs.wf t → Fs.lookup_node t cwd = Some Dir → rel ≠ [] →
  Forall (λ s, Path.is_simple s = true) (cwd ++ rel) →
  Fs.put_entry (cwd ++ rel) n t = (o, t') →
  Fs.lookup_node t' cwd = Some Dir
  ∧ ∀ k, ¬ cwd `prefix_of` k → t' !! k = t !! k.
Proof.
  intros Hwf Hcwd Hrel Hs. unfold Fs.put_entry.
  assert (cwd `prefix_of` Fs.parent (cwd ++ rel)) as Hpar.
  { destruct (snoc_parent rel Hrel) as [x Hx]. rewrite Hx at 1.
    rewrite app_assoc, parent_snoc. by apply prefix_app_r. }
  destruct (Fs.mkdir_p (Fs.parent (cwd ++ rel)) t) as [[[]|e] t1] eqn:E1;
    [|intros [= <- <-]; by rewrite (mkdir_p_thrown _ _ _ _ E1)].
  assert (Fs.wf t1) as Hwf1.
  { eapply mkdir_p_wf; [exact Hwf| |exact E1]. by apply Forall_take. }
  assert (Fs.lookup_node t1 cwd = Some Dir) as Hcwd1.
  { rewrite (mkdir_p_lookup_node _ _ _ _ E1). by destruct (decide _). }
  assert (∀ k, ¬ cwd `prefix_of` k → t1 !! k = t !! k) as Hf1.
  { intros k Hk. by eapply mkdir_p_frame. }
  destruct n as [d|]; intros Hw.
  - destruct o as [[]|e].
    + apply write_file_ok in Hw as (-> & Hne & _ & Hnd). split.
      * destruct cwd as [|x c]; [done|]. simpl.
        rewrite lookup_insert_ne; [done|]. intros E. simpl in Hcwd1.
        rewrite <- E in Hcwd1. done.
      * intros k Hk. rewrite lookup_insert_ne; [by apply Hf1|].
        intros <-. apply Hk. by exists rel.
    + apply write_file_thrown in Hw as ->. done.
  - destruct o as [[]|e].
    + split.
      * rewrite (mkdir_p_lookup_node _ _ _ _ Hw). by destruct (decide _).
      * intros k Hk. rewrite <- Hf1 by done.
        eapply (mkdir_p_frame cwd); [exact Hwf1|exact Hcwd1| |exact Hw|exact Hk].
        by exists rel.
    + apply mkdir_p_thrown in Hw as ->. done.
Qed.

Lemma put_entries_wf cwd es t o t' :
  Fs.wf t → Forall (λ s, Path.is_simple s = true) cwd →
  Fs.put_entries cwd es t = (o, t') → Fs.wf t'.
Proof.
  intros Hwf Hc. revert t Hwf. induction es as [|[rel n] es IH]; intros t Hwf; simpl.
  - by intros [= <- <-].
  - destruct (bool_decide (rel ≠ []) && forallb Path.is_simple rel) eqn:Hok;
      [|by apply IH].
    apply andb_true_iff in Hok as [_ Hrel].
    destruct (Fs.put_entry (cwd ++ rel) n t) as [[[]|e] t1] eqn:E1.
    + apply IH. eapply put_entry_wf; [exact Hwf| |exact E1].
      apply Forall_app. split; [done|]. by apply forallb_Forall.
    + intros [= <- <-]. eapply put_entry_wf; [exact Hwf| |exact E1].
      apply Forall_app. split; [done|]. by apply forallb_Forall.
Qed.

Lemma put_entries_frame cwd es t o t' :
  Fs.wf t → Forall (λ s, Path.is_simple s = true) cwd →
  Fs.lookup_node t cwd = Some Dir →
  Fs.put_entries cwd es t = (o, t') →
  Fs.lookup_node t' cwd = Some Dir
  ∧ ∀ k, ¬ cwd `prefix_of` k → t' !! k = t !! k.
Proof.
  intros Hwf Hc. revert t Hwf. induction es as [|[rel n] es IH]; intros t Hwf Hcwd; simpl.
  - by intros [= <- <-].
  - destruct (bool_decide (rel ≠ []) && forallb Path.is_simple rel) eqn:Hok;
      [|by apply IH].
    apply andb_true_iff in Hok as [Hne%bool_decide_eq_true Hrel].
    assert (Forall (λ s, Path.is_simple s = true) (cwd ++ rel)) as Hs.
    { apply Forall_app. split; [done|]. by apply forallb_Forall. }
    destruct (Fs.put_entry (cwd ++ rel) n t) as [[[]|e] t1] eqn:E1.
    + pose proof (put_entry_frame _ _ _ _ _ _ Hwf Hcwd Hne Hs E1) as [Hc1 Hf1].
      intros Hrest. apply IH in Hrest as [Hc' Hf']; [|by eapply put_entry_wf|done].
      split; [done|]. intros k Hk. by rewrite Hf', Hf1.
    + intros [= <- <-]. by eapply put_entry_frame.
Qed.

(** *** cp *)

Lemma image_lookup_Some src dst t k v :
  Fs.image src dst t !! k = Some v ↔
  ∃ rel, k = dst ++ rel ∧ t !! (src ++ rel) = Some v.
Proof.
  unfold Fs.image.
  set (l := omap _ _).
  assert (∀ x, (k, x) ∈ l ↔ ∃ rel, k = dst ++ rel ∧ t !! (src ++ rel) = Some x) as Hl.
  { intros x. unfold l. rewrite list_elem_of_omap. split.
    - intros ([k0 v0] & Hin & Hf). apply elem_of_map_to_list in Hin.
      simpl in Hf. destruct (Fs.strip src k0) as [rel|] eqn:E; [|done].
      apply strip_spec in E as ->. injection Hf as <- <-.
      by exists rel.
    - intros (rel & -> & Hv). exists (src ++ rel, x). split.
      + by apply elem_of_map_to_list.
      + simpl. by rewrite strip_app. }
  rewrite <- Hl. symmetry. apply elem_of_list_to_map'.
  intros x' (rel & -> & Hv)%Hl (rel' & Heq & Hv')%Hl.
  apply app_inv_head in Heq as <-. congruence.
Qed.

Lemma image_lookup src dst t k :
  Fs.image src dst t !! k = Fs.strip dst k ≫= λ rel, t !! (src ++ rel).
Proof.
  apply option_eq. intros v. rewrite image_lookup_Some. split.
  - intros (rel & -> & Hv). by rewrite strip_app.
  - destruct (Fs.strip dst k) as [rel|] eqn:E; [|done]. simpl.
    apply strip_spec in E as ->. eauto.
Qed.

Lemma cp_r_ok src dst t t' :
  Fs.cp_r src dst t = (Ok (), t') →
  ∃ t1, Fs.mkdir_p (Fs.parent dst) t = (Ok (), t1)
        ∧ t' = Fs.image src dst t ∪ t1
        ∧ is_Some (Fs.lookup_node t src)
        ∧ ¬ src `prefix_of` dst
        ∧ ∀ k n n', Fs.image src dst t !! k = Some n →
                    Fs.lookup_node t1 k = Some n' → same_kind n' n = true.
Proof.
  unfold Fs.cp_r. destruct (Fs.lookup_node t src) as [ns|] eqn:Hsrc; [|done].
  case_decide as Hpre; [done|].
  destruct (Fs.mkdir_p _ t) as [[[]|e] t1] eqn:E1; [|done].
  destruct (existsb _ _) eqn:Hc; [done|]. intros [= <-].
  exists t1. repeat split; [done..|].
  intros k n n' Hk Hn'.
  destruct (same_kind n' n) eqn:Hsk; [done|].
  assert (existsb (Fs.conflict t1) (map_to_list (Fs.image src dst t)) = true);
    [|congruence].
  apply existsb_exists. exists (k, n). split.
  - by apply list_elem_of_In, elem_of_map_to_list.
  - unfold Fs.conflict. simpl. by rewrite Hn', Hsk.
Qed.

Lemma cp_r_wf src dst t o t' :
  Fs.wf t → Forall (λ s, Path.is_simple s = true) dst →
  Fs.cp_r src dst t = (o, t') → Fs.wf t'.
Proof.
  intros Hwf Hdst Hcp.
  assert (∀ o1 t1, Fs.mkdir_p (Fs.parent dst) t = (o1, t1) → Fs.wf t1) as Hwf1.
  { intros o1 t1. apply mkdir_p_wf; [done|]. by apply Forall_take. }
  destruct o as [[]|e].
  - apply cp_r_ok in Hcp as (t1 & E1 & -> & [ns Hsrc] & Hpre & Hnc).
    specialize (Hwf1 _ _ E1).
    assert (src ≠ []) as Hsne.
    { intros ->. apply Hpre, prefix_nil. }
    intros k Hk.
    assert (∀ q, Fs.lookup_node t1 q = Some Dir →
              Fs.lookup_node (Fs.image src dst t ∪ t1) q = Some Dir) as Hkeep.
    { intros q Hq. destruct q as [|y q]; [done|]. simpl.
      destruct (Fs.image src dst t !! (y :: q)) as [n|] eqn:Hi.
      - rewrite (lookup_union_l' _ _ _ (mk_is_Some _ _ Hi)), Hi.
        specialize (Hnc _ _ _ Hi Hq). by destruct n.
      - by rewrite lookup_union_r. }
    destruct (Fs.image src dst t !! k) as [n|] eqn:Hi.
    + apply image_lookup_Some in Hi as (rel & -> & Hv).
      pose proof (wf_simple _ _ Hwf (mk_is_Some _ _ Hv)) as [_ Hrel]%Forall_app.
      split; [by apply Forall_app|].
      destruct rel as [|x rel _] using rev_ind.
      * rewrite app_nil_r. apply Hkeep. by apply mkdir_p_made in E1.
      * rewrite app_assoc, parent_snoc.
        destruct (Hwf _ (mk_is_Some _ _ Hv)) as [_ Hpar].
        rewrite app_assoc, parent_snoc, lookup_node_ne in Hpar by by destruct src.
        destruct (dst ++ rel) as [|y q] eqn:Edr; [done|]. simpl.
        assert (Fs.image src dst t !! (y :: q) = Some Dir) as Hi.
        { rewrite <- Edr, image_lookup, strip_app. simpl. exact Hpar. }
        by rewrite (lookup_union_l' _ _ _ (mk_is_Some _ _ Hi)).
    + rewrite lookup_union_r in Hk by done.
      destruct (Hwf1 _ Hk) as [Hs Hpar]. split; [done|]. by apply Hkeep.
  - revert Hcp. unfold Fs.cp_r. destruct (Fs.lookup_node t src); [|by intros [= _ <-]].
    case_decide; [by intros [= _ <-]|].
    destruct (Fs.mkdir_p _ t) as [[[]|e'] t1] eqn:E1.
    + destruct (existsb _ _); [|done]. intros [= _ <-]. by eapply Hwf1.
    + intros [= _ <-]. by eapply Hwf1.
Qed.

(** A copy into an existing directory: what is at and below [src]
    appears at and below [dst], over what was there. *)
Lemma cp_r_lookup src dst t t' k :
  Fs.wf t → Fs.lookup_node t (Fs.parent dst) = Some Dir →
  Fs.cp_r src dst t = (Ok (), t') →
  t' !! k = match Fs.strip dst k ≫= λ rel, t !! (src ++ rel) with
            | Some n => Some n
            | None => t !! k
            end.
Proof.
  intros Hwf Hpar (t1 & E1 & -> & _)%cp_r_ok.
  rewrite (mkdir_p_id _ _ Hwf Hpar) in E1. injection E1 as <-.
  rewrite lookup_union, image_lookup.
  by destruct (Fs.strip dst k ≫= _), (t !! k).
Qed.
End FsFacts3.

(** ** Running the monad *)

Lemma bind_ok {A B} (m : M A) (k : A → M B) (w : world) a w' :
  m w = (Ok a, w') → bind m k w = k a w'.
Proof. unfold bind. by intros ->. Qed.

Lemma bind_thrown {A B} (m : M A) (k : A → M B) w e w' :
  m w = (Thrown e, w') → bind m k w = (Thrown e, w').
Proof. unfold bind. by intros ->. Qed.

Lemma try_catch_ok {A} (m : M A) h w a w' :
  m w = (Ok a, w') → try_catch m h w = (Ok a, w').
Proof. unfold try_catch. by intros ->. Qed.

Lemma try_catch_thrown {A} (m : M A) h w e w' :
  m w = (Thrown e, w') → try_catch m h w = h e w'.
Proof. unfold try_catch. by intros ->. Qed.

Lemma io_frame {A} (ev : event) (run : gmap (list string) node → outcome A * gmap (list string) node) (w : world) r w' :
  io ev run w = (r, w') →
  trace w' = trace w ++ [ev] ∧ faults w' = tail (faults w)
  ∧ now w' = now w ∧ mkdtemp_suffix w' = mkdtemp_suffix w.
Proof.
  unfold io. destruct (head (faults w)) as [[e|]|];
    [|destruct (run (fs w))..]; by intros [= <- <-].
Qed.

Lemma io_ok {A} (ev : event) (run : gmap (list string) node → outcome A * gmap (list string) node) (w : world) a w' :
  io ev run w = (Ok a, w') → run (fs w) = (Ok a, fs w').
Proof.
  unfold io. destruct (head (faults w)) as [[e|]|]; [done|..];
    destruct (run (fs w)) as [r t]; by intros [= <- <-].
Qed.

Lemma io_tree {A} (ev : event) (run : gmap (list string) node → outcome A * gmap (list string) node) (w : world) r w' :
  io ev run w = (r, w') → fs w' = fs w ∨ ∃ r', run (fs w) = (r', fs w').
Proof.
  unfold io. destruct (head (faults w)) as [[e|]|];
    [intros [= <- <-]; by left|..];
    destruct (run (fs w)) as [r' t] eqn:E; intros [= <- <-]; right; eauto.
Qed.

Lemma io_read_tree {A} (ev : event) (f : gmap (list string) node → outcome A) (w : world) r w' :
  io ev (pure_read f) w = (r, w') → fs w' = fs w.
Proof.
  intros [?|[r' Hr]]%io_tree; [done|]. by injection Hr.
Qed.

Ltac step H :=
  lazymatch type of H with
  | bind ?m ?k ?w = _ =>
      let r := fresh "r" in let w' := fresh "w" in let E := fresh "E" in
      destruct (m w) as [[r|?] w'] eqn:E;
      [rewrite (bind_ok _ _ _ _ _ E) in H
      |rewrite (bind_thrown _ _ _ _ _ E) in H; try discriminate H]
  | try_catch ?m ?k ?w = _ =>
      let r := fresh "r" in let w' := fresh "w" in let E := fresh "E" in
      destruct (m w) as [[r|?] w'] eqn:E;
      [rewrite (try_catch_ok _ _ _ _ _ E) in H
      |rewrite (try_catch_thrown _ _ _ _ _ E) in H; try discriminate H]
  end.

Section HandlerFacts.
Context `{Platform}.

Lemma getArchivesDir_frame cfg w r w' :
  getArchivesDir cfg w = (r, w') →
  now w' = now w ∧ mkdtemp_suffix w' = mkdtemp_suffix w.
Proof.
  unfold getArchivesDir. destruct (truthy_string _); [|by intros [= <- <-]].
  unfold bind. destruct (fs_mkdir _ w) as [o w1] eqn:Emk.
  apply io_frame in Emk as (_ & _ & <- & <-).
  destruct o; by intros [= <- <-].
Qed.

Lemma readArchiveMetadata_frame dir w r w' :
  readArchiveMetadata dir w = (r, w') →
  fs w' = fs w
  ∧ trace w' = trace w ++ [EvReadFile (Path.join dir ARCHIVE_METADATA_FILE)].
Proof.
  unfold readArchiveMetadata, try_catch, bind.
  destruct (fs_readFile _ w) as [[data|e] w1] eqn:E.
  - pose proof (io_read_tree _ _ _ _ _ E) as Hfs.
    apply io_frame in E as (Htr & _).
    unfold parse. destruct (JSON_parse data) as [v|]; simpl.
    + destruct (metadata_of_json v); simpl; [by intros [= <- <-]|].
      by intros [= <- <-].
    + by intros [= <- <-].
  - pose proof (io_read_tree _ _ _ _ _ E) as Hfs.
    apply io_frame in E as (Htr & _).
    destruct (decide _); by intros [= <- <-].
Qed.

Lemma getArchivesDir_truthy cfg w dir w1 :
  getArchivesDir cfg w = (Ok (Some dir), w1) →
  truthy_string (Some dir) = Some dir.
Proof.
  unfold getArchivesDir. destruct (truthy_string _) as [tmp|]; [|by inversion 1].
  unfold bind. destruct (fs_mkdir _ w) as [[[]|e] w']; [|by inversion 1].
  unfold ret. intros [= <- <-]. simpl. by rewrite join_truthy.
Qed.

(** C8: when the store holds no record whose filename starts with the
    project's prefix, list mode answers with an [info] message whose
    content is exactly "No saved archives found for the current
    project.", and the completion provider returns the empty list. *)
Theorem no_archives_for_project ctx cfg args partialArg w dir w1 archives w2 :
  config ctx = Some cfg →
  selectedFile args = EmptyString →
  getArchivesDir cfg w = (Ok (Some dir), w1) →
  readArchiveMetadata dir w1 = (Ok archives, w2) →
  filterArchives cfg archives = [] →
  loadAction ctx args w
    = (Ok (message info "No saved archives found for the current project."), w2)
  ∧ completion ctx partialArg w = (Ok [], w2).
Proof.
  intros Hcfg Hsel Hdir Hread Hnone.
  pose proof (getArchivesDir_truthy _ _ _ _ Hdir) as Htr.
  unfold loadAction, completion. rewrite Hcfg.
  rewrite !(bind_ok _ _ _ _ _ Hdir), Htr, Hsel. simpl. split.
  - unfold listArchives. erewrite try_catch_ok; [done|].
    rewrite (bind_ok _ _ _ _ _ Hread), Hnone. done.
  - erewrite try_catch_ok; [done|].
    rewrite (bind_ok _ _ _ _ _ Hread), Hnone. done.
Qed.

Lemma filterArchives_prefix cfg archives a :
  a ∈ filterArchives cfg archives ↔
  a ∈ archives
  ∧ Js.startsWith (filename a) (projectName cfg +:+ "-archive-") = true.
Proof. unfold filterArchives. rewrite list_elem_of_filter. tauto. Qed.

(** C7, amended: list mode renders a permutation of the project's
    records in which no record is older than one after it, so newest
    first with records of one timestamp side by side; when the
    timestamps of the project's records are pairwise distinct the order
    is strictly descending and is the same for every order of the
    store; a record whose filename does not start with
    [<projectName>-archive-] is never among the rendered ones. *)
Theorem list_mode_newest_first ctx cfg args w dir w1 archives w2 :
  config ctx = Some cfg →
  selectedFile args = EmptyString →
  getArchivesDir cfg w = (Ok (Some dir), w1) →
  readArchiveMetadata dir w1 = (Ok archives, w2) →
  filterArchives cfg archives ≠ [] →
  ∃ shown,
    loadAction ctx args w = (Ok (message info (renderArchives shown)), w2)
    ∧ shown ≡ₚ filterArchives cfg archives
    ∧ StronglySorted newer_or_same shown
    ∧ (NoDup (map timestamp (filterArchives cfg archives)) →
       StronglySorted newer shown
       ∧ ∀ archives', archives' ≡ₚ archives →
           Array_sort newest_first (filterArchives cfg archives') = shown)
    ∧ (∀ a, a ∈ archives →
         Js.startsWith (filename a) (projectName cfg +:+ "-archive-") = false →
         a ∉ shown).
Proof.
  intros Hcfg Hsel Hdir Hread Hsome.
  pose proof (getArchivesDir_truthy _ _ _ _ Hdir) as Htr.
  exists (Array_sort newest_first (filterArchives cfg archives)).
  split; [|split; [|split; [|split]]].
  - unfold loadAction. rewrite Hcfg, (bind_ok _ _ _ _ _ Hdir), Htr, Hsel. simpl.
    unfold listArchives. erewrite try_catch_ok; [done|].
    rewrite (bind_ok _ _ _ _ _ Hread).
    destruct (decide _) as [Hlen|]; [|done].
    by apply nil_length_inv in Hlen.
  - apply Array_sort_perm.
  - apply Array_sort_sorted.
  - intros Hnd.
    assert (∀ l, l ≡ₚ filterArchives cfg archives →
              StronglySorted newer (Array_sort newest_first l)) as Hstrict.
    { intros l Hl. apply sorted_strict; [|apply Array_sort_sorted].
      by rewrite Array_sort_perm, Hl. }
    split; [by apply Hstrict|].
    intros archives' Hperm.
    apply (StronglySorted_unique_strong newer).
    + unfold newer. intros; lia.
    + apply Hstrict. unfold filterArchives. by rewrite Hperm.
    + by apply Hstrict.
    + rewrite !Array_sort_perm. unfold filterArchives. by rewrite Hperm.
  - intros a _ Hpre. rewrite Array_sort_perm, filterArchives_prefix.
    intros [_ Hyes]. congruence.
Qed.

(** *** Strings of digits *)


End HandlerFacts.

(** ** Properties kept along a run *)

Section Along.
Context (P : world → world → Prop) `{!Reflexive P, !Transitive P}.

Lemma along_ret {A} (a : A) : along P (ret a).
Proof. intros w r w' [= <- <-]. reflexivity. Qed.

Lemma along_throw {A} e : along P (@throw A e).
Proof. intros w r w' [= <- <-]. reflexivity. Qed.

Lemma along_bind {A B} (m : M A) (k : A → M B) :
  along P m → (∀ a, along P (k a)) → along P (bind m k).
Proof.
  intros Hm Hk w r w'. unfold bind.
  destruct (m w) as [[a|e] w1] eqn:E.
  - intros Hr. etrans; [by eapply Hm|by eapply Hk].
  - intros [= <- <-]. by eapply Hm.
Qed.

Lemma along_try_catch {A} (m : M A) h :
  along P m → (∀ e, along P (h e)) → along P (try_catch m h).
Proof.
  intros Hm Hh w r w'. unfold try_catch.
  destruct (m w) as [[a|e] w1] eqn:E.
  - intros [= <- <-]. by eapply Hm.
  - intros Hr. etrans; [by eapply Hm|by eapply Hh].
Qed.

Lemma along_try_finally {A} (m : M A) c :
  along P m → along P c → along P (try_finally m c).
Proof.
  intros Hm Hc w r w'. unfold try_finally.
  destruct (m w) as [rb wb] eqn:E. destruct (c wb) as [[[]|e] wc] eqn:Ec;
    intros [= <- <-]; (etrans; [by eapply Hm|by eapply Hc]).
Qed.

Lemma along_for_of {A} (l : list A) body :
  (∀ x, along P (body x)) → along P (for_of l body).
Proof.
  intros Hb. induction l as [|x l IH]; simpl.
  - apply along_ret.
  - apply along_bind; [apply Hb|]. intros _. apply IH.
Qed.

Lemma along_lift {A} (o : outcome A) : along P (lift_outcome o).
Proof. destruct o; [apply along_ret|apply along_throw]. Qed.
End Along.

(** The three relations are preorders. *)
Global Instance extends_refl : Reflexive extends.
Proof. intros w. exists []. by rewrite app_nil_r. Qed.

Global Instance extends_trans : Transitive extends.
Proof. intros w1 w2 w3 [r1 H1] [r2 H2]. exists (r1 ++ r2). by rewrite H2, H1, app_assoc. Qed.

Global Instance keeps_wf_refl : Reflexive keeps_wf.
Proof. intros w Hwf. exact Hwf. Qed.

Global Instance keeps_wf_trans : Transitive keeps_wf.
Proof. intros w1 w2 w3 H1 H2 ?. by apply H2, H1. Qed.

Global Instance same_tree_refl : Reflexive same_tree.
Proof. intros w. reflexivity. Qed.

Global Instance same_tree_trans : Transitive same_tree.
Proof. intros w1 w2 w3 H1 H2. unfold same_tree in *. congruence. Qed.

Lemma io_extends {A} (ev : event) (run : gmap (list string) node → outcome A * gmap (list string) node) :
  along extends (io ev run).
Proof. intros w r w' (Htr & _)%io_frame. by exists [ev]. Qed.

Lemma io_keeps_wf {A} (ev : event) (run : gmap (list string) node → outcome A * gmap (list string) node) :
  (∀ t o t', Fs.wf t → run t = (o, t') → Fs.wf t') →
  along keeps_wf (io ev run).
Proof.
  intros Hrun w r w' Hio Hwf.
  apply io_tree in Hio as [->|[r' Hr]]; [done|]. by eapply Hrun.
Qed.

Lemma io_same_tree {A} (ev : event) (f : gmap (list string) node → outcome A) :
  along same_tree (io ev (pure_read f)).
Proof. intros w r w'. apply io_read_tree. Qed.

Lemma io_sink_same_tree (ev : event) :
  along same_tree (io ev (λ t, (Ok (), t))).
Proof.
  intros w r w' [?|[r' Hr]]%io_tree; [done|]. unfold same_tree. by injection Hr as _ <-.
Qed.

Create HintDb along.

(** Goals [along extends m], by the structure of [m]. *)
Ltac along_extends :=
  repeat (intros; first
    [ apply along_ret | apply along_throw | apply along_lift
    | apply along_bind | apply along_try_catch | apply along_try_finally
    | apply along_for_of | apply io_extends
    | lazymatch goal with
      | |- Reflexive _ => apply _
      | |- Transitive _ => apply _
      | |- along _ (match ?x with _ => _ end) => destruct x
      end
    | progress auto with along ]).

Section Primitives.
Context `{Platform}.

Lemma fs_mkdtemp_inv prefix w r w' :
  fs_mkdtemp prefix w = (r, w') →
  ∃ o, io (EvMkdtemp prefix)
          (Fs.mkdtemp (Path.resolve (prefix +:+ mkdtemp_suffix w))) w = (o, w')
       ∧ r = match o with
             | Ok _ => Ok (prefix +:+ mkdtemp_suffix w)
             | Thrown e => Thrown e
             end.
Proof.
  unfold fs_mkdtemp. destruct (io _ _ w) as [[[]|e] w1]; intros [= <- <-]; eauto.
Qed.

Lemma tar_extract_wf file cwd t o t' :
  Fs.wf t →
  match Fs.read_file (Path.resolve file) t with
  | Thrown e => (Thrown e, t)
  | Ok data =>
      match tar_unpack data with
      | None => (Thrown (SystemError "TAR_BAD_ARCHIVE" "extract"), t)
      | Some entries =>
          match Fs.lookup_node t (Path.resolve cwd) with
          | Some Dir => Fs.put_entries (Path.resolve cwd) entries t
          | Some (File _) => (Thrown (SystemError "ENOTDIR" "chdir"), t)
          | None =>
              (Thrown (SystemError (Fs.lookup_error t (Path.resolve cwd))
                                   "chdir"), t)
          end
      end
  end = (o, t') → Fs.wf t'.
Proof.
  intros Hwf. destruct (Fs.read_file _ t); [|by intros [= _ <-]].
  destruct (tar_unpack _); [|by intros [= _ <-]].
  destruct (Fs.lookup_node _ _) as [[]|]; [by intros [= _ <-]| |by intros [= _ <-]].
  apply put_entries_wf; [done|apply resolve_simple].
Qed.

Lemma fs_mkdir_keeps_wf p : along keeps_wf (fs_mkdir p).
Proof.
  apply io_keeps_wf. intros t o t' Hwf. apply mkdir_p_wf; [done|apply resolve_simple].
Qed.

Lemma fs_rm_keeps_wf p : along keeps_wf (fs_rm p).
Proof.
  apply io_keeps_wf. intros t o t' Hwf [= _ <-]. by apply rm_rf_wf.
Qed.

Lemma fs_cp_keeps_wf src dst : along keeps_wf (fs_cp src dst).
Proof.
  apply io_keeps_wf. intros t o t' Hwf. apply cp_r_wf; [done|apply resolve_simple].
Qed.

Lemma fs_readdir_same_tree p : along same_tree (fs_readdir p).
Proof. apply io_same_tree. Qed.

Lemma tar_extract_keeps_wf file cwd : along keeps_wf (tar_extract file cwd).
Proof. apply io_keeps_wf. intros t o t' Hwf. by apply tar_extract_wf. Qed.

Lemma fs_mkdtemp_keeps_wf prefix : along keeps_wf (fs_mkdtemp prefix).
Proof.
  intros w r w' (o & Hio & _)%fs_mkdtemp_inv. revert Hio.
  apply io_keeps_wf. intros t o' t' Hwf. apply mkdtemp_wf; [done|apply resolve_simple].
Qed.

Lemma fs_mkdtemp_extends prefix : along extends (fs_mkdtemp prefix).
Proof.
  intros w r w' (o & Hio & _)%fs_mkdtemp_inv. revert Hio. apply io_extends.
Qed.

Lemma parse_extends data : along extends (parse data).
Proof.
  unfold parse. destruct (JSON_parse data); [apply along_ret|apply along_throw]; apply _.
Qed.

Lemma getArchivesDir_Some cfg w dir w1 :
  getArchivesDir cfg w = (Ok (Some dir), w1) →
  ∃ tmp, truthy_string (getProjectTempDir cfg) = Some tmp
         ∧ dir = Path.join tmp ARCHIVES_DIR_NAME
         ∧ fs_mkdir dir w = (Ok (), w1).
Proof.
  unfold getArchivesDir. destruct (truthy_string _) as [tmp|]; [|done].
  unfold bind. destruct (fs_mkdir _ w) as [[[]|e] w'] eqn:E; [|done].
  intros [= <- <-]. eauto.
Qed.

Lemma getArchivesDir_keeps_wf cfg : along keeps_wf (getArchivesDir cfg).
Proof.
  unfold getArchivesDir. destruct (truthy_string _); [|apply along_ret; apply _].
  apply along_bind; [apply _|apply fs_mkdir_keeps_wf|]. intros _. apply along_ret; apply _.
Qed.
End Primitives.

Global Hint Resolve fs_mkdtemp_extends parse_extends : along.

Lemma includes_intro pre sub post : Js.includes (pre +:+ sub +:+ post) sub.
Proof. by exists pre, post. Qed.

Lemma sink_calls_app tr1 tr2 : sink_calls (tr1 ++ tr2) = sink_calls tr1 ++ sink_calls tr2.
Proof. unfold sink_calls. apply filter_app. Qed.

Section Claims.
Context `{Platform}.

Lemma truthy_selected f : Js.truthy f = true → negb (Js.truthy f) = false.
Proof. by intros ->. Qed.

Lemma endsWith_truthy f suffix :
  Js.truthy suffix = true → Js.endsWith f suffix = true → Js.truthy f = true.
Proof.
  destruct f; [|done]. destruct suffix as [|c s]; [done|]. intros _.
  unfold Js.endsWith. change (String.rev EmptyString) with EmptyString.
  destruct (String.rev (String c s)) eqn:E; [|done].
  apply (f_equal String.length) in E. 
  assert (∀ a b, String.length (String.rev_app a b) = (String.length a + String.length b)%nat) as Hlen.
  { induction a as [|x a IH]; intros b; [done|]. simpl. rewrite IH. simpl. lia. }
  unfold String.rev in E. rewrite Hlen in E. simpl in E. lia.
Qed.

(** *** Without the force flag *)

(** C2, amended: a restore of a [.tar.gz] name without [--force], the
    project root being known, makes no call to the filesystem but the
    recursive [mkdir] of the archives directory in [getArchivesDir],
    which adds nothing but missing directories on the way to it and
    leaves the tree as it was when that directory is already there;
    with no project temporary directory not even that call is made,
    and the answer is the error of the missing [.gemini] directory.
    When [getArchivesDir] returns the directory, the answer is an
    [error] message that contains [/load <filename> --force]. *)
Theorem restore_without_force ctx cfg args w f root r w' :
  config ctx = Some cfg →
  selectedFile args = f →
  Js.endsWith f ".tar.gz" = true →
  forceConfirm args = false →
  truthy_string (getProjectRoot cfg) = Some root →
  loadAction ctx args w = (r, w') →
  (∀ dir w1, getArchivesDir cfg w = (Ok (Some dir), w1) →
     r = Ok (message error (forceMessage f root)) ∧ w' = w1)
  ∧ Js.includes (forceMessage f root) ("/load " +:+ f +:+ " --force")
  ∧ match truthy_string (getProjectTempDir cfg) with
    | Some tmp =>
        trace w' = trace w ++ [EvMkdir (Path.join tmp ARCHIVES_DIR_NAME)]
    | None =>
        trace w' = trace w
        ∧ r = Ok (message error
                    "Could not determine the .gemini directory path.")
    end
  ∧ (∀ k, fs w' !! k = fs w !! k
          ∨ (fs w !! k = None ∧ fs w' !! k = Some Dir
             ∧ ∃ tmp, truthy_string (getProjectTempDir cfg) = Some tmp
                      ∧ k `prefix_of`
                          Path.resolve (Path.join tmp ARCHIVES_DIR_NAME)))
  ∧ (Fs.wf (fs w) →
     (∀ tmp, truthy_string (getProjectTempDir cfg) = Some tmp →
             Fs.lookup_node (fs w)
               (Path.resolve (Path.join tmp ARCHIVES_DIR_NAME)) = Some Dir) →
     fs w' = fs w).
Proof.
  intros Hcfg Hsel Hends Hforce Hroot Hrun.
  pose proof (endsWith_truthy f ".tar.gz" eq_refl Hends) as Hf.
  assert (∀ dir w1, getArchivesDir cfg w = (Ok (Some dir), w1) →
            r = Ok (message error (forceMessage f root)) ∧ w' = w1)
    as Hanswer.
  { intros dir w1 Hdir.
    pose proof (getArchivesDir_truthy _ _ _ _ Hdir) as Htr.
    unfold loadAction in Hrun.
    rewrite Hcfg, (bind_ok _ _ _ _ _ Hdir), Htr, Hsel, Hf, Hforce in Hrun.
    simpl in Hrun. unfold loadSelected in Hrun.
    erewrite try_catch_ok in Hrun; [|by rewrite Hends, Hroot].
    by injection Hrun as <- <-. }
  split; [done|]. split.
  { unfold forceMessage.
    rewrite <- !sapp_assoc. rewrite !sapp_assoc.
    exists ("Loading '" +:+ f
            +:+ "' will overwrite the contents of your current project directory ("
            +:+ root
            +:+ "). This is a destructive operation. To proceed, please run the command again with the '--force' flag (e.g., "),
           ").".
    rewrite !sapp_assoc. reflexivity. }
  unfold loadAction in Hrun. rewrite Hcfg in Hrun.
  unfold getArchivesDir in Hrun, Hanswer.
  destruct (truthy_string (getProjectTempDir cfg)) as [tmp|].
  2:{ injection Hrun as <- <-. split; [done|]. split; [by left|done]. }
  destruct (fs_mkdir (Path.join tmp ARCHIVES_DIR_NAME) w) as [o w1] eqn:Hmk.
  assert (w' = w1) as ->.
  { destruct o as [[]|e].
    - apply (Hanswer (Path.join tmp ARCHIVES_DIR_NAME)).
      by rewrite (bind_ok _ _ _ _ _ Hmk).
    - rewrite (bind_thrown _ _ _ _ _ (bind_thrown _ _ _ _ _ Hmk)) in Hrun.
      by injection Hrun. }
  clear Hrun Hanswer.
  pose proof (io_frame _ _ _ _ _ Hmk) as (Htrace & _).
  split; [done|].
  assert (fs w1 = fs w
          ∨ Fs.mkdir_p (Path.resolve (Path.join tmp ARCHIVES_DIR_NAME)) (fs w)
            = (Ok (), fs w1)) as [Hsame|Hmade].
  { apply io_tree in Hmk as [?|[[[]|e] Hmk]]; [by left|by right|].
    left. by apply mkdir_p_thrown in Hmk. }
  { rewrite Hsame. split; [by left|done]. }
  split.
  - intros k. apply mkdir_p_ok in Hmade as [Hnf Hl].
    rewrite Hl. destruct (decide _) as [Hin|]; [|by left].
    specialize (Hnf _ Hin). apply prefixes_spec in Hin as [Hne Hpre].
    unfold Fs.is_file in Hnf. rewrite lookup_node_ne in Hnf by done.
    destruct (fs w !! k) as [[]|]; [done|by left|right; by eauto].
  - intros Hwf Hd. rewrite (mkdir_p_id _ _ Hwf (Hd _ eq_refl)) in Hmade.
    by injection Hmade.
Qed.

(** *** What escapes the handlers *)

Lemma try_catch_total {A} (m : M A) h w :
  (∀ e w1, ∃ a w', h e w1 = (Ok a, w')) →
  ∃ a w', try_catch m h w = (Ok a, w').
Proof.
  intros Hh. unfold try_catch. destruct (m w) as [[a|e] w1]; eauto.
Qed.

(** Past the resolution of the archives directory every failure ends
    in a message. *)
Lemma loadAction_catches ctx args w :
  (∃ m w', loadAction ctx args w = (Ok m, w'))
  ∨ (∃ cfg e w', config ctx = Some cfg
                 ∧ getArchivesDir cfg w = (Thrown e, w')
                 ∧ loadAction ctx args w = (Thrown e, w')).
Proof.
  unfold loadAction. destruct (config ctx) as [cfg|]; [|left; by eauto].
  destruct (getArchivesDir cfg w) as [[dir|e] w1] eqn:E.
  - left. rewrite (bind_ok _ _ _ _ _ E).
    destruct (truthy_string dir); [|by eauto].
    destruct (negb _); apply try_catch_total; intros; unfold ret; eauto.
  - right. exists cfg, e, w1. by rewrite (bind_thrown _ _ _ _ _ E).
Qed.

Lemma saveAction_catches ctx args w :
  (∃ m w', saveAction ctx args w = (Ok m, w'))
  ∨ (∃ cfg e w', config ctx = Some cfg
                 ∧ getArchivesDir cfg w = (Thrown e, w')
                 ∧ saveAction ctx args w = (Thrown e, w')).
Proof.
  unfold saveAction. destruct (config ctx) as [cfg|]; [|left; by eauto].
  destruct (getArchivesDir cfg w) as [[dir|e] w1] eqn:E.
  - left. rewrite (bind_ok _ _ _ _ _ E).
    destruct (truthy_string dir); [|by eauto].
    unfold bind at 1, Date_now.
    apply try_catch_total; intros; unfold ret; eauto.
  - right. exists cfg, e, w1. by rewrite (bind_thrown _ _ _ _ _ E).
Qed.

Lemma completion_catches ctx partialArg w :
  (∃ l w', completion ctx partialArg w = (Ok l, w'))
  ∨ (∃ cfg e w', config ctx = Some cfg
                 ∧ getArchivesDir cfg w = (Thrown e, w')
                 ∧ completion ctx partialArg w = (Thrown e, w')).
Proof.
  unfold completion. destruct (config ctx) as [cfg|]; [|left; by eauto].
  destruct (getArchivesDir cfg w) as [[dir|e] w1] eqn:E.
  - left. rewrite (bind_ok _ _ _ _ _ E).
    destruct (truthy_string dir); [|by eauto].
    apply try_catch_total; intros; unfold ret; eauto.
  - right. exists cfg, e, w1. by rewrite (bind_thrown _ _ _ _ _ E).
Qed.

(** Any failure of the metadata read or of the parsing gives the empty
    list. *)
Lemma completion_read_failure ctx cfg partialArg w dir w1 e w2 :
  config ctx = Some cfg →
  getArchivesDir cfg w = (Ok (Some dir), w1) →
  readArchiveMetadata dir w1 = (Thrown e, w2) →
  completion ctx partialArg w = (Ok [], w2).
Proof.
  intros Hcfg Hdir Hread.
  pose proof (getArchivesDir_truthy _ _ _ _ Hdir) as Htr.
  unfold completion. rewrite Hcfg, (bind_ok _ _ _ _ _ Hdir), Htr.
  erewrite try_catch_thrown; [done|]. by rewrite (bind_thrown _ _ _ _ _ Hread).
Qed.

(** *** The JSON fallback *)

Lemma getArchivesDir_trace cfg w dir w1 :
  getArchivesDir cfg w = (Ok (Some dir), w1) →
  trace w1 = trace w ++ [EvMkdir dir].
Proof.
  intros (tmp & _ & _ & Hmk)%getArchivesDir_Some.
  by apply io_frame in Hmk as (? & _).
Qed.

(** C9, amended: for a name not ending in [.tar.gz] whose file parses
    to an object with a truthy [history] field and no [clientHistory]
    field, the handler calls the UI history sink once, with that
    field's value, and never the chat client's sink; when the UI sink
    is not available it answers "loadHistory function is not
    available." and calls neither. *)
Theorem legacy_history_only ctx cfg args w dir w1 f data w2 fields v :
  config ctx = Some cfg →
  getArchivesDir cfg w = (Ok (Some dir), w1) →
  selectedFile args = f →
  Js.truthy f = true →
  Js.endsWith f ".tar.gz" = false →
  fs_readFile (Path.join dir f) w1 = (Ok data, w2) →
  JSON_parse data = Some (JObj fields) →
  lookup_field "history" fields = Some v →
  json_truthy v = true →
  lookup_field "clientHistory" fields = None →
  ∃ r w',
    loadAction ctx args w = (Ok r, w')
    ∧ if loadHistory ctx then
        sink_calls (trace w') = sink_calls (trace w) ++ [EvLoadHistory v]
        ∧ (r = message info ("Archive '" +:+ f +:+ "' loaded successfully.")
           ∨ ∃ e, head (faults w2) = Some (Some e)
                  ∧ r = message error
                          ("Error loading archive " +:+ f +:+ ": "
                           +:+ exn_toString e))
      else
        sink_calls (trace w') = sink_calls (trace w)
        ∧ r = message error "loadHistory function is not available.".
Proof.
  intros Hcfg Hdir Hsel Hf Hends Hread Hparse Hhist Htruthy Hclient.
  pose proof (getArchivesDir_truthy _ _ _ _ Hdir) as Htr.
  pose proof (getArchivesDir_trace _ _ _ _ Hdir) as Htr1.
  pose proof (io_frame _ _ _ _ _ Hread) as (Htr2 & _).
  assert (sink_calls (trace w2) = sink_calls (trace w)) as Hs2.
  { rewrite Htr2, Htr1, !sink_calls_app. simpl. by rewrite !app_nil_r. }
  unfold loadAction. rewrite Hcfg, (bind_ok _ _ _ _ _ Hdir), Htr, Hsel, Hf.
  simpl. unfold loadSelected, try_catch. rewrite Hends.
  unfold loadJson. rewrite (bind_ok _ _ _ _ _ Hread).
  unfold parse. rewrite Hparse. unfold bind at 1, ret at 1.
  simpl json_get. rewrite Hhist, Hclient. unfold bind at 1, lift_outcome at 1, ret at 1.
  rewrite Htruthy.
  destruct (loadHistory ctx); simpl.
  - unfold bind at 1.
    destruct (ui_loadHistory v w2) as [[[]|e] w3] eqn:Eui.
    + pose proof (io_frame _ _ _ _ _ Eui) as (Htr3 & _).
      eexists _, _. split; [reflexivity|]. split; [|by left].
      rewrite Htr3, sink_calls_app, Hs2. done.
    + pose proof (io_frame _ _ _ _ _ Eui) as (Htr3 & _).
      eexists _, _. split; [reflexivity|]. split.
      * rewrite Htr3, sink_calls_app, Hs2. done.
      * right. exists e. split; [|done].
        revert Eui. unfold ui_loadHistory, io.
        destruct (head (faults w2)) as [[e'|]|]; by intros [= <- <-].
  - eexists _, _. split; [reflexivity|]. by rewrite Hs2.
Qed.

(** *** The selected path *)

Lemma bind_first {A B} (m : M A) (k : A → M B) ev w r w' :
  (∀ o w1, m w = (o, w1) → trace w1 = trace w ++ [ev]) →
  (∀ a, along extends (k a)) →
  bind m k w = (r, w') →
  ∃ rest, trace w' = trace w ++ ev :: rest.
Proof.
  intros Hm Hk. unfold bind. destruct (m w) as [[a|e] w1] eqn:E.
  - specialize (Hm _ _ eq_refl).
    intros [rest Hr]%Hk. exists rest. by rewrite Hr, Hm, <- app_assoc.
  - specialize (Hm _ _ eq_refl). by intros [= <- <-]; exists [].
Qed.

Lemma loadJson_extends ctx cfg f filePath w r w' :
  loadJson ctx cfg f filePath w = (r, w') →
  ∃ rest, trace w' = trace w ++ EvReadFile filePath :: rest.
Proof.
  unfold loadJson. cbv zeta. apply bind_first.
  - intros o w1 E. by apply io_frame in E as (? & _).
  - intros data. along_extends.
Qed.

Lemma try_finally_first {A B} (m : M A) (k : A → M B) c ev w r w' :
  (∀ o w1, m w = (o, w1) → trace w1 = trace w ++ [ev]) →
  (∀ a, along extends (k a)) →
  along extends c →
  try_finally (bind m k) c w = (r, w') →
  ∃ rest, trace w' = trace w ++ ev :: rest.
Proof.
  intros Hm Hk Hc. unfold try_finally.
  destruct (bind m k w) as [rb wb] eqn:Eb.
  apply (bind_first _ _ ev) in Eb as [rest Hb]; [|done..].
  destruct (c wb) as [o wc] eqn:Ec. apply Hc in Ec as [rest' Hc'].
  assert (trace wc = trace w ++ ev :: rest ++ rest') as Hw.
  { by rewrite Hc', Hb, <- app_assoc. }
  destruct o; intros [= <- <-]; eauto.
Qed.

Lemma try_catch_ret_world {A} (m : M A) (h : exn → A) w r w' :
  try_catch m (λ e, ret (h e)) w = (r, w') →
  ∃ rb, m w = (rb, w')
        ∧ r = match rb with Ok a => Ok a | Thrown e => Ok (h e) end.
Proof.
  unfold try_catch. destruct (m w) as [[a|e] w1]; intros [= <- <-]; eauto.
Qed.

Lemma clearProject_extends root items : along extends (clearProject root items).
Proof. unfold clearProject. along_extends. Qed.

Lemma moveExtracted_extends tempDir root items :
  along extends (moveExtracted tempDir root items).
Proof. unfold moveExtracted. along_extends. Qed.

(** C10: for every non-empty selected name the handler works on
    [path.join(archivesDir, name)] as it is: the legacy branch reads
    that path and the restore branch hands it to the extraction,
    whatever it resolves to; the segments of the name are normalised
    on top of those of the archives directory, so a name ["../x"]
    resolves to the sibling [x] of the archives directory, outside of
    it. *)
Theorem selected_path_not_confined ctx cfg args w dir w1 f :
  config ctx = Some cfg →
  getArchivesDir cfg w = (Ok (Some dir), w1) →
  selectedFile args = f →
  Js.truthy f = true →
  let filePath := Path.join dir f in
  (Js.endsWith f ".tar.gz" = false →
   ∃ r w' rest,
     loadAction ctx args w = (Ok r, w')
     ∧ trace w' = trace w1 ++ EvReadFile filePath :: rest)
  ∧ (Js.endsWith f ".tar.gz" = true → forceConfirm args = true →
     ∀ root tempDir w2,
       truthy_string (getProjectRoot cfg) = Some root →
       fs_mkdtemp (Path.join os_tmpdir "gemini-cli-load-") w1
       = (Ok tempDir, w2) →
       ∃ r w' rest,
         loadAction ctx args w = (Ok r, w')
         ∧ trace w' = trace w2 ++ EvTarExtract filePath tempDir :: rest)
  ∧ Path.resolve filePath
    = rev (Path.norm_from false (rev (Path.resolve dir)) (Path.segments f))
  ∧ (∀ name, Path.is_simple name = true → f = "../" +:+ name →
     Path.resolve filePath = Fs.parent (Path.resolve dir) ++ [name]
     ∧ (∀ up last, Path.resolve dir = up ++ [last] → name ≠ last →
          ¬ Path.resolve dir `prefix_of` Path.resolve filePath)).
Proof.
  intros Hcfg Hdir Hsel Hf filePath.
  pose proof (getArchivesDir_truthy _ _ _ _ Hdir) as Htr.
  assert (loadAction ctx args w
          = loadSelected ctx cfg dir f (forceConfirm args) w1) as Hload.
  { unfold loadAction. by rewrite Hcfg, (bind_ok _ _ _ _ _ Hdir), Htr, Hsel, Hf. }
  split; [|split; [|split]].
  - intros Hends.
    destruct (loadSelected ctx cfg dir f (forceConfirm args) w1) as [r w'] eqn:E.
    unfold loadSelected in E. rewrite Hends in E.
    apply try_catch_ret_world in E as (rb & E & ->).
    apply loadJson_extends in E as [rest Hrest].
    rewrite Hload. destruct rb; eauto.
  - intros Hends Hforce root tempDir w2 Hroot Hmk.
    destruct (loadSelected ctx cfg dir f (forceConfirm args) w1) as [r w'] eqn:E.
    unfold loadSelected in E. rewrite Hends, Hroot, Hforce in E. simpl in E.
    apply try_catch_ret_world in E as (rb & E & ->).
    unfold restoreArchive in E. rewrite (bind_ok _ _ _ _ _ Hmk) in E.
    apply (try_finally_first _ _ _ (EvTarExtract filePath tempDir)) in E as [rest Hrest].
    + rewrite Hload. destruct rb; eauto.
    + intros o w3 Ex. by apply io_frame in Ex as (? & _).
    + pose proof clearProject_extends. pose proof moveExtracted_extends.
      along_extends.
    + apply io_extends.
  - apply resolve_join.
  - intros name Hname ->. 
    assert (Path.resolve filePath = Fs.parent (Path.resolve dir) ++ [name]) as Hres.
    { unfold filePath. rewrite resolve_join.
      change (Path.segments ("../" +:+ name))
        with (Js.split Js.slash (".." +:+ String Js.slash name)).
      rewrite split_app. rewrite (split_no_sep _ name) by by apply is_simple_no_slash.
      change (Js.split Js.slash "..") with [Path.dotdot].
      generalize (resolve_simple dir). generalize (Path.resolve dir).
      intros l Hs. destruct l as [|last up _] using rev_ind.
      - simpl. by rewrite norm_step_simple.
      - rewrite parent_snoc, rev_unit. 
        change (Path.norm_from false (last :: rev up) ([Path.dotdot] ++ [name]))
          with (Path.norm_step false (Path.norm_step false (last :: rev up) Path.dotdot) name).
        assert (Path.norm_step false (last :: rev up) Path.dotdot = rev up) as ->.
        { unfold Path.norm_step. rewrite decide_False by done.
          rewrite decide_False by done. rewrite decide_True by done.
          rewrite decide_False; [done|].
          apply Forall_app in Hs as [_ Hlast]. apply Forall_inv in Hlast.
          intros ->. vm_compute in Hlast. discriminate. }
        rewrite norm_step_simple by done. simpl. by rewrite rev_involutive. }
    split; [done|].
    intros up last Hup Hne. rewrite Hres, Hup, parent_snoc.
    intros [k Hk]. rewrite <- app_assoc in Hk. apply app_inv_head in Hk.
    simpl in Hk. by injection Hk as ->.
Qed.
End Claims.

(** ** The restore *)

Lemma NoDup_omap_inj {A B} (f : A → option B) (l : list A) :
  (∀ x y z, f x = Some z → f y = Some z → x = y) →
  NoDup l → NoDup (omap f l).
Proof.
  intros Hinj. induction 1 as [|x l Hx Hl IH]; simpl; [constructor|].
  destruct (f x) as [z|] eqn:E; [|done].
  constructor; [|done].
  intros (y & Hy & Hfy)%list_elem_of_omap.
  by rewrite (Hinj _ _ _ E Hfy) in Hx.
Qed.

Lemma children_NoDup (t : gmap (list string) node) p : NoDup (Fs.children t p).
Proof.
  unfold Fs.children. apply NoDup_omap_inj; [|apply NoDup_fst_map_to_list].
  intros k1 k2 n ->%child_name_spec ->%child_name_spec. done.
Qed.

Lemma children_simple (t : gmap (list string) node) p x :
  Fs.wf t → x ∈ Fs.children t p → Path.is_simple x = true.
Proof.
  intros Hwf Hx%children_spec. apply (wf_simple _ _ Hwf) in Hx.
  apply Forall_app in Hx as [_ Hx]. by apply Forall_inv in Hx.
Qed.

(** Locations below two directories of which neither lies in the other
    never meet. *)
Lemma prefix_apart (p q a b : list string) :
  ¬ p `prefix_of` q → ¬ q `prefix_of` p → ¬ (p ++ a) `prefix_of` (q ++ b).
Proof.
  intros Hpq Hqp Hpre.
  destruct (prefix_weak_total p q (q ++ b)) as [?|?]; [|by apply prefix_app_r|done..].
  etrans; [|exact Hpre]. by apply prefix_app_r.
Qed.

Lemma prefix_snoc_cons (p : list string) x y rel :
  (p ++ [x]) `prefix_of` (p ++ y :: rel) → x = y.
Proof.
  intros [k Hk]. rewrite <- app_assoc in Hk. apply app_inv_head in Hk.
  by injection Hk.
Qed.

Lemma prefix_of_shorter (p : list string) a : (p ++ a) `prefix_of` p → a = [].
Proof.
  intros Hp%prefix_length. rewrite length_app in Hp.
  destruct a; [done|]. simpl in Hp. lia.
Qed.

Section Restore.
Context `{Platform}.

Lemma fs_rm_ok p w w' :
  fs_rm p w = (Ok (), w') → fs w' = Fs.rm_rf (Path.resolve p) (fs w).
Proof. intros Hrm%io_ok. by injection Hrm. Qed.

(** The clearing loop only removes, removes every listed entry that
    is not kept, and touches nothing else. *)
Lemma clearProject_ok root items w w' :
  Fs.wf (fs w) →
  (∀ x, x ∈ items → Path.is_simple x = true) →
  clearProject root items w = (Ok (), w') →
  Fs.wf (fs w')
  ∧ (∀ k, fs w !! k = None → fs w' !! k = None)
  ∧ (∀ x k, x ∈ items → x ∉ filesToKeep →
            (Path.resolve root ++ [x]) `prefix_of` k → fs w' !! k = None)
  ∧ (∀ k, (∀ x, x ∈ items → x ∉ filesToKeep →
                ¬ (Path.resolve root ++ [x]) `prefix_of` k) →
          fs w' !! k = fs w !! k).
Proof.
  revert w. induction items as [|x items IH]; intros w Hwf Hs.
  { intros [= <-]. split; [done|]. split; [done|]. split; [|done].
    intros x k Hx. by apply elem_of_nil in Hx. }
  unfold clearProject. simpl. fold (clearProject root items).
  intros Hrun. step Hrun. destruct r.
  assert (Fs.wf (fs w0)
          ∧ (∀ k, fs w !! k = None → fs w0 !! k = None)
          ∧ (x ∉ filesToKeep → ∀ k, (Path.resolve root ++ [x]) `prefix_of` k →
               fs w0 !! k = None)
          ∧ (∀ k, (x ∉ filesToKeep → ¬ (Path.resolve root ++ [x]) `prefix_of` k) →
               fs w0 !! k = fs w !! k)) as (Hwf0 & Hnone0 & Hrm0 & Hkeep0).
  { destruct (bool_decide (x ∈ filesToKeep)) eqn:Hk.
    - apply bool_decide_eq_true in Hk. injection E as <-. done.
    - apply bool_decide_eq_false in Hk.
      pose proof (fs_rm_keeps_wf _ _ _ _ E Hwf) as Hwf0.
      apply fs_rm_ok in E. rewrite resolve_join_simple in E by (apply Hs; by left).
      split; [done|]. rewrite E. split; [|split].
      + intros k Hn. rewrite rm_rf_lookup. by destruct (decide _).
      + intros _ k Hpre. by rewrite rm_rf_lookup, decide_True.
      + intros k Hpre. rewrite rm_rf_lookup, decide_False; [done|]. by apply Hpre. }
  apply IH in Hrun as (Hwf' & Hnone' & Hrm' & Hkeep'); [|done|].
  2:{ intros y Hy. apply Hs. by right. }
  split; [done|]. split; [|split].
  - intros k Hk. by apply Hnone', Hnone0.
  - intros y k [->|Hy]%elem_of_cons Hnk Hpre.
    + by apply Hnone', Hrm0.
    + by eapply Hrm'.
  - intros k Hk. rewrite Hkeep', Hkeep0; [done|..].
    + intros Hx. apply Hk; [by left|done].
    + intros y Hy. apply Hk. by right.
Qed.

(** The moving loop: every listed entry lands below the project root,
    over what was there; nothing else changes but the entries moved
    away. *)
Lemma moveExtracted_ok tempDir root items w w' :
  let T := Path.resolve tempDir in
  let R := Path.resolve root in
  Fs.wf (fs w) →
  Fs.lookup_node (fs w) R = Some Dir →
  ¬ R `prefix_of` T → ¬ T `prefix_of` R →
  NoDup items →
  (∀ x, x ∈ items → Path.is_simple x = true) →
  moveExtracted tempDir root items w = (Ok (), w') →
  Fs.wf (fs w')
  ∧ (∀ x rel, x ∈ items →
       fs w' !! (R ++ x :: rel)
       = match fs w !! (T ++ x :: rel) with
         | Some n => Some n
         | None => fs w !! (R ++ x :: rel)
         end)
  ∧ (∀ k, (∀ x, x ∈ items → ¬ (R ++ [x]) `prefix_of` k
                             ∧ ¬ (T ++ [x]) `prefix_of` k) →
          fs w' !! k = fs w !! k)
  ∧ (∀ x, x ∈ items → is_Some (fs w' !! (R ++ [x]))).
Proof.
  intros T R. revert w.
  induction items as [|x items IH]; intros w Hwf HR HRT HTR Hnd Hs.
  { intros [= <-]. split; [done|]. split; [|split]; [|done|].
    - intros x rel Hx. by apply elem_of_nil in Hx.
    - intros x Hx. by apply elem_of_nil in Hx. }
  apply NoDup_cons in Hnd as [Hx Hnd].
  assert (Path.is_simple x = true) as Hsx by (apply Hs; by left).
  unfold moveExtracted. simpl. fold (moveExtracted tempDir root items).
  intros Hrun. step Hrun. step E. destruct r, r0.
  rename w0 into wb, w1 into wa, E0 into Ecp, E into Erm.
  (* the copy *)
  pose proof (fs_cp_keeps_wf _ _ _ _ _ Ecp Hwf) as Hwfa.
  apply io_ok in Ecp. rewrite !resolve_join_simple in Ecp by done.
  fold T R in Ecp.
  pose proof (cp_r_ok _ _ _ _ Ecp) as (_ & _ & _ & [nsrc Hsrc] & _).
  rewrite lookup_node_snoc in Hsrc.
  assert (∀ k, fs wa !! k
               = match Fs.strip (R ++ [x]) k ≫= λ rel, fs w !! ((T ++ [x]) ++ rel) with
                 | Some n => Some n
                 | None => fs w !! k
                 end) as Hcp.
  { intros k. apply cp_r_lookup; [done| |done]. by rewrite parent_snoc. }
  (* the removal of the source *)
  pose proof (fs_rm_keeps_wf _ _ _ _ Erm Hwfa) as Hwfb.
  apply fs_rm_ok in Erm. rewrite resolve_join_simple in Erm by done. fold T in Erm.
  assert (∀ k, ¬ (R ++ [x]) `prefix_of` k → ¬ (T ++ [x]) `prefix_of` k →
               fs wb !! k = fs w !! k) as Hother.
  { intros k HkR HkT. rewrite Erm, rm_rf_lookup, decide_False by done.
    rewrite Hcp. apply strip_None in HkR. by rewrite HkR. }
  assert (∀ rel, fs wb !! (R ++ x :: rel)
                 = match fs w !! (T ++ x :: rel) with
                   | Some n => Some n
                   | None => fs w !! (R ++ x :: rel)
                   end) as Hmoved.
  { intros rel. rewrite Erm, rm_rf_lookup, decide_False.
    - rewrite Hcp. change (x :: rel) with ([x] ++ rel).
      rewrite (app_assoc R), strip_app. simpl. by rewrite <- !app_assoc.
    - by apply prefix_apart. }
  assert (Fs.lookup_node (fs wb) R = Some Dir) as HRb.
  { destruct R as [|y R'] eqn:ER; [done|]. simpl. rewrite <- ER in *.
    rewrite Hother.
    - rewrite <- lookup_node_ne by (rewrite ER; done). done.
    - by intros ?%prefix_of_shorter.
    - intros Hp. apply HTR. etrans; [|exact Hp]. by apply prefix_app_r. }
  apply IH in Hrun as (Hwf' & HM1 & HM2 & HM3); [|done..|].
  2:{ intros y Hy. apply Hs. by right. }
  assert (∀ y, y ∈ items → y ≠ x) as Hne by (intros y Hy ->; done).
  split; [done|]. split; [|split].
  - intros y rel [->|Hy]%elem_of_cons.
    + rewrite HM2; [apply Hmoved|].
      intros z Hz. split.
      * intros ->%prefix_snoc_cons. by apply (Hne x).
      * by apply prefix_apart.
    + rewrite HM1 by done. rewrite !Hother; [done|..].
      * intros ->%prefix_snoc_cons. by apply (Hne y).
      * by apply prefix_apart.
      * by apply prefix_apart.
      * intros ->%prefix_snoc_cons. by apply (Hne y).
  - intros k Hk. rewrite HM2.
    + destruct (Hk x) as [? ?]; [by left|]. by apply Hother.
    + intros y Hy. apply Hk. by right.
  - intros y [->|Hy]%elem_of_cons; [|by apply HM3].
    rewrite HM2.
    + specialize (Hmoved []). rewrite Hmoved, Hsrc. done.
    + intros z Hz. split.
      * intros ->%prefix_snoc_cons. by apply (Hne x).
      * by apply prefix_apart.
Qed.

Lemma fs_readdir_ok p w items w' :
  fs_readdir p w = (Ok items, w') →
  fs w' = fs w
  ∧ Fs.lookup_node (fs w) (Path.resolve p) = Some Dir
  ∧ items = Fs.children (fs w) (Path.resolve p).
Proof.
  intros Hrd. pose proof (io_read_tree _ _ _ _ _ Hrd) as Hfs.
  apply io_ok in Hrd. unfold pure_read, Fs.readdir in Hrd.
  destruct (Fs.lookup_node _ _) as [[]|]; [done| |done].
  by injection Hrd as <- _.
Qed.

Lemma tar_extract_ok file cwd w w' :
  Fs.wf (fs w) →
  tar_extract file cwd w = (Ok (), w') →
  Fs.wf (fs w')
  ∧ Fs.lookup_node (fs w') (Path.resolve cwd) = Some Dir
  ∧ ∀ k, ¬ Path.resolve cwd `prefix_of` k → fs w' !! k = fs w !! k.
Proof.
  intros Hwf Hex. pose proof (tar_extract_keeps_wf _ _ _ _ _ Hex Hwf) as Hwf'.
  split; [done|]. apply io_ok in Hex.
  destruct (Fs.read_file _ _); [|done]. destruct (tar_unpack _); [|done].
  destruct (Fs.lookup_node _ _) as [[]|] eqn:Hcwd; [done| |done].
  eapply put_entries_frame; [done|apply resolve_simple|done|done].
Qed.

(** C1, amended: a restore of a [.tar.gz] name with [--force] that has
    made its temporary directory runs the body of its [try] and then,
    however the body ended, removes that directory as its last call;
    it returns a message: that of the body, or the error message made
    of what the body or the removal threw.  On every exit, when the
    removal succeeds the temporary directory is gone, and the removal
    succeeds unless the call is made to fail.  When the body went
    through (the project root being a directory of a well-formed tree
    that does not contain the temporary directory), its message is the
    success message, every top-level entry of the root not named
    [.git], [node_modules] or [archives] holds exactly what was
    extracted under that name, so entries the archive does not have
    are gone, and every top-level entry of the extracted tree is
    present at the root. *)
Theorem restore_with_force ctx cfg args w dir w1 f root tempDir w2 :
  config ctx = Some cfg →
  getArchivesDir cfg w = (Ok (Some dir), w1) →
  selectedFile args = f →
  Js.endsWith f ".tar.gz" = true →
  forceConfirm args = true →
  truthy_string (getProjectRoot cfg) = Some root →
  fs_mkdtemp (Path.join os_tmpdir "gemini-cli-load-") w1 = (Ok tempDir, w2) →
  let T := Path.resolve tempDir in
  let R := Path.resolve root in
  ∃ body wb removal w',
    restoreBody f (Path.join dir f) root tempDir w2 = (body, wb)
    ∧ fs_rm tempDir wb = (removal, w')
    ∧ loadAction ctx args w
      = (Ok match removal, body with
            | Ok _, Ok m => m
            | Ok _, Thrown e | Thrown e, _ =>
                message error ("Error loading archive " +:+ f +:+ ": "
                               +:+ exn_toString e)
            end, w')
    ∧ last (trace w') = Some (EvRm tempDir)
    ∧ (removal = Ok () → absent (fs w') T)
    ∧ ((∀ e, head (faults wb) ≠ Some (Some e)) → removal = Ok ())
    ∧ (∀ m, body = Ok m →
         m = message info
               ("Archive '" +:+ f +:+ "' loaded and extracted successfully to "
                +:+ root +:+ "."))
    ∧ (∀ m, body = Ok m → removal = Ok () →
       Fs.wf (fs w) →
       Fs.lookup_node (fs w) R = Some Dir →
       ¬ R `prefix_of` T →
       ∃ w3,
         tar_extract (Path.join dir f) tempDir w2 = (Ok (), w3)
         ∧ (∀ x rel, x ∉ filesToKeep →
              fs w' !! (R ++ x :: rel) = fs w3 !! (T ++ x :: rel))
         ∧ (∀ x rel, x ∉ filesToKeep → x ∉ Fs.children (fs w3) T →
              fs w' !! (R ++ x :: rel) = None)
         ∧ (∀ x, x ∈ Fs.children (fs w3) T → is_Some (fs w' !! (R ++ [x])))).
Proof.
  intros Hcfg Hdir Hsel Hends Hforce Hroot Hmk T R.
  pose proof (getArchivesDir_truthy _ _ _ _ Hdir) as Htr.
  pose proof (endsWith_truthy f ".tar.gz" eq_refl Hends) as Hf.
  assert (loadAction ctx args w
          = loadSelected ctx cfg dir f true w1) as Hload.
  { unfold loadAction.
    by rewrite Hcfg, (bind_ok _ _ _ _ _ Hdir), Htr, Hsel, Hf, Hforce. }
  rewrite Hload. unfold loadSelected. rewrite Hends, Hroot.
  cbn [negb]. cbv iota. unfold restoreArchive.
  unfold try_catch. rewrite (bind_ok _ _ _ _ _ Hmk). unfold try_finally.
  destruct (restoreBody f (Path.join dir f) root tempDir w2) as [rb wb] eqn:Eb.
  destruct (fs_rm tempDir wb) as [o w'] eqn:Ec.
  assert (o = Ok () → absent (fs w') T) as Hgone.
  { intros ->. apply fs_rm_ok in Ec. intros k Hk.
    by rewrite Ec, rm_rf_lookup, decide_True. }
  assert (last (trace w') = Some (EvRm tempDir)) as Hlast.
  { apply io_frame in Ec as (-> & _). apply last_snoc. }
  assert ((∀ e, head (faults wb) ≠ Some (Some e)) → o = Ok ()) as Hcalm.
  { intros Hno. unfold fs_rm, io in Ec.
    destruct (head (faults wb)) as [[e|]|]; [by destruct (Hno e)|..];
      by injection Ec as <- _. }
  assert (∀ m, rb = Ok m →
            m = message info
                  ("Archive '" +:+ f +:+ "' loaded and extracted successfully to "
                   +:+ root +:+ ".")) as Hmsg.
  { intros m ->. unfold restoreBody in Eb.
    step Eb. step Eb. step Eb. step Eb. step Eb. by injection Eb as <- _. }
  exists rb, wb, o, w'.
  split; [done|]. split; [done|]. split.
  { destruct o as [[]|e]; [destruct rb|]; reflexivity. }
  split; [done|]. split; [done|]. split; [done|]. split; [done|].
  intros m -> -> Hwf HR HRT.
  specialize (Hgone eq_refl). unfold restoreBody in Eb.
  (* the body, call by call *)
  step Eb. step Eb. step Eb. step Eb. step Eb. injection Eb as _ <-.
  destruct r, r1, r3.
  rename w0 into w3, w3 into w3a, r0 into contents, w4 into w4,
         r2 into extracted, w5 into w4a, w6 into w5,
         E into Eex, E0 into Erd, E1 into Ecl, E2 into Erd', E3 into Emv.
  (* the worlds before the extraction *)
  pose proof (getArchivesDir_keeps_wf _ _ _ _ Hdir Hwf) as Hwf1.
  pose proof (fs_mkdtemp_keeps_wf _ _ _ _ Hmk Hwf1) as Hwf2.
  destruct (getArchivesDir_Some _ _ _ _ Hdir) as (tmp & _ & _ & Hmkdir).
  apply io_ok in Hmkdir.
  assert (Fs.lookup_node (fs w1) R = Some Dir) as HR1.
  { rewrite (mkdir_p_lookup_node _ _ _ _ Hmkdir). by destruct (decide _). }
  apply fs_mkdtemp_inv in Hmk as (o & Hmk & Ho).
  destruct o as [[]|]; [|done]. injection Ho as Ho.
  apply io_ok, mkdtemp_ok in Hmk as (Hfs2 & HT1 & _).
  rewrite <- Ho in HT1, Hfs2. fold T in HT1, Hfs2.
  assert (¬ T `prefix_of` R) as HTR.
  { intros Hpre. destruct R as [|y R'] eqn:ER.
    - apply prefix_nil_inv in Hpre. by rewrite Hpre in HT1.
    - simpl in HR1. by rewrite (wf_absent_below _ _ _ Hwf1 HT1 Hpre) in HR1. }
  assert (Fs.lookup_node (fs w2) R = Some Dir) as HR2.
  { destruct R as [|y R'] eqn:ER; [done|]. simpl. rewrite Hfs2, lookup_insert_ne; [done|].
    intros E. apply HTR. by rewrite E. }
  (* the extraction *)
  pose proof (tar_extract_ok _ _ _ _ Hwf2 Eex) as (Hwf3 & HT3 & Hframe3).
  fold T in HT3, Hframe3.
  assert (Fs.lookup_node (fs w3) R = Some Dir) as HR3.
  { destruct R as [|y R'] eqn:ER; [done|]. simpl. by rewrite Hframe3. }
  (* the clearing *)
  apply fs_readdir_ok in Erd as (Hfs3a & _ & Hcontents). fold R in Hcontents.
  rewrite <- Hfs3a in Hwf3, HT3, HR3.
  apply clearProject_ok in Ecl as (Hwf4 & Honly & Hremoved & Hkept); [|done|].
  2:{ intros x Hx. rewrite Hcontents in Hx. rewrite Hfs3a in Hwf3.
      eapply children_simple; [exact Hwf3|exact Hx]. }
  fold R in Hremoved, Hkept. rewrite Hfs3a in Honly, Hkept, Hwf3, HT3, HR3.
  assert (∀ k, T `prefix_of` k → fs w4 !! k = fs w3 !! k) as Hstaged.
  { intros k [b ->]. apply Hkept. intros x _ _. by apply prefix_apart. }
  assert (Fs.lookup_node (fs w4) R = Some Dir) as HR4.
  { destruct R as [|y R'] eqn:ER; [done|]. simpl. rewrite Hkept; [done|].
    intros x _ _. by intros ?%prefix_of_shorter. }
  assert (∀ x rel, x ∉ filesToKeep → fs w4 !! (R ++ x :: rel) = None) as Hcleared.
  { intros x rel Hx. destruct (decide (x ∈ contents)) as [Hin|Hout].
    - apply (Hremoved x); [done..|]. exists rel. by rewrite <- app_assoc.
    - apply Honly. apply (wf_absent_below _ (R ++ [x])); [done| |].
      + rewrite lookup_node_snoc. rewrite Hcontents, children_spec in Hout.
        by apply eq_None_not_Some.
      + exists rel. by rewrite <- app_assoc. }
  (* the move *)
  apply fs_readdir_ok in Erd' as (Hfs4a & _ & Hextracted). fold T in Hextracted.
  assert (∀ x, x ∈ extracted ↔ x ∈ Fs.children (fs w3) T) as Hextracted3.
  { intros x. rewrite Hextracted, !children_spec, Hstaged; [done|].
    by apply prefix_app_r. }
  rewrite <- Hfs4a in Hwf4, HR4.
  apply moveExtracted_ok in Emv as (Hwf5 & HM1 & HM2 & HM3); try done.
  2:{ rewrite Hextracted. apply children_NoDup. }
  2:{ intros x Hx. rewrite Hextracted in Hx. rewrite Hfs4a in Hwf4.
      eapply children_simple; [exact Hwf4|exact Hx]. }
  fold T R in HM1, HM2, HM3. rewrite Hfs4a in HM1, HM2.
  apply fs_rm_ok in Ec. fold T in Ec.
  assert (∀ k, ¬ T `prefix_of` k → fs w' !! k = fs w5 !! k) as Hfinal.
  { intros k Hk. by rewrite Ec, rm_rf_lookup, decide_False. }
  assert (∀ x rel, ¬ T `prefix_of` (R ++ x :: rel)) as Hapart.
  { intros x rel. rewrite <- (app_nil_r T). by apply prefix_apart. }
  assert (∀ x rel, x ∉ filesToKeep →
            fs w' !! (R ++ x :: rel) = fs w3 !! (T ++ x :: rel)) as HA.
  { intros x rel Hx. rewrite Hfinal by done.
    destruct (decide (x ∈ extracted)) as [Hin|Hout].
    - rewrite HM1, Hcleared by done. rewrite Hstaged by (eexists; done).
      by destruct (fs w3 !! _).
    - rewrite HM2; [rewrite Hcleared by done|].
      + symmetry. apply (wf_absent_below _ (T ++ [x])); [done| |].
        * rewrite lookup_node_snoc. rewrite Hextracted3, children_spec in Hout.
          by apply eq_None_not_Some.
        * exists rel. by rewrite <- app_assoc.
      + intros y Hy. split.
        * intros ->%prefix_snoc_cons. done.
        * by apply prefix_apart. }
  exists w3. split; [done|]. split; [done|]. split.
  - intros x rel Hx Hout. rewrite HA by done.
    apply (wf_absent_below _ (T ++ [x])); [done| |].
    + rewrite lookup_node_snoc. rewrite children_spec in Hout.
      by apply eq_None_not_Some.
    + exists rel. by rewrite <- app_assoc.
  - intros x Hx. apply Hextracted3 in Hx.
    rewrite Hfinal; [by apply HM3|].
    change [x] with (x :: []). apply Hapart.
Qed.
End Restore.

(** ** Saving *)

(** *** The name of an archive is an entry name *)

Lemma has_char_app c (a b : string) :
  Js.has_char c (a +:+ b) = Js.has_char c a || Js.has_char c b.
Proof.
  induction a as [|d a IH]; [by rewrite sapp_nil_l|].
  rewrite sapp_cons. simpl. by rewrite IH, orb_assoc.
Qed.

Lemma has_char_repeat c d n :
  Ascii.eqb d c = false → Js.has_char c (Js.repeat_char d n) = false.
Proof. intros Hd. induction n as [|n IH]; [done|]. simpl. by rewrite Hd, IH. Qed.

Lemma String_of_Z_no_slash z : Js.has_char Js.slash (Js.String_of_Z z) = false.
Proof.
  unfold Js.String_of_Z.
  assert (∀ u, Js.has_char Js.slash (NilEmpty.string_of_uint u) = false) as Hu.
  { induction u; simpl; done. }
  destruct (Z.to_int z); simpl; by rewrite ?Hu.
Qed.

Lemma pad2_no_slash n : Js.has_char Js.slash (pad2 n) = false.
Proof.
  unfold pad2, Js.padStart.
  rewrite has_char_app, has_char_repeat, String_of_Z_no_slash by done. done.
Qed.

Lemma basename_no_slash p : Js.has_char Js.slash (Path.basename p) = false.
Proof.
  unfold Path.basename.
  destruct (last _) as [s|] eqn:E; [|done]. simpl.
  apply last_Some_elem_of, list_elem_of_filter in E as [_ Hs].
  by apply split_has_no_sep in Hs.
Qed.

(** *** The exclusion list, the filter and the archive *)

Lemma join_cons (sep x : string) (l : list string) :
  l ≠ [] → Js.join sep (x :: l) = x +:+ sep +:+ Js.join sep l.
Proof. by destruct l. Qed.

Lemma join_app_prefix (sep : string) (q r : list string) :
  q ≠ [] → string_prefix (Js.join sep q) (Js.join sep (q ++ r)).
Proof.
  induction q as [|x q IH]; [done|]. intros _.
  destruct q as [|y q].
  - destruct r as [|z r]; [by exists EmptyString; rewrite sapp_nil_r|].
    by exists (sep +:+ Js.join sep (z :: r)).
  - destruct IH as [rest Hrest]; [done|].
    exists rest. rewrite <- app_comm_cons, !join_cons by done.
    rewrite Hrest. by rewrite !sapp_assoc.
Qed.

Lemma string_prefix_trans (x s t : string) :
  string_prefix x s → string_prefix s t → string_prefix x t.
Proof. intros [a ->] [b ->]. exists (a +:+ b). by rewrite sapp_assoc. Qed.

(** The filter sees the entry at [rel] by its relative path. *)
Lemma normalized_entry_name (rel : list string) :
  normalizedFilePath (Fs.entry_name rel) = relative_path rel.
Proof.
  destruct rel as [|x rel]; [done|].
  unfold Fs.entry_name. rewrite join_cons by done. done.
Qed.

Lemma archiveFilter_spec (excludes : list string) (filePath : string) :
  archiveFilter excludes filePath = true ↔
  ∀ x, x ∈ excludes → ¬ string_prefix x (normalizedFilePath filePath).
Proof.
  unfold archiveFilter.
  rewrite negb_true_iff, <- not_true_iff_false, existsb_exists. split.
  - intros Hno x Hin Hpre. apply Hno. exists x.
    split; [by apply list_elem_of_In | by apply startsWith_spec].
  - intros Hall (x & Hin & Hpre).
    apply (Hall x); [by apply list_elem_of_In | by apply startsWith_spec].
Qed.

Lemma elem_of_allExcludes (existing : list ArchiveMetadata) (x : string) :
  x ∈ allExcludes existing ↔ excluded_name existing x.
Proof.
  unfold allExcludes, excluded_name. cbv zeta.
  rewrite elem_of_Set_values, elem_of_app.
  change (map filename existing) with (filename <$> existing).
  rewrite list_elem_of_fmap. split.
  - intros [?|(m & -> & ?)]; [by left|right; by exists m].
  - intros [?|(m & ? & <-)]; [by left|right; by exists m].
Qed.

(** An entry is archived when no excluded name is a prefix of its
    relative path: the directories above it then pass as well. *)
Lemma archived_clear_of (existing : list ArchiveMetadata) (rel : list string) :
  Fs.archived (archiveFilter (allExcludes existing)) rel = true
  ↔ clear_of existing rel.
Proof.
  unfold Fs.archived, clear_of.
  rewrite andb_true_iff, forallb_forall, archiveFilter_spec.
  setoid_rewrite elem_of_allExcludes.
  change (normalizedFilePath Path.dot) with Path.dot. split.
  - intros [Hdot Hall] x Hx. split; [by apply Hdot|].
    destruct rel as [|y rel]; [by apply Hdot|].
    assert (In (y :: rel) (Fs.prefixes (y :: rel))) as Hin.
    { apply list_elem_of_In, prefixes_spec. done. }
    specialize (Hall _ Hin). rewrite archiveFilter_spec in Hall.
    rewrite normalized_entry_name in Hall. apply Hall.
    by apply elem_of_allExcludes.
  - intros Hclear. split; [intros x Hx; by apply Hclear|].
    intros q [Hq [r ->]]%list_elem_of_In%prefixes_spec.
    apply archiveFilter_spec. intros x Hx%elem_of_allExcludes Hpre.
    rewrite normalized_entry_name in Hpre.
    destruct (Hclear x Hx) as [_ Hrel]. apply Hrel.
    apply (string_prefix_trans _ _ _ Hpre).
    destruct q as [|y q]; [done|]. simpl.
    by apply (join_app_prefix Path.sep (y :: q) r).
Qed.

Lemma elem_of_entries_below (cwd : list string) (filter : string → bool)
    (t : gmap (list string) node) (name : string) (n : node) :
  (name, n) ∈ Fs.entries_below cwd filter t ↔
  ∃ rel, name = Fs.entry_name rel ∧ t !! (cwd ++ rel) = Some n
         ∧ Fs.archived filter rel = true.
Proof.
  unfold Fs.entries_below. rewrite list_elem_of_omap. split.
  - intros ([k v] & Hkv%elem_of_map_to_list & Hsome). simpl in Hsome.
    destruct (Fs.strip cwd k) as [rel|] eqn:Hs; [|done]. simpl in Hsome.
    destruct (Fs.archived filter rel) eqn:Ha; [|done].
    injection Hsome as <- <-. apply strip_spec in Hs as ->. by exists rel.
  - intros (rel & -> & Hl & Ha). exists (cwd ++ rel, n).
    split; [by apply elem_of_map_to_list|].
    simpl. rewrite strip_app. simpl. by rewrite Ha.
Qed.

Lemma truthy_string_Some (o : option string) (s : string) :
  truthy_string o = Some s → o = Some s.
Proof.
  destruct o as [x|]; [|done]. simpl. destruct (Js.truthy x); [|done].
  by intros [= ->].
Qed.



Lemma ui_addItem_ok `{Platform} text ts w w' :
  ui_addItem text ts w = (Ok (), w') →
  fs w' = fs w ∧ trace w' = trace w ++ [EvAddItem text ts].
Proof.
  intros Hrun. pose proof (io_frame _ _ _ _ _ Hrun) as (Htr & _).
  apply io_ok in Hrun. by injection Hrun as <-.
Qed.

Section Save.
Context `{Platform}.

Lemma archiveFileName_simple cfg ts :
  Path.is_simple (archiveFileName cfg ts) = true.
Proof.
  assert (Js.has_char Js.slash (archiveFileName cfg ts) = false) as Hslash.
  { unfold archiveFileName, formattedTimestamp, projectName. cbv zeta.
    rewrite !has_char_app, basename_no_slash, String_of_Z_no_slash,
      !pad2_no_slash. done. }
  assert (Js.has_char (Js.chr 45) (archiveFileName cfg ts) = true) as Hdash.
  { unfold archiveFileName. rewrite !has_char_app.
    change (Js.has_char (Js.chr 45) "-archive-") with true.
    by rewrite orb_true_r. }
  unfold Path.is_simple. rewrite Hslash.
  rewrite !andb_true_iff, !bool_decide_eq_true.
  repeat split; try done; intros E; by rewrite E in Hdash.
Qed.

Lemma metadata_file_simple : Path.is_simple ARCHIVE_METADATA_FILE = true.
Proof. reflexivity. Qed.

(** No archive takes the name of the store. *)
Lemma archiveFileName_not_store cfg ts :
  archiveFileName cfg ts ≠ ARCHIVE_METADATA_FILE.
Proof.
  intros E. apply (f_equal (Js.has_char (Js.chr 122))) in E.
  unfold archiveFileName in E. rewrite !has_char_app in E.
  change (Js.has_char (Js.chr 122) ".tar.gz") with true in E.
  by rewrite !orb_true_r in E.
Qed.

(** A successful [tar.create]: the directory is walked with the output
    file open and empty, and the output file is all that changes. *)
Lemma tar_create_ok file cwd filter w w' :
  tar_create file cwd filter w = (Ok (), w') →
  let opened := <[Path.resolve file := File EmptyString]> (fs w) in
  Fs.lookup_node opened (Path.resolve cwd) = Some Dir
  ∧ fs w'
    = <[Path.resolve file :=
          File (tar_pack (Fs.entries_below (Path.resolve cwd) filter opened))]>
        (fs w).
Proof.
  intros Hrun%io_ok. cbv zeta.
  destruct (Fs.write_file _ EmptyString (fs w)) as [[[]|e] t1] eqn:Eopen; [|done].
  apply write_file_ok in Eopen as (-> & _).
  destruct (Fs.lookup_node _ (Path.resolve cwd)) as [[]|]; [done| |done].
  apply write_file_ok in Hrun as (-> & _). by rewrite insert_insert_eq.
Qed.

(** However [tar.create] ends, it leaves the tree as it was or with
    one file written at the place of its output. *)
Lemma tar_create_tree file cwd filter w o w' :
  tar_create file cwd filter w = (o, w') →
  fs w' = fs w
  ∨ ∃ d, fs w' = <[Path.resolve file := File d]> (fs w)
         ∧ Path.resolve file ≠ []
         ∧ Fs.lookup_node (fs w) (Fs.parent (Path.resolve file)) = Some Dir
         ∧ fs w !! Path.resolve file ≠ Some Dir.
Proof.
  intros [Hfs|[o' Hrun]]%io_tree; [by left|].
  destruct (Fs.write_file _ EmptyString (fs w)) as [[[]|e] t1] eqn:Eopen.
  2:{ apply write_file_thrown in Eopen as ->. left. by injection Hrun. }
  apply write_file_ok in Eopen as (-> & Hne & Hpar & Hnd). right.
  destruct (Fs.lookup_node _ (Path.resolve cwd)) as [[]|];
    [injection Hrun as _ <-; by eauto| |injection Hrun as _ <-; by eauto].
  destruct o' as [[]|e].
  - apply write_file_ok in Hrun as (-> & _). rewrite insert_insert_eq. by eauto.
  - apply write_file_thrown in Hrun as ->. by eauto.
Qed.

(** The calls of a save that ends with its success message. *)
Lemma saveAction_success ctx cfg args w c w' :
  config ctx = Some cfg →
  saveAction ctx args w = (Ok (message info c), w') →
  ∃ dir w1 wn existing w2 w3 w4,
    let name := archiveFileName cfg (now w) in
    let path := Path.join dir name in
    getArchivesDir cfg w = (Ok (Some dir), w1)
    ∧ ui_addItem ("Creating archive: " +:+ path) (now w) w1 = (Ok (), wn)
    ∧ readArchiveMetadata dir wn = (Ok existing, w2)
    ∧ tar_create path (default "." (getProjectRoot cfg))
        (archiveFilter (allExcludes existing)) w2 = (Ok (), w3)
    ∧ writeArchiveMetadata dir
        (existing ++ [{| filename := name; timestamp := now w;
                         description := Js.trim args |}]) w3 = (Ok (), w4)
    ∧ ui_addItem ("Archive created successfully: " +:+ path) (now w) w4
      = (Ok (), w')
    ∧ c = "Archive created at: " +:+ path
            +:+ (if Js.truthy (Js.trim args)
                 then " with description: " +:+ Js.dquote
                      +:+ Js.trim args +:+ Js.dquote
                 else EmptyString).
Proof.
  intros Hcfg Hrun. unfold saveAction in Hrun. rewrite Hcfg in Hrun.
  step Hrun. destruct (truthy_string r) as [dir|] eqn:Hdir; [|done].
  apply truthy_string_Some in Hdir as ->.
  step Hrun. unfold Date_now in E0. injection E0 as <- <-.
  pose proof (getArchivesDir_frame _ _ _ _ E) as (Hnow & _).
  rewrite Hnow in *.
  step Hrun. injection Hrun as -> ->.
  step E0. step E0. step E0. step E0. step E0. injection E0 as <- <-.
  destruct r, r1, r2, r3.
  by exists dir, w0, w1, r0, w2, w3, w4.
Qed.

(** What a successful save leaves: the archive, packed from the tree
    with the output file open, and the store with the new record at
    its end. *)
Lemma saveAction_leaves cfg dir existing record w1 wn w2 w3 w4 w' text1 text2 ts :
  let path := Path.join dir (archiveFileName cfg ts) in
  let cwd := default "." (getProjectRoot cfg) in
  ui_addItem text1 ts w1 = (Ok (), wn) →
  readArchiveMetadata dir wn = (Ok existing, w2) →
  tar_create path cwd (archiveFilter (allExcludes existing)) w2 = (Ok (), w3) →
  writeArchiveMetadata dir (existing ++ [record]) w3 = (Ok (), w4) →
  ui_addItem text2 ts w4 = (Ok (), w') →
  let opened := <[Path.resolve path := File EmptyString]> (fs w1) in
  EvTarCreate path cwd ∈ trace w'
  ∧ fs w' !! Path.resolve path
    = Some (File (tar_pack
                    (Fs.entries_below (Path.resolve cwd)
                       (archiveFilter (allExcludes existing)) opened)))
  ∧ fs w' !! Path.resolve (Path.join dir ARCHIVE_METADATA_FILE)
    = Some (File (JSON_stringify (json_of_metadata (existing ++ [record])))).
Proof.
  intros path cwd E1 E2 E3 E4 E5 opened.
  apply ui_addItem_ok in E1 as (Hfs1 & _).
  pose proof (readArchiveMetadata_frame _ _ _ _ E2) as (Hfs2 & _).
  pose proof (io_frame _ _ _ _ _ E3) as (Htr3 & _).
  apply tar_create_ok in E3 as (_ & Hfs3).
  pose proof (io_frame _ _ _ _ _ E4) as (Htr4 & _).
  apply io_ok, write_file_ok in E4 as (Hfs4 & _).
  apply ui_addItem_ok in E5 as (Hfs5 & Htr5).
  rewrite Hfs2, Hfs1 in Hfs3. fold opened in Hfs3.
  split; [|split].
  - rewrite Htr5, Htr4, Htr3, !elem_of_app, !list_elem_of_singleton. auto.
  - rewrite Hfs5, Hfs4, lookup_insert_ne, Hfs3, lookup_insert_eq; [done|].
    unfold path.
    rewrite !resolve_join_simple
      by (apply archiveFileName_simple || apply metadata_file_simple).
    intros [_ E]%app_inj_tail. symmetry in E. by apply archiveFileName_not_store in E.
  - by rewrite Hfs5, Hfs4, lookup_insert_eq.
Qed.

(** C6: in a save that succeeds, the records read from the store give
    the exclusion list: ["node_modules"], [".git"], ["archives"], then
    the stored filenames, each name once; the filter strips one leading
    ["./"] from the candidate path and accepts it if and only if no
    excluded name is a plain string prefix of the result, so
    ["./archives2/"] is rejected; and the archive that the handler
    leaves is packed from exactly those entries of the tree below the
    project root, as it is once the archives directory is there and
    the output file is open, whose relative path no excluded name is a
    prefix of: nothing at or below a top-level [archives2] is in it. *)
Theorem exclusion_set_and_filter ctx cfg args w c w' :
  config ctx = Some cfg →
  saveAction ctx args w = (Ok (message info c), w') →
  ∃ archivesDir w1 wn existing w2 others entries,
    let archivePath := Path.join archivesDir (archiveFileName cfg (now w)) in
    let cwd := default "." (getProjectRoot cfg) in
    let opened := <[Path.resolve archivePath := File EmptyString]> (fs w1) in
    getArchivesDir cfg w = (Ok (Some archivesDir), w1)
    ∧ ui_addItem ("Creating archive: " +:+ archivePath) (now w) w1
      = (Ok (), wn)
    ∧ readArchiveMetadata archivesDir wn = (Ok existing, w2)
    ∧ allExcludes existing = ["node_modules"; ".git"; "archives"] ++ others
    ∧ NoDup (allExcludes existing)
    ∧ (∀ name, name ∈ allExcludes existing ↔
                 name ∈ ["node_modules"; ".git"; "archives"]
                 ∨ name ∈ map filename existing)
    ∧ (∀ filePath,
         (∀ rest, filePath = "./" +:+ rest →
            (archiveFilter (allExcludes existing) filePath = true ↔
             ∀ x, excluded_name existing x → ¬ string_prefix x rest))
         ∧ ((¬ ∃ rest, filePath = "./" +:+ rest) →
            (archiveFilter (allExcludes existing) filePath = true ↔
             ∀ x, excluded_name existing x → ¬ string_prefix x filePath)))
    ∧ archiveFilter (allExcludes existing) "./archives2/" = false
    ∧ EvTarCreate archivePath cwd ∈ trace w'
    ∧ fs w' !! Path.resolve archivePath = Some (File (tar_pack entries))
    ∧ (∀ name n,
         (name, n) ∈ entries ↔
         ∃ rel, name = Fs.entry_name rel
                ∧ opened !! (Path.resolve cwd ++ rel) = Some n
                ∧ clear_of existing rel)
    ∧ (∀ rest n, (Fs.entry_name ("archives2" :: rest), n) ∉ entries).
Proof.
  intros Hcfg Hrun.
  destruct (saveAction_success _ _ _ _ _ _ Hcfg Hrun)
    as (dir & w1 & wn & existing & w2 & w3 & w4
        & Hdir & E1 & E2 & E3 & E4 & E5 & _).
  destruct (saveAction_leaves _ _ _ _ _ _ _ _ _ _ _ _ _ E1 E2 E3 E4 E5)
    as (Htar & Harchive & _).
  assert (∀ name n,
            (name, n) ∈ Fs.entries_below
                          (Path.resolve (default "." (getProjectRoot cfg)))
                          (archiveFilter (allExcludes existing))
                          (<[Path.resolve
                               (Path.join dir (archiveFileName cfg (now w)))
                             := File EmptyString]> (fs w1)) ↔
            ∃ rel, name = Fs.entry_name rel
                   ∧ <[Path.resolve
                         (Path.join dir (archiveFileName cfg (now w)))
                       := File EmptyString]> (fs w1)
                     !! (Path.resolve (default "." (getProjectRoot cfg)) ++ rel)
                     = Some n
                   ∧ clear_of existing rel) as Hentries.
  { intros name n. rewrite elem_of_entries_below.
    by setoid_rewrite archived_clear_of. }
  exists dir, w1, wn, existing, w2,
    (filter (λ y, y ∉ defaultExcludes) (Set_values (map filename existing))),
    (Fs.entries_below (Path.resolve (default "." (getProjectRoot cfg)))
       (archiveFilter (allExcludes existing))
       (<[Path.resolve (Path.join dir (archiveFileName cfg (now w)))
          := File EmptyString]> (fs w1))).
  cbv zeta. do 3 (split; [done|]).
  split.
  { unfold allExcludes. cbv zeta. apply Set_values_app.
    apply (bool_decide_eq_true_1 _). reflexivity. }
  split; [apply NoDup_Set_values|].
  split.
  { intros name. unfold allExcludes. cbv zeta.
    by rewrite elem_of_Set_values, elem_of_app. }
  split.
  { intros filePath. split.
    - intros rest ->. rewrite archiveFilter_spec.
      by setoid_rewrite elem_of_allExcludes.
    - intros Hno. rewrite archiveFilter_spec.
      setoid_rewrite elem_of_allExcludes.
      unfold normalizedFilePath.
      destruct (Js.startsWith filePath "./") eqn:Hs; [|done].
      apply startsWith_spec in Hs. done. }
  split.
  { apply not_true_is_false. rewrite archiveFilter_spec.
    intros Hall. apply (Hall "archives").
    - apply elem_of_allExcludes. left. rewrite !elem_of_cons. auto.
    - by exists "2/". }
  do 3 (split; [done|]).
  intros rest n (rel & Hname & _ & Hclear)%Hentries.
  destruct (Hclear "archives") as [_ Hrel]; [left; rewrite !elem_of_cons; auto|].
  apply Hrel. rewrite <- normalized_entry_name, <- Hname, normalized_entry_name.
  eapply string_prefix_trans;
    [|apply (join_app_prefix Path.sep ["archives2"] rest); done].
  by exists "2".
Qed.


End Save.

(** C3: where the path of the archives directory is taken by a regular
    file, the [EEXIST] of [mkdir] in [getArchivesDir] is thrown out of
    the load handler and out of the save handler: neither turns it into
    a message. *)
Theorem mkdir_failure_escapes_handlers :
  (∃ w', loadAction (H:=Demo.platform) Demo.ctx EmptyString Demo.blocked
         = (Thrown (SystemError "EEXIST" "mkdir"), w'))
  ∧ (∃ w', saveAction (H:=Demo.platform) Demo.ctx "backup" Demo.blocked
           = (Thrown (SystemError "EEXIST" "mkdir"), w')).
Proof. split; eexists; vm_compute; reflexivity. Qed.

(** C4: at the same world the [EEXIST] of [mkdir] is thrown out of the
    completion provider, which returns no list. *)
Theorem mkdir_failure_escapes_completion :
  ∃ w', completion (H:=Demo.platform) Demo.ctx EmptyString Demo.blocked
        = (Thrown (SystemError "EEXIST" "mkdir"), w').
Proof. eexists; vm_compute; reflexivity. Qed.

(** ** The claims at concrete worlds *)

Lemma wf_check_sound (t : gmap (list string) node) : wf_check t = true → Fs.wf t.
Proof.
  unfold wf_check. rewrite forallb_forall. intros Hall k [v Hk].
  specialize (Hall (k, v)). simpl in Hall.
  rewrite andb_true_iff in Hall. destruct Hall as [Hs Hp].
  { by apply list_elem_of_In, elem_of_map_to_list. }
  split; [by apply forallb_Forall|].
  by destruct (Fs.lookup_node t (Fs.parent k)) as [[]|].
Qed.

Lemma includesb_sound s sub : Js.includes s sub ↔ includesb s sub = true.
Proof.
  split.
  - intros (pre & post & ->). induction pre as [|c pre IH].
    + rewrite sapp_nil_l. destruct sub as [|d sub]; [by destruct post|].
      simpl. apply orb_true_iff. left.
      change (Js.startsWith (String d sub +:+ post) (String d sub) = true).
      apply startsWith_spec. by exists post.
    + rewrite sapp_cons. simpl. rewrite IH. apply orb_true_r.
  - induction s as [|c s IH]; simpl.
    + rewrite orb_false_r. intros [r Hr]%startsWith_spec.
      exists EmptyString, r. by rewrite sapp_nil_l.
    + intros [[r Hr]%startsWith_spec|Hs]%orb_true_iff.
      * exists EmptyString, r. by rewrite sapp_nil_l.
      * destruct (IH Hs) as (pre & post & ->).
        exists (String c pre), post. by rewrite sapp_cons.
Qed.

Lemma demo_base_wf : Fs.wf Demo.base_tree.
Proof. apply wf_check_sound. vm_compute. reflexivity. Qed.

Lemma not_elem_of_checked (x : string) (l : list string) :
  bool_decide (x ∈ l) = false → x ∉ l.
Proof. apply bool_decide_eq_false_1. Qed.

Lemma elem_of_checked (x : string) (l : list string) :
  bool_decide (x ∈ l) = true → x ∈ l.
Proof. apply bool_decide_eq_true_1. Qed.

Lemma not_prefix_checked (p q : list string) :
  bool_decide (p `prefix_of` q) = false → ¬ p `prefix_of` q.
Proof. apply bool_decide_eq_false_1. Qed.

(** A run, by its outcome and the world it leaves. *)
Lemma run_eq {A} (m : M A) (w : world) (r : outcome A) :
  (m w).1 = r → m w = (r, after m w).
Proof. unfold after. destruct (m w). simpl. by intros ->. Qed.

Lemma run_pair {A} (m : M A) (w : world) : m w = ((m w).1, after m w).
Proof. unfold after. by destruct (m w). Qed.

Lemma run_after {A} (m : M A) (w : world) r w' :
  m w = (r, w') → r = (m w).1 ∧ w' = after m w.
Proof. unfold after. by intros ->. Qed.

#[local] Existing Instance Demo.platform.

(** C1, the claim as it stands fails twice over: when the removal of
    the temporary directory is itself refused the directory is still
    there after the handler has returned its error message; and when
    the extraction fails, here for want of the archive, nothing of the
    project has been removed: [old.txt], which is not among the kept
    names, is still there. *)
Lemma restore_with_force_counterexample :
  ((∃ e, (loadAction Demo.ctx "x.tar.gz --force" Demo.cleanup_refused).1
         = Ok (message error ("Error loading archive x.tar.gz: "
                              +:+ exn_toString e)))
   ∧ fs (after (loadAction Demo.ctx "x.tar.gz --force") Demo.cleanup_refused)
       !! demo_temp_at = Some Dir)
  ∧ ((∃ e, (loadAction Demo.ctx "missing.tar.gz --force" Demo.w0).1
           = Ok (message error ("Error loading archive missing.tar.gz: "
                                +:+ exn_toString e)))
     ∧ fs (after (loadAction Demo.ctx "missing.tar.gz --force") Demo.w0)
         !! (Demo.project ++ ["old.txt"]) = Some (File "x")
     ∧ "old.txt" ∉ filesToKeep).
Proof.
  split; [split|split; [|split]].
  - exists (SystemError "EACCES" "rm"). vm_compute. reflexivity.
  - vm_compute. reflexivity.
  - exists (SystemError "ENOENT" "open"). vm_compute. reflexivity.
  - vm_compute. reflexivity.
  - apply not_elem_of_checked. vm_compute. reflexivity.
Qed.

(** The restore of [x.tar.gz] in the base world: the body goes through
    and the removal is not refused, so [old.txt] is gone, the entries
    of the archive are at the project root, and the temporary directory
    is gone. *)
Lemma restore_with_force_witness :
  let w := Demo.w0 in
  let w1 := after (getArchivesDir Demo.cfg) w in
  let w2 := after (fs_mkdtemp (Path.join os_tmpdir "gemini-cli-load-")) w1 in
  (getArchivesDir Demo.cfg w = (Ok (Some "/t/archives"), w1)
   ∧ selectedFile "x.tar.gz --force" = "x.tar.gz"
   ∧ Js.endsWith "x.tar.gz" ".tar.gz" = true
   ∧ forceConfirm "x.tar.gz --force" = true
   ∧ fs_mkdtemp (Path.join os_tmpdir "gemini-cli-load-") w1 = (Ok demo_temp, w2))
  ∧ ∃ w',
      loadAction Demo.ctx "x.tar.gz --force" w
      = (Ok (message info
               "Archive 'x.tar.gz' loaded and extracted successfully to /mock/path/test-project."),
         w')
      ∧ last (trace w') = Some (EvRm demo_temp)
      ∧ fs w' !! (Path.resolve "/mock/path/test-project" ++ ["old.txt"]) = None
      ∧ fs w' !! (Path.resolve "/mock/path/test-project" ++ ["a.txt"])
        = Some (File "A")
      ∧ is_Some (fs w' !! (Path.resolve "/mock/path/test-project" ++ ["d"]))
      ∧ absent (fs w') (Path.resolve demo_temp).
Proof.
  intros w w1 w2.
  set (body := restoreBody "x.tar.gz" (Path.join "/t/archives" "x.tar.gz")
                 "/mock/path/test-project" demo_temp).
  set (w3 := after (tar_extract (Path.join "/t/archives" "x.tar.gz") demo_temp) w2).
  assert (getArchivesDir Demo.cfg w = (Ok (Some "/t/archives"), w1)) as H1
    by (apply (run_eq (getArchivesDir Demo.cfg) w); vm_compute; reflexivity).
  assert (fs_mkdtemp (Path.join os_tmpdir "gemini-cli-load-") w1
          = (Ok demo_temp, w2)) as H2
    by (apply (run_eq (fs_mkdtemp (Path.join os_tmpdir "gemini-cli-load-")) w1);
        vm_compute; reflexivity).
  assert (Fs.wf (fs w)) as H3 by exact demo_base_wf.
  assert (Fs.lookup_node (fs w) (Path.resolve "/mock/path/test-project")
          = Some Dir) as H4 by (vm_compute; reflexivity).
  assert (¬ Path.resolve "/mock/path/test-project" `prefix_of` Path.resolve demo_temp)
    as H5 by (apply not_prefix_checked; vm_compute; reflexivity).
  assert (selectedFile "x.tar.gz --force" = "x.tar.gz") as Hsel
    by (vm_compute; reflexivity).
  assert (Js.endsWith "x.tar.gz" ".tar.gz" = true) as Hends
    by (vm_compute; reflexivity).
  assert (forceConfirm "x.tar.gz --force" = true) as Hforce
    by (vm_compute; reflexivity).
  assert ((body w2).1
          = Ok (message info
                  "Archive 'x.tar.gz' loaded and extracted successfully to /mock/path/test-project."))
    as Ebody by (vm_compute; reflexivity).
  assert (head (faults (after body w2)) = None) as Ecalm
    by (vm_compute; reflexivity).
  assert (tar_extract (Path.join "/t/archives" "x.tar.gz") demo_temp w2
          = (Ok (), w3)) as E3
    by (apply (run_eq (tar_extract (Path.join "/t/archives" "x.tar.gz") demo_temp) w2);
        vm_compute; reflexivity).
  assert ("old.txt" ∉ filesToKeep) as K1
    by (apply not_elem_of_checked; vm_compute; reflexivity).
  assert ("old.txt" ∉ Fs.children (fs w3) (Path.resolve demo_temp)) as K2
    by (apply not_elem_of_checked; vm_compute; reflexivity).
  assert ("d" ∈ Fs.children (fs w3) (Path.resolve demo_temp)) as K3
    by (apply elem_of_checked; vm_compute; reflexivity).
  assert ("a.txt" ∉ filesToKeep) as K4
    by (apply not_elem_of_checked; vm_compute; reflexivity).
  assert (fs w3 !! (Path.resolve demo_temp ++ ["a.txt"]) = Some (File "A")) as K5
    by (vm_compute; reflexivity).
  clearbody w3 w2 w1 w.
  split; [exact (conj H1 (conj Hsel (conj Hends (conj Hforce H2))))|].
  destruct (restore_with_force Demo.ctx Demo.cfg "x.tar.gz --force" w
              "/t/archives" w1 "x.tar.gz" "/mock/path/test-project"
              demo_temp w2 eq_refl H1 Hsel Hends Hforce eq_refl H2)
    as (rb & wb & removal & w' & Hbody & Hrm & Hrun & Hlast & Hgone & Hcalm
        & _ & Hok).
  apply run_after in Hbody as [-> ->]. fold body in Hcalm, Hrun, Hok |- *.
  rewrite Ebody in Hrun, Hok. rewrite Ecalm in Hcalm.
  assert (removal = Ok ()) as -> by (by apply Hcalm).
  destruct (Hok _ eq_refl eq_refl H3 H4 H5) as (w3' & Hex & HA1 & HA2 & HB).
  rewrite E3 in Hex. injection Hex as <-.
  exists w'. split; [exact Hrun|]. split; [exact Hlast|].
  split; [exact (HA2 "old.txt" [] K1 K2)|].
  split; [by rewrite (HA1 "a.txt" [] K4)|].
  split; [exact (HB "d" K3)|]. by apply Hgone.
Defined.

(** C2, the claim as it stands fails where the archives directory is
    not there yet: the handler makes it before it looks at the flag.
    And with no project root, or with no project temporary directory,
    the answer is another one, without the suggestion. *)
Lemma restore_without_force_counterexample :
  ((loadAction Demo.ctx "x.tar.gz" Demo.fresh).1
   = Ok (message error (forceMessage "x.tar.gz" "/mock/path/test-project"))
   ∧ fs Demo.fresh !! ["t"; "archives"] = None
   ∧ fs (after (loadAction Demo.ctx "x.tar.gz") Demo.fresh)
       !! ["t"; "archives"] = Some Dir)
  ∧ ((loadAction Demo.rootless "x.tar.gz" Demo.w0).1
     = Ok (message error "Could not determine the project root path.")
     ∧ ¬ Js.includes "Could not determine the project root path."
                     "/load x.tar.gz --force")
  ∧ ((loadAction Echo.homeless "x.tar.gz" Demo.w0).1
     = Ok (message error "Could not determine the .gemini directory path.")
     ∧ ¬ Js.includes "Could not determine the .gemini directory path."
                     "/load x.tar.gz --force").
Proof.
  split; [split; [|split]|split; split]; try (vm_compute; reflexivity).
  - intros Hinc%includesb_sound. vm_compute in Hinc. discriminate.
  - intros Hinc%includesb_sound. vm_compute in Hinc. discriminate.
Qed.

(** In the base world, where the archives directory is there, the
    refusal leaves the tree as it was. *)
Lemma restore_without_force_witness :
  let w := Demo.w0 in
  let w' := after (loadAction Demo.ctx "x.tar.gz") w in
  (selectedFile "x.tar.gz" = "x.tar.gz"
   ∧ Js.endsWith "x.tar.gz" ".tar.gz" = true
   ∧ forceConfirm "x.tar.gz" = false
   ∧ loadAction Demo.ctx "x.tar.gz" w
     = (Ok (message error
              (forceMessage "x.tar.gz" "/mock/path/test-project")), w'))
  ∧ Js.includes (forceMessage "x.tar.gz" "/mock/path/test-project")
                ("/load " +:+ "x.tar.gz" +:+ " --force")
  ∧ trace w' = trace w ++ [EvMkdir "/t/archives"]
  ∧ fs w' = fs w.
Proof.
  intros w w'.
  assert (selectedFile "x.tar.gz" = "x.tar.gz") as H2 by (vm_compute; reflexivity).
  assert (Js.endsWith "x.tar.gz" ".tar.gz" = true) as H3 by (vm_compute; reflexivity).
  assert (forceConfirm "x.tar.gz" = false) as H4 by (vm_compute; reflexivity).
  assert (loadAction Demo.ctx "x.tar.gz" w
          = (Ok (message error
                   (forceMessage "x.tar.gz" "/mock/path/test-project")), w'))
    as H1 by (apply (run_eq (loadAction Demo.ctx "x.tar.gz") w);
              vm_compute; reflexivity).
  assert (Fs.wf (fs w)) as H5 by exact demo_base_wf.
  assert (Fs.lookup_node (fs w) (Path.resolve (Path.join "/t" ARCHIVES_DIR_NAME))
          = Some Dir) as H6 by (vm_compute; reflexivity).
  clearbody w' w.
  split; [exact (conj H2 (conj H3 (conj H4 H1)))|].
  destruct (restore_without_force Demo.ctx Demo.cfg "x.tar.gz" w "x.tar.gz"
              "/mock/path/test-project" _ w' eq_refl H2 H3 H4 eq_refl H1)
    as (_ & Hinc & Htr & _ & Hsame).
  split; [exact Hinc|]. split; [exact Htr|].
  apply (Hsame H5). intros tmp [= <-]. exact H6.
Defined.

(** *** Saving *)


(** A save over a store of four records: [old.txt] of the project goes
    into the archive, the [.git] directory and whatever lies below an
    [archives2] do not. *)
Lemma exclusion_set_and_filter_witness :
  let w := Demo.with_store "MIXED" in
  let c := answer (saveAction Demo.ctx "backup") w in
  let w' := after (saveAction Demo.ctx "backup") w in
  saveAction Demo.ctx "backup" w = (Ok (message info c), w')
  ∧ ∃ entries,
      fs w' !! ["t"; "archives"; "test-project-archive-20250101-120000.tar.gz"]
      = Some (File (tar_pack entries))
      ∧ ("./old.txt", File "x") ∈ entries
      ∧ (∀ n, ("./.git", n) ∉ entries)
      ∧ (∀ n, ("./archives2/notes.txt", n) ∉ entries).
Proof.
  intros w c w'.
  set (name := archiveFileName Demo.cfg (now w)).
  set (w1 := after (getArchivesDir Demo.cfg) w).
  set (wn := after (ui_addItem ("Creating archive: "
                                +:+ Path.join "/t/archives" name) (now w)) w1).
  set (stored := [Demo.old_backup; Demo.foreign_backup; Demo.newest_backup;
                  Demo.mid_backup]).
  assert (saveAction Demo.ctx "backup" w = (Ok (message info c), w')) as H1
    by (apply (run_eq (saveAction Demo.ctx "backup") w);
        vm_compute; reflexivity).
  assert ((getArchivesDir Demo.cfg w).1 = Ok (Some "/t/archives")) as H2
    by (vm_compute; reflexivity).
  assert ((readArchiveMetadata "/t/archives" wn).1 = Ok stored) as H3
    by (vm_compute; reflexivity).
  assert (Path.resolve (Path.join "/t/archives" name)
          = ["t"; "archives"; "test-project-archive-20250101-120000.tar.gz"])
    as H4 by (vm_compute; reflexivity).
  assert (<[Path.resolve (Path.join "/t/archives" name) := File EmptyString]>
            (fs w1)
          !! (Path.resolve (default "." (getProjectRoot Demo.cfg)) ++ ["old.txt"])
          = Some (File "x")) as H5 by (vm_compute; reflexivity).
  assert (Fs.archived (archiveFilter (allExcludes stored)) ["old.txt"] = true)
    as H6 by (vm_compute; reflexivity).
  clearbody c w'. 
  split; [exact H1|].
  destruct (exclusion_set_and_filter Demo.ctx Demo.cfg "backup" w c w'
              eq_refl H1)
    as (dir & w1' & wn' & existing & w2 & others & entries
        & Hdir & E1 & E2 & _ & _ & _ & _ & _ & _ & Harchive & Hentries & Hsib).
  apply run_after in Hdir as [Hdir ->]. rewrite H2 in Hdir.
  injection Hdir as ->.
  apply run_after in E1 as [_ ->]. 
  apply run_after in E2 as [E2 _]. fold name w1 in E2. fold wn in E2.
  rewrite H3 in E2. injection E2 as ->.
  fold name w1 in Harchive, Hentries. rewrite H4 in Harchive.
  exists entries. split; [exact Harchive|]. split; [|split].
  - apply Hentries. exists ["old.txt"]. split; [reflexivity|].
    split; [exact H5|]. by apply archived_clear_of.
  - intros n (rel & Hname & _ & Hclear)%Hentries.
    destruct (Hclear ".git") as [_ Hrel]; [left; rewrite !elem_of_cons; auto|].
    apply Hrel. rewrite <- normalized_entry_name, <- Hname.
    by exists EmptyString.
  - intros n. apply (Hsib ["notes.txt"] n).
Defined.

(** *** Listing *)

(** C7, the claim as it stands fails for records of one timestamp:
    they are listed side by side, and no order of them is strictly
    descending. *)
Lemma list_mode_newest_first_counterexample :
  (loadAction Demo.ctx EmptyString (Demo.with_store "TIES")).1
  = Ok (message info (renderArchives [Demo.mid_backup; Demo.twin_backup]))
  ∧ ¬ StronglySorted newer [Demo.mid_backup; Demo.twin_backup]
  ∧ ¬ StronglySorted newer [Demo.twin_backup; Demo.mid_backup].
Proof.
  split; [vm_compute; reflexivity|].
  split; intros Hs; apply StronglySorted_inv in Hs as [_ Hs];
    apply Forall_inv in Hs; unfold newer in Hs; simpl in Hs; lia.
Qed.

(** A store in no order, with a record of another project in it. *)
Lemma list_mode_newest_first_witness :
  let w := Demo.with_store "MIXED" in
  let w1 := after (getArchivesDir Demo.cfg) w in
  let w2 := after (readArchiveMetadata "/t/archives") w1 in
  let archives :=
    [Demo.old_backup; Demo.foreign_backup; Demo.newest_backup;
     Demo.mid_backup] in
  (selectedFile EmptyString = EmptyString
   ∧ getArchivesDir Demo.cfg w = (Ok (Some "/t/archives"), w1)
   ∧ readArchiveMetadata "/t/archives" w1 = (Ok archives, w2)
   ∧ filterArchives Demo.cfg archives ≠ [])
  ∧ ∃ shown,
      loadAction Demo.ctx EmptyString w
      = (Ok (message info (renderArchives shown)), w2)
      ∧ StronglySorted newer shown
      ∧ Demo.foreign_backup ∉ shown.
Proof.
  intros w w1 w2 archives.
  assert (selectedFile EmptyString = EmptyString) as H1 by reflexivity.
  assert (getArchivesDir Demo.cfg w = (Ok (Some "/t/archives"), w1)) as H2
    by (vm_compute; reflexivity).
  assert (readArchiveMetadata "/t/archives" w1 = (Ok archives, w2)) as H3
    by (vm_compute; reflexivity).
  assert (filterArchives Demo.cfg archives
          = [Demo.old_backup; Demo.newest_backup; Demo.mid_backup]) as H4
    by (vm_compute; reflexivity).
  assert (filterArchives Demo.cfg archives ≠ []) as H5 by (by rewrite H4).
  assert (NoDup (map timestamp (filterArchives Demo.cfg archives))) as H6.
  { rewrite H4. apply (bool_decide_eq_true_1 _). vm_compute. reflexivity. }
  assert (Js.startsWith (filename Demo.foreign_backup)
            (projectName Demo.cfg +:+ "-archive-") = false) as H7
    by (vm_compute; reflexivity).
  assert (Demo.foreign_backup ∈ archives) as H8.
  { right. left. }
  clearbody w2 w1 w.
  split; [exact (conj H1 (conj H2 (conj H3 H5)))|].
  destruct (list_mode_newest_first Demo.ctx Demo.cfg EmptyString w
              "/t/archives" w1 archives w2 eq_refl H1 H2 H3 H5)
    as (shown & Hrun & _ & _ & Hstrict & Hout).
  exists shown. split; [exact Hrun|]. split.
  - exact (proj1 (Hstrict H6)).
  - exact (Hout _ H8 H7).
Defined.

(** A store that holds a record of another project only. *)
Lemma no_archives_for_project_witness :
  let w := Demo.with_store "FOREIGN" in
  let w1 := after (getArchivesDir Demo.cfg) w in
  let w2 := after (readArchiveMetadata "/t/archives") w1 in
  (selectedFile EmptyString = EmptyString
   ∧ getArchivesDir Demo.cfg w = (Ok (Some "/t/archives"), w1)
   ∧ readArchiveMetadata "/t/archives" w1 = (Ok [Demo.foreign_backup], w2)
   ∧ filterArchives Demo.cfg [Demo.foreign_backup] = [])
  ∧ loadAction Demo.ctx EmptyString w
    = (Ok (message info "No saved archives found for the current project."),
       w2)
  ∧ completion Demo.ctx EmptyString w = (Ok [], w2).
Proof.
  intros w w1 w2.
  assert (selectedFile EmptyString = EmptyString) as H1 by reflexivity.
  assert (getArchivesDir Demo.cfg w = (Ok (Some "/t/archives"), w1)) as H2
    by (vm_compute; reflexivity).
  assert (readArchiveMetadata "/t/archives" w1
          = (Ok [Demo.foreign_backup], w2)) as H3 by (vm_compute; reflexivity).
  assert (filterArchives Demo.cfg [Demo.foreign_backup] = []) as H4
    by (vm_compute; reflexivity).
  clearbody w2 w1 w.
  split; [exact (conj H1 (conj H2 (conj H3 H4)))|].
  exact (no_archives_for_project Demo.ctx Demo.cfg EmptyString EmptyString w
           "/t/archives" w1 [Demo.foreign_backup] w2 eq_refl H1 H2 H3 H4).
Defined.

(** *** The JSON fallback, run *)

(** C9, the claim as it stands fails for a [history] field that is
    there and falsy: no sink is called and the load is reported as
    done. *)
Lemma legacy_history_only_counterexample :
  JSON_parse "NULL-HISTORY" = Some (JObj [("history", JNull)])
  ∧ (loadAction Demo.ctx "e.json" Demo.w0).1
    = Ok (message info "Archive 'e.json' loaded successfully.")
  ∧ sink_calls (trace (after (loadAction Demo.ctx "e.json") Demo.w0)) = [].
Proof. split; [|split]; vm_compute; reflexivity. Qed.

(** [h.json] holds a [history] array and nothing else. *)
Lemma legacy_history_only_witness :
  let w := Demo.w0 in
  let w1 := after (getArchivesDir Demo.cfg) w in
  let w2 := after (fs_readFile "/t/archives/h.json") w1 in
  let v := JArr [JStr "hello"] in
  (getArchivesDir Demo.cfg w = (Ok (Some "/t/archives"), w1)
   ∧ selectedFile "h.json" = "h.json"
   ∧ Js.endsWith "h.json" ".tar.gz" = false
   ∧ fs_readFile (Path.join "/t/archives" "h.json") w1 = (Ok "HISTORY", w2)
   ∧ JSON_parse "HISTORY" = Some (JObj [("history", v)])
   ∧ json_truthy v = true)
  ∧ ∃ r w',
      loadAction Demo.ctx "h.json" w = (Ok r, w')
      ∧ sink_calls (trace w') = sink_calls (trace w) ++ [EvLoadHistory v].
Proof.
  intros w w1 w2 v.
  assert (getArchivesDir Demo.cfg w = (Ok (Some "/t/archives"), w1)) as H1
    by (vm_compute; reflexivity).
  assert (selectedFile "h.json" = "h.json") as H2 by (vm_compute; reflexivity).
  assert (Js.endsWith "h.json" ".tar.gz" = false) as H3 by (vm_compute; reflexivity).
  assert (fs_readFile (Path.join "/t/archives" "h.json") w1 = (Ok "HISTORY", w2))
    as H4 by (vm_compute; reflexivity).
  assert (JSON_parse "HISTORY" = Some (JObj [("history", v)])) as H5
    by (vm_compute; reflexivity).
  assert (json_truthy v = true) as H6 by reflexivity.
  clearbody w2 w1 w.
  split; [exact (conj H1 (conj H2 (conj H3 (conj H4 (conj H5 H6)))))|].
  destruct (legacy_history_only Demo.ctx Demo.cfg "h.json" w "/t/archives" w1
              "h.json" "HISTORY" w2 [("history", v)] v
              eq_refl H1 H2 eq_refl H3 H4 H5 eq_refl H6 eq_refl)
    as (r & w' & Hrun & Hsinks).
  exists r, w'. split; [exact Hrun|]. exact (proj1 Hsinks).
Defined.

(** *** The selected path, run *)

(** [../secret.json] is read from the project's temporary directory,
    next to the archives directory. *)
Lemma selected_path_not_confined_witness :
  let w := Demo.w0 in
  let w1 := after (getArchivesDir Demo.cfg) w in
  (getArchivesDir Demo.cfg w = (Ok (Some "/t/archives"), w1)
   ∧ selectedFile "../secret.json" = "../secret.json"
   ∧ Js.endsWith "../secret.json" ".tar.gz" = false)
  ∧ (∃ r w' rest,
       loadAction Demo.ctx "../secret.json" w = (Ok r, w')
       ∧ trace w' = trace w1 ++ EvReadFile "/t/secret.json" :: rest)
  ∧ Path.resolve (Path.join "/t/archives" "../secret.json")
    = ["t"; "secret.json"]
  ∧ ¬ Path.resolve "/t/archives"
      `prefix_of` Path.resolve (Path.join "/t/archives" "../secret.json").
Proof.
  intros w w1.
  assert (getArchivesDir Demo.cfg w = (Ok (Some "/t/archives"), w1)) as H1
    by (vm_compute; reflexivity).
  assert (selectedFile "../secret.json" = "../secret.json") as H2
    by (vm_compute; reflexivity).
  assert (Js.endsWith "../secret.json" ".tar.gz" = false) as H3
    by (vm_compute; reflexivity).
  assert (Path.is_simple "secret.json" = true) as H4 by (vm_compute; reflexivity).
  clearbody w1 w.
  split; [exact (conj H1 (conj H2 H3))|].
  destruct (selected_path_not_confined Demo.ctx Demo.cfg "../secret.json" w
              "/t/archives" w1 "../secret.json" eq_refl H1 H2 eq_refl)
    as (Hlegacy & _ & _ & Hup).
  destruct (Hup "secret.json" H4 eq_refl) as [Hres Hout].
  split; [exact (Hlegacy H3)|]. split; [exact Hres|].
  apply (Hout ["t"] "archives"); [reflexivity|discriminate].
Defined.

(* ===================================================================== *)
(** * Further properties of the two commands *)
(* ===================================================================== *)

(** ** The arguments of the load command *)

Lemma parts_app (a b : string) :
  parts (a +:+ " " +:+ b) = parts a ++ parts b.
Proof.
  unfold parts. rewrite sapp_cons, sapp_nil_l.
  change (String " " b) with (String Js.space b).
  by rewrite split_app, filter_app.
Qed.

Lemma parts_token (t : string) :
  t ≠ EmptyString → Js.has_char Js.space t = false → parts t = [t].
Proof.
  intros Ht Hs. unfold parts. rewrite split_no_sep by done.
  rewrite filter_cons_True by done. done.
Qed.

Lemma parts_join (tokens : list string) :
  Forall (λ t, t ≠ EmptyString ∧ Js.has_char Js.space t = false) tokens →
  parts (Js.join " " tokens) = tokens.
Proof.
  induction tokens as [|x [|y r] IH]; intros Hall.
  - done.
  - apply Forall_inv in Hall as [? ?]. by apply parts_token.
  - apply Forall_cons in Hall as [[? ?] Hall].
    change (Js.join " " (x :: y :: r)) with (x +:+ " " +:+ Js.join " " (y :: r)).
    rewrite parts_app, IH, parts_token by done. done.
Qed.

(** X1: the argument string of [/load] is cut at spaces and empty pieces
    are dropped, so runs of spaces and spaces at either end never make a
    token; for tokens joined by single spaces, the selected file is the
    first token unless it starts with [--] (then none is selected), and
    the force flag is set exactly when [--force] is one of the tokens,
    at any position. *)
Theorem load_arguments (tokens : list string) :
  Forall (λ t, t ≠ EmptyString ∧ Js.has_char Js.space t = false) tokens →
  (∀ blanks, parts (Js.repeat_char Js.space blanks) = [])
  ∧ (∀ a b, parts (a +:+ " " +:+ b) = parts a ++ parts b)
  ∧ parts (Js.join " " tokens) = tokens
  ∧ selectedFile (Js.join " " tokens)
    = match tokens with
      | t :: _ => if Js.startsWith t "--" then EmptyString else t
      | [] => EmptyString
      end
  ∧ forceConfirm (Js.join " " tokens) = bool_decide ("--force" ∈ tokens).
Proof.
  intros Hall. split; [|split; [exact parts_app|]].
  - induction blanks as [|n IH]; [done|].
    change (Js.repeat_char Js.space (S n))
      with (EmptyString +:+ " " +:+ Js.repeat_char Js.space n).
    by rewrite parts_app, IH.
  - pose proof (parts_join _ Hall) as Hp. split; [done|]. split.
    + unfold selectedFile. rewrite Hp. by destruct tokens.
    + unfold forceConfirm. by rewrite Hp.
Qed.

(** [x.tar.gz --force]: the file and the flag. *)
Lemma load_arguments_witness :
  Forall (λ t, t ≠ EmptyString ∧ Js.has_char Js.space t = false)
         ["x.tar.gz"; "--force"]
  ∧ selectedFile "x.tar.gz --force" = "x.tar.gz"
  ∧ forceConfirm "x.tar.gz --force" = true.
Proof.
  assert (Forall (λ t, t ≠ EmptyString ∧ Js.has_char Js.space t = false)
                 ["x.tar.gz"; "--force"]) as Hall.
  { repeat constructor; discriminate. }
  split; [exact Hall|].
  destruct (load_arguments _ Hall) as (_ & _ & _ & Hsel & Hforce).
  split; [exact Hsel | exact Hforce].
Defined.

Section LoadArguments.
Context `{Platform}.

(** X2: when the first token of the arguments starts with [--], the
    load handler drops the file name and lists the archives, exactly as
    it does with no argument at all, whatever follows the flag. *)
Theorem flag_first_lists ctx (flag rest : string) w :
  Js.startsWith flag "--" = true →
  Js.has_char Js.space flag = false →
  selectedFile (flag +:+ " " +:+ rest) = EmptyString
  ∧ loadAction ctx (flag +:+ " " +:+ rest) w = loadAction ctx EmptyString w.
Proof.
  intros Hflag Hsp.
  assert (selectedFile (flag +:+ " " +:+ rest) = EmptyString) as Hsel.
  { unfold selectedFile. rewrite parts_app, parts_token; [|by destruct flag|done].
    change (default EmptyString (head ([flag] ++ parts rest))) with flag.
    by rewrite Hflag. }
  split; [done|]. unfold loadAction. rewrite Hsel.
  change (selectedFile EmptyString) with EmptyString. 
  destruct (config ctx); [|done]. unfold bind.
  destruct (getArchivesDir _ w) as [[d|] ?]; [|done].
  by destruct (truthy_string d).
Qed.

(** X23: the load handler depends on its argument string only through
    the selected file and, for a [.tar.gz] name, the force flag: further
    tokens are ignored, and [--force] changes nothing for a listing or a
    legacy file. *)
Theorem load_reads_two_things ctx (args args' : string) w :
  selectedFile args = selectedFile args' →
  (Js.endsWith (selectedFile args) ".tar.gz" = true →
   forceConfirm args = forceConfirm args') →
  loadAction ctx args w = loadAction ctx args' w.
Proof.
  intros Hsel Hforce. unfold loadAction. rewrite <- Hsel.
  destruct (config ctx) as [cfg|]; [|done]. unfold bind.
  destruct (getArchivesDir _ w) as [[d|] w1]; [|done].
  destruct (truthy_string d) as [dir|]; [|done]. cbv zeta.
  destruct (negb (Js.truthy (selectedFile args))); [done|].
  unfold loadSelected.
  destruct (Js.endsWith (selectedFile args) ".tar.gz") eqn:E; [|done].
  by rewrite (Hforce eq_refl).
Qed.
End LoadArguments.

(** [--force x.tar.gz] lists, as no argument does. *)
Lemma flag_first_lists_witness :
  (Js.startsWith "--force" "--" = true
   ∧ Js.has_char Js.space "--force" = false)
  ∧ loadAction Demo.ctx "--force x.tar.gz" Demo.w0
    = loadAction Demo.ctx EmptyString Demo.w0.
Proof.
  split; [split; reflexivity|].
  exact (proj2 (flag_first_lists Demo.ctx "--force" "x.tar.gz" Demo.w0
                  eq_refl eq_refl)).
Defined.

(** ** The guards and the archives directory *)

Lemma io_calm {A} (ev : event)
    (run : gmap (list string) node → outcome A * gmap (list string) node)
    (w : world) :
  (∀ e, head (faults w) ≠ Some (Some e)) →
  ∃ w', io ev run w = ((run (fs w)).1, w') ∧ fs w' = (run (fs w)).2.
Proof.
  intros Hcalm. unfold io. destruct (head (faults w)) as [[e|]|] eqn:E.
  - by destruct (Hcalm e).
  - destruct (run (fs w)); eauto.
  - destruct (run (fs w)); eauto.
Qed.

Lemma io_inv {A} (ev : event)
    (run : gmap (list string) node → outcome A * gmap (list string) node)
    (w : world) r w' :
  io ev run w = (r, w') →
  (fs w' = fs w ∧ ∃ e, r = Thrown e) ∨ run (fs w) = (r, fs w').
Proof.
  unfold io. destruct (head (faults w)) as [[e|]|];
    [intros [= <- <-]; left; by eauto|..];
    destruct (run (fs w)) as [r' t] eqn:E; intros [= <- <-]; by right.
Qed.

Section Guards.
Context `{Platform}.

(** X3: without a configuration, or with a project temporary directory
    that is undefined or the empty string, the two handlers answer with
    a fixed error message and the completion provider with the empty
    list, and none of them calls the filesystem, the archiver or the
    UI: the world is left as it was. *)
Theorem unconfigured_handlers ctx args w :
  (∀ cfg, config ctx = Some cfg →
          truthy_string (getProjectTempDir cfg) = None) →
  let c := match config ctx with
           | Some _ => "Could not determine the .gemini directory path."
           | None => "Configuration not available."
           end in
  loadAction ctx args w = (Ok (message error c), w)
  ∧ saveAction ctx args w = (Ok (message error c), w)
  ∧ completion ctx args w = (Ok [], w).
Proof.
  intros Hno. unfold loadAction, saveAction, completion.
  destruct (config ctx) as [cfg|]; [|done].
  unfold getArchivesDir. rewrite (Hno cfg eq_refl). done.
Qed.

Lemma getArchivesDir_again cfg tmp w :
  truthy_string (getProjectTempDir cfg) = Some tmp →
  Fs.wf (fs w) →
  Fs.lookup_node (fs w) (Path.resolve (Path.join tmp ARCHIVES_DIR_NAME))
  = Some Dir →
  (∀ e, head (faults w) ≠ Some (Some e)) →
  ∃ w2, getArchivesDir cfg w
        = (Ok (Some (Path.join tmp ARCHIVES_DIR_NAME)), w2)
        ∧ fs w2 = fs w ∧ faults w2 = tail (faults w).
Proof.
  intros Htmp Hwf Hdir Hcalm. unfold getArchivesDir. rewrite Htmp. cbv zeta.
  destruct (io_calm (EvMkdir (Path.join tmp ARCHIVES_DIR_NAME))
              (Fs.mkdir_p (Path.resolve (Path.join tmp ARCHIVES_DIR_NAME)))
              w Hcalm) as (w2 & Hio & Hfs).
  rewrite (mkdir_p_id _ _ Hwf Hdir) in Hio, Hfs. simpl in Hio, Hfs.
  exists w2. split; [|split; [done|]].
  - unfold bind, fs_mkdir. by rewrite Hio.
  - by apply io_frame in Hio as (_ & ? & _).
Qed.

(** X4: when [getArchivesDir] returns a path, that path is a directory
    afterwards; what was in the tree before is still there, unchanged,
    and the only additions are directories on the way to it; and a
    second call, when it is not made to fail, returns the same path and
    changes nothing. *)
Theorem getArchivesDir_ensures cfg w dir w1 :
  getArchivesDir cfg w = (Ok (Some dir), w1) →
  Fs.wf (fs w) →
  Fs.lookup_node (fs w1) (Path.resolve dir) = Some Dir
  ∧ Fs.wf (fs w1)
  ∧ (∀ k n, fs w !! k = Some n → fs w1 !! k = Some n)
  ∧ (∀ k, ¬ k `prefix_of` Path.resolve dir → fs w1 !! k = fs w !! k)
  ∧ ((∀ e, head (faults w1) ≠ Some (Some e)) →
     ∃ w2, getArchivesDir cfg w1 = (Ok (Some dir), w2) ∧ fs w2 = fs w1).
Proof.
  intros Hdir Hwf.
  pose proof (getArchivesDir_keeps_wf _ _ _ _ Hdir Hwf) as Hwf1.
  destruct (getArchivesDir_Some _ _ _ _ Hdir) as (tmp & Htmp & -> & Hmk).
  pose proof (io_ok _ _ _ _ _ Hmk) as Hrun.
  pose proof (mkdir_p_made _ _ _ Hrun) as Hmade.
  destruct (mkdir_p_ok _ _ _ Hrun) as [Hnf Hl].
  split; [done|]. split; [done|]. split; [|split].
  - intros k n Hk. rewrite Hl. destruct (decide _) as [Hin|]; [|done].
    specialize (Hnf _ Hin). apply prefixes_spec in Hin as [Hne _].
    unfold Fs.is_file in Hnf. rewrite lookup_node_ne, Hk in Hnf by done.
    by destruct n.
  - intros k Hk. rewrite Hl, decide_False; [done|].
    by intros [_ ?]%prefixes_spec.
  - intros Hcalm.
    destruct (getArchivesDir_again cfg tmp w1 Htmp Hwf1 Hmade Hcalm)
      as (w2 & Hagain & Hfs & _).
    by exists w2.
Qed.
End Guards.

(** ** The metadata store *)

Lemma record_of_json_of_record (m : ArchiveMetadata) :
  record_of_json (json_of_record m) = Some m.
Proof. by destruct m. Qed.

Lemma metadata_of_json_of_metadata (l : list ArchiveMetadata) :
  metadata_of_json (json_of_metadata l) = Some l.
Proof.
  unfold metadata_of_json, json_of_metadata. apply mapM_Some.
  induction l as [|m l IH]; [constructor|].
  constructor; [apply record_of_json_of_record|done].
Qed.

Section Store.
Context `{Platform}.

(** A store file with a list of records is read as that list. *)
Lemma readArchiveMetadata_file dir w data v l :
  (∀ e, head (faults w) ≠ Some (Some e)) →
  fs w !! (Path.resolve dir ++ [ARCHIVE_METADATA_FILE]) = Some (File data) →
  JSON_parse data = Some v →
  metadata_of_json v = Some l →
  ∃ w', readArchiveMetadata dir w = (Ok l, w') ∧ fs w' = fs w.
Proof.
  intros Hcalm Hfile Hparse Hl.
  destruct (io_calm (EvReadFile (Path.join dir ARCHIVE_METADATA_FILE))
              (pure_read (Fs.read_file
                            (Path.resolve (Path.join dir ARCHIVE_METADATA_FILE))))
              w Hcalm) as (w' & Hio & Hfs).
  exists w'. split; [|done].
  unfold readArchiveMetadata, try_catch, bind. cbv zeta.
  unfold fs_readFile. rewrite Hio. unfold pure_read. cbn [fst].
  unfold Fs.read_file.
  rewrite (resolve_join_simple _ ARCHIVE_METADATA_FILE eq_refl),
    lookup_node_snoc, Hfile.
  unfold parse. rewrite Hparse. simpl. by rewrite Hl.
Qed.

(** X5: reading the store when the call is not made to fail: a store
    file that is not there reads as the empty list, without an error,
    unless a regular file lies on the way to it: then the read throws
    [ENOTDIR], which is not caught; a directory in its place makes the
    read throw [EISDIR]; a file that is not JSON makes it throw a
    [SyntaxError]; a file that holds a list of records gives that
    list.  The tree is never changed. *)
Theorem store_read_outcomes dir w :
  (∀ e, head (faults w) ≠ Some (Some e)) →
  let store := Path.resolve (Path.join dir ARCHIVE_METADATA_FILE) in
  ∃ w', fs w' = fs w
    ∧ match Fs.lookup_node (fs w) store with
      | None =>
          ((∀ q, q `prefix_of` store → Fs.is_file (fs w) q = false) →
           readArchiveMetadata dir w = (Ok [], w'))
          ∧ ((∃ q, q `prefix_of` store ∧ Fs.is_file (fs w) q = true) →
             readArchiveMetadata dir w
             = (Thrown (SystemError "ENOTDIR" "open"), w'))
      | Some Dir =>
          readArchiveMetadata dir w
          = (Thrown (SystemError "EISDIR" "read"), w')
      | Some (File data) =>
          match JSON_parse data with
          | None => ∃ m, readArchiveMetadata dir w = (Thrown (SyntaxError m), w')
          | Some v =>
              ∀ l, metadata_of_json v = Some l →
                   readArchiveMetadata dir w = (Ok l, w')
          end
      end.
Proof.
  intros Hcalm store.
  destruct (io_calm (EvReadFile (Path.join dir ARCHIVE_METADATA_FILE))
              (pure_read (Fs.read_file store))
              w Hcalm) as (w' & Hio & Hfs).
  exists w'. split; [done|].
  unfold readArchiveMetadata, try_catch, bind. cbv zeta.
  unfold fs_readFile. fold store. rewrite Hio. unfold pure_read. cbn [fst].
  unfold Fs.read_file.
  destruct (Fs.lookup_node _ _) as [[data|]|]; [|done|].
  - unfold parse. destruct (JSON_parse data) as [v|].
    + intros l Hl. simpl. by rewrite Hl.
    + simpl. eauto.
  - unfold Fs.lookup_error. split.
    + intros Hno.
      destruct (existsb _ _) eqn:Hex; [|done].
      apply existsb_exists in Hex
        as (q & [_ Hq]%list_elem_of_In%prefixes_spec & Hf).
      by rewrite (Hno q Hq) in Hf.
    + intros (q & Hq & Hf).
      assert (existsb (Fs.is_file (fs w)) (Fs.prefixes store) = true) as ->.
      { apply existsb_exists. exists q. split; [|done].
        apply list_elem_of_In, prefixes_spec. split; [|done].
        intros ->. done. }
      done.
Qed.

(** X6: what [writeArchiveMetadata] has stored, [readArchiveMetadata]
    reads back from the same directory, for every list of records that
    the JSON codec itself takes there and back. *)
Theorem store_round_trip dir l w w1 :
  writeArchiveMetadata dir l w = (Ok (), w1) →
  JSON_parse (JSON_stringify (json_of_metadata l)) = Some (json_of_metadata l) →
  (∀ e, head (faults w1) ≠ Some (Some e)) →
  ∃ w2, readArchiveMetadata dir w1 = (Ok l, w2) ∧ fs w2 = fs w1.
Proof.
  intros Hwr Hcodec Hcalm.
  apply io_ok, write_file_ok in Hwr as (Hfs & Hne & _).
  rewrite (resolve_join_simple _ ARCHIVE_METADATA_FILE eq_refl) in Hfs.
  eapply (readArchiveMetadata_file dir w1); [done| |exact Hcodec|].
  - by rewrite Hfs, lookup_insert_eq.
  - apply metadata_of_json_of_metadata.
Qed.
End Store.

(** ** What a save may change *)

Global Instance only_changes_refl S : Reflexive (only_changes S).
Proof. by intros w k _. Qed.

Global Instance only_changes_trans S : Transitive (only_changes S).
Proof. intros w1 w2 w3 H1 H2 k Hk. by rewrite H2, H1. Qed.

Lemma io_only_changes {A} (S : list string → Prop) (ev : event)
    (run : gmap (list string) node → outcome A * gmap (list string) node) :
  (∀ t o t' k, run t = (o, t') → ¬ S k → t' !! k = t !! k) →
  along (only_changes S) (io ev run).
Proof.
  intros Hrun w r w' [Hfs|[r' Hr]]%io_tree k Hk; [by rewrite Hfs|].
  by eapply Hrun.
Qed.

Lemma same_tree_only_changes {A} (S : list string → Prop) (m : M A) :
  along same_tree m → along (only_changes S) m.
Proof. intros Hm w r w' Hrun k _. by rewrite (Hm _ _ _ Hrun). Qed.

(** Goals [along P m], by the structure of [m], with [tac] for the
    calls. *)
Ltac along_by tac :=
  repeat (intros; first
    [ tac
    | apply along_ret | apply along_throw | apply along_lift
    | apply along_bind | apply along_try_catch | apply along_try_finally
    | apply along_for_of
    | lazymatch goal with
      | |- Reflexive _ => apply _
      | |- Transitive _ => apply _
      | |- along _ (match ?x with _ => _ end) => destruct x
      | |- along _ (if ?x then _ else _) => destruct x
      end
    | progress cbv zeta ]).

Section SaveFrame.
Context `{Platform}.

Lemma tar_create_only_changes file cwd filter :
  along (only_changes (λ k, k = Path.resolve file)) (tar_create file cwd filter).
Proof.
  intros w o w' [Hfs|(d & Hfs & _)]%tar_create_tree k Hk; rewrite Hfs; [done|].
  by rewrite lookup_insert_ne.
Qed.

Lemma fs_writeFile_only_changes p data :
  along (only_changes (λ k, k = Path.resolve p)) (fs_writeFile p data).
Proof.
  apply io_only_changes. intros t o t' k Hrun Hk.
  destruct o as [[]|e].
  - apply write_file_ok in Hrun as (-> & _). by rewrite lookup_insert_ne.
  - by apply write_file_thrown in Hrun as ->.
Qed.

Lemma only_changes_mono {A} (S S' : list string → Prop) (m : M A) :
  (∀ k, S k → S' k) → along (only_changes S) m → along (only_changes S') m.
Proof. intros HS Hm w r w' Hrun k Hk. apply (Hm _ _ _ Hrun). auto. Qed.

Lemma readArchiveMetadata_same_tree dir : along same_tree (readArchiveMetadata dir).
Proof. intros w r w' Hrun. by apply readArchiveMetadata_frame in Hrun as [? _]. Qed.

(** X7: whatever the outcome, a save changes nothing outside the
    archives directory except for creating missing directories on the
    way to it, and inside the archives directory it changes at most two
    entries: the archive of this save and the metadata store.  No file
    of the project is modified or removed. *)
Theorem save_changes_only_archives ctx cfg tmp args w r w' :
  config ctx = Some cfg →
  truthy_string (getProjectTempDir cfg) = Some tmp →
  saveAction ctx args w = (r, w') →
  let D := Path.resolve (Path.join tmp ARCHIVES_DIR_NAME) in
  ∀ k, fs w' !! k = fs w !! k
       ∨ (fs w !! k = None ∧ fs w' !! k = Some Dir ∧ k `prefix_of` D)
       ∨ k = D ++ [archiveFileName cfg (now w)]
       ∨ k = D ++ [ARCHIVE_METADATA_FILE].
Proof.
  intros Hcfg Htmp Hrun D k.
  unfold saveAction in Hrun. rewrite Hcfg in Hrun.
  destruct (fs_mkdir (Path.join tmp ARCHIVES_DIR_NAME) w) as [[[]|e] w1] eqn:Emk.
  2:{ assert (getArchivesDir cfg w = (Thrown e, w1)) as Hgad.
      { unfold getArchivesDir. rewrite Htmp. cbv zeta.
        by rewrite (bind_thrown _ _ _ _ _ Emk). }
      rewrite (bind_thrown _ _ _ _ _ Hgad) in Hrun.
      injection Hrun as _ <-. left.
      apply io_inv in Emk as [[-> _]|Hr]; [done|].
      by apply mkdir_p_thrown in Hr as ->. }
  assert (getArchivesDir cfg w
          = (Ok (Some (Path.join tmp ARCHIVES_DIR_NAME)), w1)) as Hgad.
  { unfold getArchivesDir. rewrite Htmp. cbv zeta.
    by rewrite (bind_ok _ _ _ _ _ Emk). }
  rewrite (bind_ok _ _ _ _ _ Hgad), (getArchivesDir_truthy _ _ _ _ Hgad) in Hrun.
  unfold bind at 1, Date_now in Hrun.
  pose proof (io_frame _ _ _ _ _ Emk) as (_ & _ & Hnow & _). rewrite Hnow in Hrun.
  set (name := archiveFileName cfg (now w)) in *.
  apply io_ok, mkdir_p_ok in Emk as [Hnf Hl]. fold D in Hnf, Hl.
  destruct (decide (k = D ++ [name])) as [->|Hk1]; [by auto|].
  destruct (decide (k = D ++ [ARCHIVE_METADATA_FILE])) as [->|Hk2]; [by auto|].
  assert (fs w' !! k = fs w1 !! k) as ->.
  { revert Hrun.
    match goal with |- ?m w1 = _ → _ =>
      assert (along (only_changes (λ k, k = D ++ [name]
                                        ∨ k = D ++ [ARCHIVE_METADATA_FILE])) m)
        as Hbody
    end.
    { along_by ltac:(first
        [ apply same_tree_only_changes, io_sink_same_tree
        | apply same_tree_only_changes, readArchiveMetadata_same_tree
        | eapply only_changes_mono; [|apply tar_create_only_changes];
          intros ? ->; left; apply resolve_join_simple, archiveFileName_simple
        | eapply only_changes_mono; [|apply fs_writeFile_only_changes];
          intros ? ->; right; apply resolve_join_simple, metadata_file_simple ]). }
    intros Hrun. apply (Hbody _ _ _ Hrun). by intros [?|?]. }
  rewrite Hl. destruct (decide (k ∈ Fs.prefixes D)) as [Hin|]; [|by left].
  specialize (Hnf _ Hin). apply prefixes_spec in Hin as [Hne Hpre].
  unfold Fs.is_file in Hnf. rewrite lookup_node_ne in Hnf by done.
  destruct (fs w !! k) as [[]|]; [done|by left|by right; left].
Qed.
End SaveFrame.

(** ** Notices and sinks *)

Global Instance silent_refl : Reflexive silent.
Proof. by intros w. Qed.

Global Instance silent_trans : Transitive silent.
Proof. intros w1 w2 w3 H1 H2. unfold silent in *. congruence. Qed.

Global Instance no_history_refl : Reflexive no_history.
Proof. by intros w. Qed.

Global Instance no_history_trans : Transitive no_history.
Proof. intros w1 w2 w3 H1 H2. unfold no_history in *. congruence. Qed.

Lemma notices_app tr1 tr2 : notices (tr1 ++ tr2) = notices tr1 ++ notices tr2.
Proof. unfold notices. apply filter_app. Qed.

Lemma io_silent {A} (ev : event)
    (run : gmap (list string) node → outcome A * gmap (list string) node) :
  is_notice ev = false → along silent (io ev run).
Proof.
  intros Hev w r w' (Htr & _)%io_frame. unfold silent.
  rewrite Htr, notices_app. unfold notices at 2.
  rewrite filter_cons_False, filter_nil, app_nil_r; [done|by rewrite Hev].
Qed.

Lemma io_no_history {A} (ev : event)
    (run : gmap (list string) node → outcome A * gmap (list string) node) :
  is_sink_call ev = false → along no_history (io ev run).
Proof.
  intros Hev w r w' (Htr & _)%io_frame. unfold no_history.
  rewrite Htr, sink_calls_app. unfold sink_calls at 2.
  rewrite filter_cons_False, filter_nil, app_nil_r; [done|by rewrite Hev].
Qed.

Section Notices.
Context `{Platform}.

Lemma fs_mkdtemp_silent prefix : along silent (fs_mkdtemp prefix).
Proof.
  intros w r w' (o & Hio & _)%fs_mkdtemp_inv. revert Hio. by apply io_silent.
Qed.

Lemma parse_along (P : world → world → Prop) `{!Reflexive P} data :
  along P (parse data).
Proof.
  unfold parse. destruct (JSON_parse data); intros w r w' [= <- <-]; reflexivity.
Qed.

(** X8: the load handler and its completion provider never call
    [ui.addItem], and the save handler never calls a history sink,
    whatever their arguments and however they end. *)
Theorem handlers_keep_to_their_sinks ctx args :
  along silent (loadAction ctx args)
  ∧ along silent (completion ctx args)
  ∧ along no_history (saveAction ctx args).
Proof.
  split; [|split].
  - unfold loadAction, getArchivesDir, listArchives, loadSelected, loadJson,
      restoreArchive, clearProject, moveExtracted, readArchiveMetadata.
    along_by ltac:(first
      [ by apply io_silent | apply fs_mkdtemp_silent | apply parse_along; apply _ ]).
  - unfold completion, getArchivesDir, readArchiveMetadata.
    along_by ltac:(first
      [ by apply io_silent | apply parse_along; apply _ ]).
  - unfold saveAction, getArchivesDir, readArchiveMetadata, writeArchiveMetadata.
    along_by ltac:(first
      [ by apply io_no_history | apply parse_along; apply _
      | by intros ? ? ? [= <- <-] ]).
Qed.

(** X9: a save that succeeds has called [ui.addItem] exactly twice, with
    the timestamp of the save: first to announce the archive it is about
    to create, last to confirm it, both naming the path that the answer
    names. *)
Theorem save_notices ctx cfg args w c w' :
  config ctx = Some cfg →
  saveAction ctx args w = (Ok (message info c), w') →
  ∃ dir, let path := Path.join dir (archiveFileName cfg (now w)) in
    notices (trace w')
    = notices (trace w)
      ++ [EvAddItem ("Creating archive: " +:+ path) (now w);
          EvAddItem ("Archive created successfully: " +:+ path) (now w)]
    ∧ Js.startsWith c ("Archive created at: " +:+ path) = true.
Proof.
  intros Hcfg Hrun. unfold saveAction in Hrun. rewrite Hcfg in Hrun.
  step Hrun. destruct (truthy_string r) as [dir|] eqn:Hdir; [|done].
  step Hrun. unfold Date_now in E0. injection E0 as <- <-.
  step Hrun. injection Hrun as -> ->.
  step E0. step E0. step E0. step E0. step E0. injection E0 as <- <-.
  exists dir. cbv zeta.
  apply getArchivesDir_frame in E as Hfr. destruct Hfr as (Hnow0 & _).
  rewrite Hnow0 in *.
  assert (silent w w0) as Hs0.
  { revert E. unfold getArchivesDir. 
    assert (along silent (getArchivesDir cfg)) as Hg.
    { unfold getArchivesDir. along_by ltac:(by apply io_silent). }
    apply Hg. }
  pose proof (io_frame _ _ _ _ _ E1) as (Htr1 & _).
  assert (silent w1 w4) as Hs14.
  { trans w2.
    - assert (along silent (readArchiveMetadata dir)) as Hg.
      { unfold readArchiveMetadata.
        along_by ltac:(first [by apply io_silent | apply parse_along; apply _]). }
      exact (Hg _ _ _ E2).
    - trans w3; (eapply io_silent; [|eassumption]; reflexivity). }
  pose proof (io_frame _ _ _ _ _ E5) as (Htr5 & _).
  split.
  - rewrite Htr5, notices_app, Hs14, Htr1, notices_app, Hs0.
    by rewrite <- app_assoc.
  - apply startsWith_spec. eexists. reflexivity.
Qed.

(** X10: when the creation of the archive fails, the save handler
    answers with the error of the archiver, and the metadata store is
    not written: no [writeFile] call is made, and the entry of the
    store is as the resolution of the archives directory left it. *)
Theorem failed_archive_leaves_store ctx cfg args w dir w1 w2 existing w3 e w4 :
  config ctx = Some cfg →
  getArchivesDir cfg w = (Ok (Some dir), w1) →
  ui_addItem ("Creating archive: "
              +:+ Path.join dir (archiveFileName cfg (now w))) (now w) w1
  = (Ok (), w2) →
  readArchiveMetadata dir w2 = (Ok existing, w3) →
  tar_create (Path.join dir (archiveFileName cfg (now w)))
             (default "." (getProjectRoot cfg))
             (archiveFilter (allExcludes existing)) w3
  = (Thrown e, w4) →
  saveAction ctx args w
  = (Ok (message error ("An unexpected error occurred: " +:+ exn_toString e)),
     w4)
  ∧ fs w4 !! (Path.resolve dir ++ [ARCHIVE_METADATA_FILE])
    = fs w1 !! (Path.resolve dir ++ [ARCHIVE_METADATA_FILE])
  ∧ ∀ p d, EvWriteFile p d ∈ trace w4 → EvWriteFile p d ∈ trace w.
Proof.
  intros Hcfg Hdir Hadd Hread Htar.
  pose proof (getArchivesDir_truthy _ _ _ _ Hdir) as Htr.
  destruct (getArchivesDir_frame _ _ _ _ Hdir) as (Hnow & _).
  split; [|split].
  - unfold saveAction. rewrite Hcfg, (bind_ok _ _ _ _ _ Hdir), Htr.
    unfold bind at 1, Date_now. rewrite Hnow.
    erewrite try_catch_thrown; [done|].
    rewrite (bind_ok _ _ _ _ _ Hadd), (bind_ok _ _ _ _ _ Hread).
    cbv zeta. by rewrite (bind_thrown _ _ _ _ _ Htar).
  - rewrite (tar_create_only_changes _ _ _ _ _ _ Htar).
    + apply readArchiveMetadata_frame in Hread as [-> _].
      apply io_sink_same_tree in Hadd. by rewrite Hadd.
    + rewrite (resolve_join_simple _ _ (archiveFileName_simple cfg (now w))).
      intros E%app_inv_head. injection E as E.
      by apply (archiveFileName_not_store cfg (now w)).
  - intros p d. apply io_frame in Htar as (-> & _).
    apply readArchiveMetadata_frame in Hread as [_ ->].
    apply io_frame in Hadd as (-> & _).
    rewrite (getArchivesDir_trace _ _ _ _ Hdir).
    rewrite !elem_of_app, !list_elem_of_singleton.
    by intros [[[[?|?]|?]|?]|?].
Qed.
End Notices.

(** ** The catch boundary *)

Section Boundary.
Context `{Platform}.

(** X11: a handler or the completion provider throws exactly when the
    resolution of the archives directory throws, and then it throws
    that very exception; every failure after that point comes back as
    a value. *)
Theorem handlers_throw_only_from_directory ctx args w e w' :
  (loadAction ctx args w = (Thrown e, w')
   ↔ ∃ cfg, config ctx = Some cfg ∧ getArchivesDir cfg w = (Thrown e, w'))
  ∧ (saveAction ctx args w = (Thrown e, w')
     ↔ ∃ cfg, config ctx = Some cfg ∧ getArchivesDir cfg w = (Thrown e, w'))
  ∧ (completion ctx args w = (Thrown e, w')
     ↔ ∃ cfg, config ctx = Some cfg ∧ getArchivesDir cfg w = (Thrown e, w')).
Proof.
  split; [|split]; split.
  - intros Hrun.
    destruct (loadAction_catches ctx args w)
      as [(m & w1 & E)|(cfg & e1 & w1 & Hcfg & Hdir & E)]; [congruence|].
    exists cfg. split; [done|]. congruence.
  - intros (cfg & Hcfg & Hdir). unfold loadAction.
    by rewrite Hcfg, (bind_thrown _ _ _ _ _ Hdir).
  - intros Hrun.
    destruct (saveAction_catches ctx args w)
      as [(m & w1 & E)|(cfg & e1 & w1 & Hcfg & Hdir & E)]; [congruence|].
    exists cfg. split; [done|]. congruence.
  - intros (cfg & Hcfg & Hdir). unfold saveAction.
    by rewrite Hcfg, (bind_thrown _ _ _ _ _ Hdir).
  - intros Hrun.
    destruct (completion_catches ctx args w)
      as [(m & w1 & E)|(cfg & e1 & w1 & Hcfg & Hdir & E)]; [congruence|].
    exists cfg. split; [done|]. congruence.
  - intros (cfg & Hcfg & Hdir). unfold completion.
    by rewrite Hcfg, (bind_thrown _ _ _ _ _ Hdir).
Qed.

(** X12: when the metadata store cannot be read or parsed (any failure
    but a missing file), list mode answers with an [error] message that
    carries the text of the failure after "Error loading archives: ",
    and the completion provider returns the empty list. *)
Theorem unreadable_store ctx cfg args partialArg w dir w1 e w2 :
  config ctx = Some cfg →
  selectedFile args = EmptyString →
  getArchivesDir cfg w = (Ok (Some dir), w1) →
  readArchiveMetadata dir w1 = (Thrown e, w2) →
  loadAction ctx args w
  = (Ok (message error ("Error loading archives: " +:+ exn_toString e)), w2)
  ∧ completion ctx partialArg w = (Ok [], w2)
  ∧ exn_code e ≠ Some "ENOENT"
  ∧ fs w2 = fs w1.
Proof.
  intros Hcfg Hsel Hdir Hread.
  pose proof (getArchivesDir_truthy _ _ _ _ Hdir) as Htr.
  split; [|split; [|split]].
  - unfold loadAction. rewrite Hcfg, (bind_ok _ _ _ _ _ Hdir), Htr, Hsel.
    simpl. unfold listArchives. erewrite try_catch_thrown; [done|].
    by rewrite (bind_thrown _ _ _ _ _ Hread).
  - by eapply completion_read_failure.
  - unfold readArchiveMetadata, try_catch in Hread.
    match type of Hread with
    | context [bind ?m ?k w1] => destruct (bind m k w1) as [[l|e'] w1'] eqn:E
    end; [done|].
    destruct (decide (exn_code e' = Some "ENOENT")); [done|].
    by injection Hread as <- _.
  - by apply readArchiveMetadata_frame in Hread as [? _].
Qed.
End Boundary.

(** ** The listing *)

Lemma includes_app_l (p s sub : string) :
  Js.includes s sub → Js.includes (p +:+ s) sub.
Proof.
  intros (pre & post & ->). exists (p +:+ pre), post. by rewrite sapp_assoc.
Qed.

Section Listing.
Context `{Platform}.


Lemma renderArchives_from (acc : string) (l : list ArchiveMetadata) :
  fold_left (λ content archive, content +:+ archiveLine archive) l acc
  = acc +:+ foldr (λ archive rest, archiveLine archive +:+ rest) EmptyString l.
Proof.
  revert acc. induction l as [|a l IH]; intros acc; simpl.
  - by rewrite sapp_nil_r.
  - by rewrite IH, sapp_assoc.
Qed.

Lemma render_includes (l : list ArchiveMetadata) a :
  a ∈ l → Js.includes (renderArchives l) (archiveLine a).
Proof.
  intros Ha. unfold renderArchives. rewrite renderArchives_from.
  apply includes_app_l.
  induction l as [|b l IH]; [by apply elem_of_nil in Ha|].
  apply elem_of_cons in Ha as [->|Ha]; simpl.
  - exists EmptyString. eexists. by rewrite sapp_nil_l.
  - by apply includes_app_l, IH.
Qed.

(** X13: list mode over a store that reads and holds a record of the
    project answers with an [info] message that begins with the line
    "Available archives for the current project:" and an empty line,
    and that holds, for every record of the project in the store, the
    line [- <filename> (Created: <date>)], with [ - <description>]
    after it when the description is not empty, closed by a line feed;
    the date is the record's timestamp as the platform's locale writes
    it. *)
Theorem listing_lines ctx cfg args w dir w1 archives w2 :
  config ctx = Some cfg →
  selectedFile args = EmptyString →
  getArchivesDir cfg w = (Ok (Some dir), w1) →
  readArchiveMetadata dir w1 = (Ok archives, w2) →
  filterArchives cfg archives ≠ [] →
  ∃ c,
    loadAction ctx args w = (Ok (message info c), w2)
    ∧ string_prefix
        ("Available archives for the current project:" +:+ Js.nl +:+ Js.nl) c
    ∧ ∀ a, a ∈ archives →
        Js.startsWith (filename a) (projectName cfg +:+ "-archive-") = true →
        Js.includes c
          ("- " +:+ filename a +:+ " (Created: "
           +:+ toLocaleString (timestamp a) +:+ ")"
           +:+ (if decide (description a = EmptyString) then EmptyString
                else " - " +:+ description a)
           +:+ Js.nl).
Proof.
  intros Hcfg Hsel Hdir Hread Hsome.
  pose proof (getArchivesDir_truthy _ _ _ _ Hdir) as Htr.
  exists (renderArchives (Array_sort newest_first (filterArchives cfg archives))).
  split; [|split].
  - unfold loadAction. rewrite Hcfg, (bind_ok _ _ _ _ _ Hdir), Htr, Hsel. simpl.
    unfold listArchives. erewrite try_catch_ok; [done|].
    rewrite (bind_ok _ _ _ _ _ Hread).
    destruct (decide _) as [Hlen|]; [|done].
    by apply nil_length_inv in Hlen.
  - unfold renderArchives. rewrite renderArchives_from. by eexists.
  - intros a Ha Hpre.
    assert (archiveLine a
            = "- " +:+ filename a +:+ " (Created: "
              +:+ toLocaleString (timestamp a) +:+ ")"
              +:+ (if decide (description a = EmptyString) then EmptyString
                   else " - " +:+ description a)
              +:+ Js.nl) as <-.
    { unfold archiveLine. by destruct (description a). }
    apply render_includes. rewrite Array_sort_perm.
    by apply filterArchives_prefix.
Qed.
End Listing.

(** ** Reading without writing *)

Lemma calm_head w : calm w → ∀ e, head (faults w) ≠ Some (Some e).
Proof.
  unfold calm. destruct (faults w) as [|f l]; [done|].
  intros [-> _]%Forall_cons e. done.
Qed.

Lemma io_run_calm {A} (ev : event)
    (run : gmap (list string) node → outcome A * gmap (list string) node)
    (w : world) :
  calm w →
  ∃ w', io ev run w = ((run (fs w)).1, w') ∧ fs w' = (run (fs w)).2
        ∧ calm w' ∧ trace w' = trace w ++ [ev].
Proof.
  intros Hcalm.
  destruct (io_calm ev run w (calm_head _ Hcalm)) as (w' & Hio & Hfs).
  exists w'. split; [done|]. split; [done|].
  apply io_frame in Hio as (Htr & Hf & _). split; [|done].
  unfold calm in *. rewrite Hf. destruct (faults w); [done|].
  by apply Forall_cons in Hcalm as [_ ?].
Qed.

Section ReadOnly.
Context `{Platform}.

Lemma listArchives_same_tree cfg dir : along same_tree (listArchives cfg dir).
Proof.
  unfold listArchives.
  along_by ltac:(apply readArchiveMetadata_same_tree).
Qed.

Lemma loadJson_same_tree ctx cfg f filePath :
  along same_tree (loadJson ctx cfg f filePath).
Proof.
  unfold loadJson.
  along_by ltac:(first
    [ apply io_same_tree | apply io_sink_same_tree
    | apply parse_along; apply _ ]).
Qed.

(** X14: listing the archives, loading a legacy JSON file and
    completing a file name never write: the tree they leave is the one
    that the resolution of the archives directory left, however they
    end. *)
Theorem reads_leave_the_tree ctx cfg args partialArg w dir w1 :
  config ctx = Some cfg →
  getArchivesDir cfg w = (Ok (Some dir), w1) →
  (Js.endsWith (selectedFile args) ".tar.gz" = false →
   fs (after (loadAction ctx args) w) = fs w1)
  ∧ fs (after (completion ctx partialArg) w) = fs w1.
Proof.
  intros Hcfg Hdir.
  pose proof (getArchivesDir_truthy _ _ _ _ Hdir) as Htr.
  unfold after, loadAction, completion.
  rewrite Hcfg, !(bind_ok _ _ _ _ _ Hdir), Htr. split.
  - intros Hends. cbv zeta.
    destruct (negb (Js.truthy (selectedFile args))).
    + destruct (listArchives cfg dir w1) as [r w'] eqn:E.
      exact (listArchives_same_tree _ _ _ _ _ E).
    + unfold loadSelected. rewrite Hends.
      match goal with |- fs (?m w1).2 = _ => destruct (m w1) as [r w'] eqn:E end.
      revert E. apply (along_try_catch same_tree).
      * apply loadJson_same_tree.
      * intros e. apply along_ret. apply _.
  - match goal with |- fs (?m w1).2 = _ => destruct (m w1) as [r w'] eqn:E end.
    revert E. apply (along_try_catch same_tree).
    + along_by ltac:(apply readArchiveMetadata_same_tree).
    + intros e. apply along_ret. apply _.
Qed.

(** X15: the completion provider offers exactly the records of the
    current project, every one once, never an older one before a newer
    one, with the file name as label and as value and the description
    beside it; and it takes no account of what has been typed. *)
Theorem completion_candidates ctx cfg partialArg w dir w1 archives w2 :
  config ctx = Some cfg →
  getArchivesDir cfg w = (Ok (Some dir), w1) →
  readArchiveMetadata dir w1 = (Ok archives, w2) →
  (∃ shown,
     completion ctx partialArg w
     = (Ok (map (λ a, {| Candidate.label := filename a;
                         Candidate.value := filename a;
                         Candidate.description := description a |}) shown),
        w2)
     ∧ shown ≡ₚ filterArchives cfg archives
     ∧ StronglySorted newer_or_same shown)
  ∧ ∀ typed, completion ctx typed w = completion ctx partialArg w.
Proof.
  intros Hcfg Hdir Hread.
  pose proof (getArchivesDir_truthy _ _ _ _ Hdir) as Htr.
  split; [|done].
  exists (Array_sort newest_first (filterArchives cfg archives)).
  split; [|split; [apply Array_sort_perm|apply Array_sort_sorted]].
  unfold completion. rewrite Hcfg, (bind_ok _ _ _ _ _ Hdir), Htr.
  erewrite try_catch_ok; [done|]. by rewrite (bind_ok _ _ _ _ _ Hread).
Qed.
End ReadOnly.

(** ** The legacy files *)

Section Legacy.
Context `{Platform}.

(** X16: a legacy file that parses to an object, loaded where the UI
    sink is there and no call is made to fail: the handler reports
    success; a truthy [history] goes to the UI sink, then a truthy
    [clientHistory] goes to the chat client when there is one, each
    once and in that order; a [clientHistory] with no chat client is
    dropped without a word; nothing is written. *)
Theorem legacy_sinks ctx cfg args w dir w1 f data w2 fields :
  config ctx = Some cfg →
  getArchivesDir cfg w = (Ok (Some dir), w1) →
  selectedFile args = f →
  Js.truthy f = true →
  Js.endsWith f ".tar.gz" = false →
  fs_readFile (Path.join dir f) w1 = (Ok data, w2) →
  JSON_parse data = Some (JObj fields) →
  loadHistory ctx = true →
  calm w2 →
  ∃ w',
    loadAction ctx args w
    = (Ok (message info ("Archive '" +:+ f +:+ "' loaded successfully.")), w')
    ∧ sink_calls (trace w')
      = sink_calls (trace w)
        ++ match lookup_field "history" fields with
           | Some v => if json_truthy v then [EvLoadHistory v] else []
           | None => []
           end
        ++ match lookup_field "clientHistory" fields with
           | Some v =>
               if json_truthy v && getGeminiClient cfg
               then [EvSetHistory v] else []
           | None => []
           end
    ∧ fs w' = fs w1.
Proof.
  intros Hcfg Hdir Hsel Hf Hends Hread Hparse Hui Hcalm.
  pose proof (getArchivesDir_truthy _ _ _ _ Hdir) as Htr.
  pose proof (getArchivesDir_trace _ _ _ _ Hdir) as Htr1.
  pose proof (io_frame _ _ _ _ _ Hread) as (Htr2 & _).
  pose proof (io_read_tree _ _ _ _ _ Hread) as Hfs2.
  assert (sink_calls (trace w2) = sink_calls (trace w)) as Hs2.
  { rewrite Htr2, Htr1, !sink_calls_app. simpl. by rewrite !app_nil_r. }
  unfold loadAction. rewrite Hcfg, (bind_ok _ _ _ _ _ Hdir), Htr, Hsel, Hf.
  simpl. unfold loadSelected, try_catch. rewrite Hends.
  unfold loadJson. rewrite (bind_ok _ _ _ _ _ Hread).
  unfold parse. rewrite Hparse. unfold bind at 1, ret at 1.
  simpl json_get. unfold bind at 1, lift_outcome at 1, ret at 1. rewrite Hui.
  cbn [lift_outcome negb].
  (* the part after the UI sink, from any calm world with the same tree *)
  assert (∀ wa, calm wa → fs wa = fs w1 →
            ∃ w',
              bind (ret (lookup_field "clientHistory" fields))
                (λ clientHistory,
                   bind match clientHistory with
                        | Some v =>
                            if json_truthy v && getGeminiClient cfg
                            then client_setHistory v else ret ()
                        | None => ret ()
                        end
                        (λ _, ret (message info
                                     ("Archive '" +:+ f
                                      +:+ "' loaded successfully."))))
                wa
              = (Ok (message info ("Archive '" +:+ f +:+ "' loaded successfully.")),
                 w')
              ∧ sink_calls (trace w')
                = sink_calls (trace wa)
                  ++ match lookup_field "clientHistory" fields with
                     | Some v =>
                         if json_truthy v && getGeminiClient cfg
                         then [EvSetHistory v] else []
                     | None => []
                     end
              ∧ fs w' = fs w1) as Hrest.
  { intros wa Hca Hfa. unfold bind at 1, ret at 1.
    destruct (lookup_field "clientHistory" fields) as [v|].
    - destruct (json_truthy v && getGeminiClient cfg).
      + destruct (io_run_calm (EvSetHistory v) (λ t, (Ok (), t)) wa Hca)
          as (w' & Hio & Hfs & _ & Htr').
        exists w'. unfold bind, client_setHistory. rewrite Hio. simpl.
        split; [done|]. split; [|by rewrite Hfs].
        by rewrite Htr', sink_calls_app.
      + exists wa. unfold bind, ret. by rewrite app_nil_r.
    - exists wa. unfold bind, ret. by rewrite app_nil_r. }
  destruct (lookup_field "history" fields) as [v|].
  - destruct (json_truthy v).
    + destruct (io_run_calm (EvLoadHistory v) (λ t, (Ok (), t)) w2 Hcalm)
        as (w3 & Hio & Hfs & Hc3 & Htr3). simpl in Hio, Hfs.
      unfold bind at 1, ui_loadHistory. rewrite Hio.
      destruct (Hrest w3 Hc3) as (w' & Hrun & Hs & Hfs'); [congruence|].
      exists w'. rewrite Hrun. split; [done|]. split; [|done].
      by rewrite Hs, Htr3, sink_calls_app, Hs2, <- app_assoc.
    + destruct (Hrest w2 Hcalm Hfs2) as (w' & Hrun & Hs & Hfs').
      exists w'. rewrite Hrun. split; [done|]. split; [|done].
      by rewrite Hs, Hs2.
  - destruct (Hrest w2 Hcalm Hfs2) as (w' & Hrun & Hs & Hfs').
    exists w'. rewrite Hrun. split; [done|]. split; [|done].
    by rewrite Hs, Hs2.
Qed.

(** X17: a legacy file that cannot be read, is not JSON, or holds
    [null], makes the handler answer with an [error] message that names
    the file and carries the text of the failure; no history sink is
    called and nothing is written. *)
Theorem legacy_unreadable ctx cfg args w dir w1 f o w2 :
  config ctx = Some cfg →
  getArchivesDir cfg w = (Ok (Some dir), w1) →
  selectedFile args = f →
  Js.truthy f = true →
  Js.endsWith f ".tar.gz" = false →
  fs_readFile (Path.join dir f) w1 = (o, w2) →
  match o with
  | Thrown _ => True
  | Ok data => JSON_parse data = None ∨ JSON_parse data = Some JNull
  end →
  ∃ text,
    loadAction ctx args w
    = (Ok (message error ("Error loading archive " +:+ f +:+ ": " +:+ text)), w2)
    ∧ (∀ e, o = Thrown e → text = exn_toString e)
    ∧ sink_calls (trace w2) = sink_calls (trace w)
    ∧ fs w2 = fs w1.
Proof.
  intros Hcfg Hdir Hsel Hf Hends Hread Hbad.
  pose proof (getArchivesDir_truthy _ _ _ _ Hdir) as Htr.
  pose proof (getArchivesDir_trace _ _ _ _ Hdir) as Htr1.
  pose proof (io_frame _ _ _ _ _ Hread) as (Htr2 & _).
  pose proof (io_read_tree _ _ _ _ _ Hread) as Hfs2.
  assert (sink_calls (trace w2) = sink_calls (trace w)) as Hs2.
  { rewrite Htr2, Htr1, !sink_calls_app. simpl. by rewrite !app_nil_r. }
  unfold loadAction. rewrite Hcfg, (bind_ok _ _ _ _ _ Hdir), Htr, Hsel, Hf.
  simpl. unfold loadSelected, try_catch. rewrite Hends. unfold loadJson.
  destruct o as [data|e].
  - rewrite (bind_ok _ _ _ _ _ Hread). unfold parse.
    destruct Hbad as [->| ->].
    + unfold bind, throw. eexists. split; [reflexivity|]. by split.
    + unfold bind at 1, ret at 1. simpl json_get.
      unfold bind, lift_outcome, throw. eexists. split; [reflexivity|]. by split.
  - rewrite (bind_thrown _ _ _ _ _ Hread).
    eexists. split; [reflexivity|]. split; [|done]. by intros ? [= <-].
Qed.
End Legacy.

(** ** The restore, beyond the project entries *)

Section RestoreMore.
Context `{Platform}.

(** X18: a [.tar.gz] name with no project root to restore into is
    refused with "Could not determine the project root path.", with or
    without [--force]; no temporary directory is made and the only call
    is the [mkdir] of the archives directory. *)
Theorem restore_needs_project_root ctx cfg args w dir w1 f :
  config ctx = Some cfg →
  getArchivesDir cfg w = (Ok (Some dir), w1) →
  selectedFile args = f →
  Js.endsWith f ".tar.gz" = true →
  truthy_string (getProjectRoot cfg) = None →
  loadAction ctx args w
  = (Ok (message error "Could not determine the project root path."), w1)
  ∧ trace w1 = trace w ++ [EvMkdir dir].
Proof.
  intros Hcfg Hdir Hsel Hends Hroot.
  pose proof (getArchivesDir_truthy _ _ _ _ Hdir) as Htr.
  pose proof (endsWith_truthy f ".tar.gz" eq_refl Hends) as Hf.
  split; [|by apply getArchivesDir_trace in Hdir].
  unfold loadAction. rewrite Hcfg, (bind_ok _ _ _ _ _ Hdir), Htr, Hsel, Hf.
  simpl. unfold loadSelected. erewrite try_catch_ok; [done|].
  by rewrite Hends, Hroot.
Qed.

Lemma tar_extract_frame file cwd w o w' :
  Fs.wf (fs w) →
  tar_extract file cwd w = (o, w') →
  ∀ k, ¬ Path.resolve cwd `prefix_of` k → fs w' !! k = fs w !! k.
Proof.
  intros Hwf [[-> _]|Hrun]%io_inv k Hk; [done|].
  destruct (Fs.read_file _ _); [|by injection Hrun as _ <-].
  destruct (tar_unpack _); [|by injection Hrun as _ <-].
  destruct (Fs.lookup_node _ _) as [[]|] eqn:Hcwd;
    [by injection Hrun as _ <-| |by injection Hrun as _ <-].
  by eapply put_entries_frame; [done|apply resolve_simple|done|done|].
Qed.

(** X19: when the extraction fails, the project is not touched: once
    the temporary directory has been removed the whole tree is the one
    that the resolution of the archives directory left, and the answer
    is an [error] message with the text of the failure. *)
Theorem failed_extraction_leaves_project
    ctx cfg args w dir w1 f root tempDir w2 e w3 w' :
  config ctx = Some cfg →
  getArchivesDir cfg w = (Ok (Some dir), w1) →
  selectedFile args = f →
  Js.endsWith f ".tar.gz" = true →
  forceConfirm args = true →
  truthy_string (getProjectRoot cfg) = Some root →
  fs_mkdtemp (Path.join os_tmpdir "gemini-cli-load-") w1 = (Ok tempDir, w2) →
  tar_extract (Path.join dir f) tempDir w2 = (Thrown e, w3) →
  fs_rm tempDir w3 = (Ok (), w') →
  loadAction ctx args w
  = (Ok (message error
           ("Error loading archive " +:+ f +:+ ": " +:+ exn_toString e)), w')
  ∧ (Fs.wf (fs w) → fs w' = fs w1).
Proof.
  intros Hcfg Hdir Hsel Hends Hforce Hroot Hmk Hex Hrm.
  pose proof (getArchivesDir_truthy _ _ _ _ Hdir) as Htr.
  pose proof (endsWith_truthy f ".tar.gz" eq_refl Hends) as Hf.
  split.
  - unfold loadAction.
    rewrite Hcfg, (bind_ok _ _ _ _ _ Hdir), Htr, Hsel, Hf, Hforce.
    simpl. unfold loadSelected. rewrite Hends, Hroot. cbn [negb]. cbv iota.
    unfold restoreArchive, try_catch. rewrite (bind_ok _ _ _ _ _ Hmk).
    unfold try_finally, restoreBody.
    by rewrite (bind_thrown _ _ _ _ _ Hex), Hrm.
  - intros Hwf.
    pose proof (getArchivesDir_keeps_wf _ _ _ _ Hdir Hwf) as Hwf1.
    pose proof (fs_mkdtemp_keeps_wf _ _ _ _ Hmk Hwf1) as Hwf2.
    pose proof (tar_extract_frame _ _ _ _ _ Hwf2 Hex) as Hframe.
    apply fs_mkdtemp_inv in Hmk as (o & Hmk & Ho).
    destruct o as [[]|]; [|done]. injection Ho as Ho.
    apply io_ok, mkdtemp_ok in Hmk as (Hfs2 & HT1 & _).
    rewrite <- Ho in HT1, Hfs2.
    apply fs_rm_ok in Hrm. apply map_eq. intros k.
    rewrite Hrm, rm_rf_lookup.
    destruct (decide (Path.resolve tempDir `prefix_of` k)) as [Hk|Hk].
    + symmetry. by eapply wf_absent_below.
    + rewrite Hframe, Hfs2, lookup_insert_ne; [done| |done].
      by intros <-.
Qed.

(** X20: a restore that reports success changes nothing outside the
    project root; and below the root, an entry named [.git],
    [node_modules] or [archives] is kept as it was, overlaid only by
    what the archive itself holds under that name. *)
Theorem restore_keeps_the_rest
    ctx cfg args w dir w1 f root tempDir w2 w3 w' :
  config ctx = Some cfg →
  getArchivesDir cfg w = (Ok (Some dir), w1) →
  selectedFile args = f →
  Js.endsWith f ".tar.gz" = true →
  forceConfirm args = true →
  truthy_string (getProjectRoot cfg) = Some root →
  fs_mkdtemp (Path.join os_tmpdir "gemini-cli-load-") w1 = (Ok tempDir, w2) →
  tar_extract (Path.join dir f) tempDir w2 = (Ok (), w3) →
  loadAction ctx args w
  = (Ok (message info
           ("Archive '" +:+ f +:+ "' loaded and extracted successfully to "
            +:+ root +:+ ".")), w') →
  Fs.wf (fs w) →
  Fs.lookup_node (fs w) (Path.resolve root) = Some Dir →
  ¬ Path.resolve root `prefix_of` Path.resolve tempDir →
  let T := Path.resolve tempDir in
  let R := Path.resolve root in
  (∀ k, ¬ R `prefix_of` k → fs w' !! k = fs w1 !! k)
  ∧ (∀ x rel, x ∈ filesToKeep →
       fs w' !! (R ++ x :: rel)
       = match fs w3 !! (T ++ x :: rel) with
         | Some n => Some n
         | None => fs w1 !! (R ++ x :: rel)
         end).
Proof.
  intros Hcfg Hdir Hsel Hends Hforce Hroot Hmk Hex Hrun Hwf HR HRT T R.
  pose proof (getArchivesDir_truthy _ _ _ _ Hdir) as Htr.
  pose proof (endsWith_truthy f ".tar.gz" eq_refl Hends) as Hf.
  unfold loadAction in Hrun.
  rewrite Hcfg, (bind_ok _ _ _ _ _ Hdir), Htr, Hsel, Hf, Hforce in Hrun.
  simpl in Hrun. unfold loadSelected in Hrun. rewrite Hends, Hroot in Hrun.
  cbn [negb] in Hrun. cbv iota in Hrun. unfold restoreArchive in Hrun.
  unfold try_catch in Hrun. rewrite (bind_ok _ _ _ _ _ Hmk) in Hrun.
  unfold try_finally, restoreBody in Hrun.
  rewrite (bind_ok _ _ _ _ _ Hex) in Hrun.
  match type of Hrun with
  | context [bind ?m ?k w3] => destruct (bind m k w3) as [rb wb] eqn:Eb
  end.
  destruct (fs_rm tempDir wb) as [o w''] eqn:Ec.
  destruct o as [[]|e]; [|done]. destruct rb as [m|e]; [|done].
  injection Hrun as _ ->.
  step Eb. step Eb. step Eb. step Eb. injection Eb as _ <-.
  destruct r0, r2.
  rename r into contents, w0 into w3a, w4 into w4, r1 into extracted,
         w5 into w4a, w6 into w5,
         E into Erd, E0 into Ecl, E1 into Erd', E2 into Emv.
  (* the worlds before the extraction *)
  pose proof (getArchivesDir_keeps_wf _ _ _ _ Hdir Hwf) as Hwf1.
  pose proof (fs_mkdtemp_keeps_wf _ _ _ _ Hmk Hwf1) as Hwf2.
  destruct (getArchivesDir_Some _ _ _ _ Hdir) as (tmp & _ & _ & Hmkdir).
  apply io_ok in Hmkdir.
  assert (Fs.lookup_node (fs w1) R = Some Dir) as HR1.
  { rewrite (mkdir_p_lookup_node _ _ _ _ Hmkdir). by destruct (decide _). }
  apply fs_mkdtemp_inv in Hmk as (o & Hmk & Ho).
  destruct o as [[]|]; [|done]. injection Ho as Ho.
  apply io_ok, mkdtemp_ok in Hmk as (Hfs2 & HT1 & _).
  rewrite <- Ho in HT1, Hfs2. fold T in HT1, Hfs2.
  assert (¬ T `prefix_of` R) as HTR.
  { intros Hpre. destruct R as [|y R'] eqn:ER.
    - apply prefix_nil_inv in Hpre. by rewrite Hpre in HT1.
    - simpl in HR1. by rewrite (wf_absent_below _ _ _ Hwf1 HT1 Hpre) in HR1. }
  (* the extraction *)
  pose proof (tar_extract_ok _ _ _ _ Hwf2 Hex) as (Hwf3 & HT3 & Hframe3).
  fold T in HT3, Hframe3.
  assert (∀ k, ¬ T `prefix_of` k → fs w3 !! k = fs w1 !! k) as Hframe31.
  { intros k Hk. rewrite Hframe3, Hfs2, lookup_insert_ne; [done| |done].
    by intros <-. }
  assert (Fs.lookup_node (fs w3) R = Some Dir) as HR3.
  { destruct R as [|y R'] eqn:ER; [done|]. simpl. by rewrite Hframe31. }
  (* the clearing *)
  apply fs_readdir_ok in Erd as (Hfs3a & _ & Hcontents). fold R in Hcontents.
  rewrite <- Hfs3a in Hwf3, HT3, HR3.
  apply clearProject_ok in Ecl as (Hwf4 & Honly & Hremoved & Hkept); [|done|].
  2:{ intros x Hx. rewrite Hcontents in Hx. rewrite Hfs3a in Hwf3.
      eapply children_simple; [exact Hwf3|exact Hx]. }
  fold R in Hremoved, Hkept. rewrite Hfs3a in Honly, Hkept, Hwf3, HT3, HR3.
  assert (∀ k, T `prefix_of` k → fs w4 !! k = fs w3 !! k) as Hstaged.
  { intros k [b ->]. apply Hkept. intros x _ _. by apply prefix_apart. }
  assert (Fs.lookup_node (fs w4) R = Some Dir) as HR4.
  { destruct R as [|y R'] eqn:ER; [done|]. simpl. rewrite Hkept; [done|].
    intros x _ _. by intros ?%prefix_of_shorter. }
  (* the move *)
  apply fs_readdir_ok in Erd' as (Hfs4a & _ & Hextracted). fold T in Hextracted.
  assert (∀ x, x ∈ extracted ↔ x ∈ Fs.children (fs w3) T) as Hextracted3.
  { intros x. rewrite Hextracted, !children_spec, Hstaged; [done|].
    by apply prefix_app_r. }
  rewrite <- Hfs4a in Hwf4, HR4.
  apply moveExtracted_ok in Emv as (Hwf5 & HM1 & HM2 & HM3); try done.
  2:{ rewrite Hextracted. apply children_NoDup. }
  2:{ intros x Hx. rewrite Hextracted in Hx. rewrite Hfs4a in Hwf4.
      eapply children_simple; [exact Hwf4|exact Hx]. }
  fold T R in HM1, HM2, HM3. rewrite Hfs4a in HM1, HM2.
  apply fs_rm_ok in Ec. fold T in Ec.
  assert (∀ k, ¬ T `prefix_of` k → fs w' !! k = fs w5 !! k) as Hfinal.
  { intros k Hk. by rewrite Ec, rm_rf_lookup, decide_False. }
  assert (∀ x rel, ¬ T `prefix_of` (R ++ x :: rel)) as Hapart.
  { intros x rel. rewrite <- (app_nil_r T). by apply prefix_apart. }
  assert (∀ x k, (R ++ [x]) `prefix_of` k → R `prefix_of` k) as Hunder.
  { intros x k Hk. etrans; [|exact Hk]. by apply prefix_app_r. }
  split.
  - intros k Hk. destruct (decide (T `prefix_of` k)) as [HTk|HTk].
    + rewrite Ec, rm_rf_lookup, decide_True by done.
      symmetry. by eapply wf_absent_below.
    + rewrite Hfinal by done. rewrite HM2.
      2:{ intros x _. split; [intros Hx; by apply Hk, (Hunder x)|].
          intros Hx. apply HTk. etrans; [|exact Hx]. by apply prefix_app_r. }
      rewrite Hkept.
      2:{ intros x _ _ Hx. by apply Hk, (Hunder x). }
      by rewrite Hframe31.
  - intros x rel Hx. rewrite Hfinal by done.
    assert (fs w4 !! (R ++ x :: rel) = fs w1 !! (R ++ x :: rel)) as H41.
    { rewrite Hkept.
      2:{ intros y _ Hy ->%prefix_snoc_cons. done. }
      by rewrite Hframe31. }
    destruct (decide (x ∈ extracted)) as [Hin|Hout].
    + rewrite HM1 by done. rewrite Hstaged by (eexists; done). by rewrite H41.
    + rewrite HM2.
      * rewrite H41.
        rewrite (wf_absent_below (fs w3) (T ++ [x])); [done|done| |].
        -- rewrite lookup_node_snoc. rewrite Hextracted3, children_spec in Hout.
           by apply eq_None_not_Some.
        -- exists rel. by rewrite <- app_assoc.
      * intros y Hy. split.
        -- intros ->%prefix_snoc_cons. done.
        -- by apply prefix_apart.
Qed.
End RestoreMore.

(** ** A save, then a look at the archives *)

Global Instance stays_calm_refl : Reflexive stays_calm.
Proof. intros w Hw. exact Hw. Qed.

Global Instance stays_calm_trans : Transitive stays_calm.
Proof. intros w1 w2 w3 H1 H2 ?. by apply H2, H1. Qed.

Lemma io_stays_calm {A} (ev : event)
    (run : gmap (list string) node → outcome A * gmap (list string) node) :
  along stays_calm (io ev run).
Proof.
  intros w r w' (_ & Hf & _)%io_frame Hcalm. unfold calm in *. rewrite Hf.
  destruct (faults w); [done|]. by apply Forall_cons in Hcalm as [_ ?].
Qed.

Lemma lookup_node_eq (t t' : gmap (list string) node) p :
  t' !! p = t !! p → Fs.lookup_node t' p = Fs.lookup_node t p.
Proof. by destruct p. Qed.

Section SaveThenLook.
Context `{Platform}.

Lemma getArchivesDir_stays_calm cfg : along stays_calm (getArchivesDir cfg).
Proof. unfold getArchivesDir. along_by ltac:(apply io_stays_calm). Qed.

Lemma readArchiveMetadata_stays_calm dir : along stays_calm (readArchiveMetadata dir).
Proof.
  unfold readArchiveMetadata.
  along_by ltac:(first [apply io_stays_calm | apply parse_along; apply _]).
Qed.

(** In calm worlds the value of the store depends on the tree alone. *)
Lemma readArchiveMetadata_calm dir wa wb ra wa' rb wb' :
  calm wa → calm wb → fs wa = fs wb →
  readArchiveMetadata dir wa = (ra, wa') →
  readArchiveMetadata dir wb = (rb, wb') →
  ra = rb.
Proof.
  intros Ha Hb Hfs.
  unfold readArchiveMetadata, try_catch, bind, fs_readFile. cbv zeta.
  destruct (io_run_calm (EvReadFile (Path.join dir ARCHIVE_METADATA_FILE))
              (pure_read (Fs.read_file
                            (Path.resolve (Path.join dir ARCHIVE_METADATA_FILE))))
              wa Ha) as (wa1 & -> & _).
  destruct (io_run_calm (EvReadFile (Path.join dir ARCHIVE_METADATA_FILE))
              (pure_read (Fs.read_file
                            (Path.resolve (Path.join dir ARCHIVE_METADATA_FILE))))
              wb Hb) as (wb1 & -> & _).
  rewrite Hfs. unfold pure_read. cbn [fst].
  destruct (Fs.read_file _ (fs wb)) as [data|e].
  - unfold parse. destruct (JSON_parse data) as [v|]; simpl.
    + destruct (metadata_of_json v); simpl; intros [= <- _] [= <- _]; done.
    + intros [= <- _] [= <- _]; done.
  - destruct (decide _); simpl; intros [= <- _] [= <- _]; done.
Qed.

Lemma tar_create_keeps_wf file cwd filter :
  along keeps_wf (tar_create file cwd filter).
Proof.
  intros w o w' [Hfs|(d & Hfs & Hne & Hpar & Hnd)]%tar_create_tree Hwf;
    rewrite Hfs; [done|].
  apply insert_file_wf; [done|apply resolve_simple|done..].
Qed.

Lemma fs_writeFile_keeps_wf p data : along keeps_wf (fs_writeFile p data).
Proof.
  apply io_keeps_wf. intros t o t' Hwf.
  apply write_file_wf; [done|apply resolve_simple].
Qed.

Lemma archiveFileName_prefix cfg ts :
  Js.startsWith (archiveFileName cfg ts) (projectName cfg +:+ "-archive-") = true.
Proof.
  apply startsWith_spec. unfold archiveFileName.
  eexists. by rewrite sapp_assoc.
Qed.

(** X21: after a save that succeeds in a well-formed tree, with no call
    made to fail and a JSON codec that reads back the list it has
    written, the completion provider offers the new archive, under its
    file name and with the trimmed description, and list mode shows its
    line. *)
Theorem saved_archive_is_offered
    ctx cfg args typed w dir w1 existing w1r c w' :
  config ctx = Some cfg →
  Fs.wf (fs w) →
  calm w →
  getArchivesDir cfg w = (Ok (Some dir), w1) →
  readArchiveMetadata dir w1 = (Ok existing, w1r) →
  let saved := {| filename := archiveFileName cfg (now w);
                  timestamp := now w;
                  description := Js.trim args |} in
  JSON_parse (JSON_stringify (json_of_metadata (existing ++ [saved])))
  = Some (json_of_metadata (existing ++ [saved])) →
  saveAction ctx args w = (Ok (message info c), w') →
  (∃ l w'',
     completion ctx typed w' = (Ok l, w'')
     ∧ {| Candidate.label := filename saved;
          Candidate.value := filename saved;
          Candidate.description := description saved |} ∈ l)
  ∧ ∃ c' w'',
      loadAction ctx EmptyString w' = (Ok (message info c'), w'')
      ∧ Js.includes c' (archiveLine saved).
Proof.
  intros Hcfg Hwf Hcalm Hdir Hread saved Hcodec Hrun.
  pose proof (getArchivesDir_truthy _ _ _ _ Hdir) as Htr.
  destruct (getArchivesDir_frame _ _ _ _ Hdir) as (Hnow & _).
  destruct (getArchivesDir_Some _ _ _ _ Hdir) as (tmp & Htmp & Edir & Hmk).
  pose proof (getArchivesDir_keeps_wf _ _ _ _ Hdir Hwf) as Hwf1.
  pose proof (getArchivesDir_stays_calm _ _ _ _ Hdir Hcalm) as Hcalm1.
  pose proof (mkdir_p_made _ _ _ (io_ok _ _ _ _ _ Hmk)) as HD1.
  set (D := Path.resolve dir) in *.
  (* the save, call by call *)
  unfold saveAction in Hrun.
  rewrite Hcfg, (bind_ok _ _ _ _ _ Hdir), Htr in Hrun.
  unfold bind at 1, Date_now in Hrun. rewrite Hnow in Hrun.
  step Hrun. injection Hrun as -> ->.
  step E. step E. step E. step E. step E. injection E as _ ->.
  destruct r, r1, r2, r3.
  rename w0 into wA, r0 into stored, w2 into wB, w3 into wC, w4 into wD,
         E0 into Eadd, E1 into Erd, E2 into Etar, E3 into Ewr, E4 into Eadd'.
  fold saved in Ewr.
  pose proof (io_sink_same_tree _ _ _ _ Eadd) as HfsA. unfold same_tree in HfsA.
  pose proof (io_stays_calm _ _ _ _ _ Eadd Hcalm1) as HcalmA.
  assert (stored = existing) as ->.
  { assert (Ok stored = Ok existing) as [= ->]; [|done].
    by eapply (readArchiveMetadata_calm dir wA w1). }
  destruct (readArchiveMetadata_frame _ _ _ _ Erd) as [HfsB _].
  pose proof (readArchiveMetadata_stays_calm _ _ _ _ Erd HcalmA) as HcalmB.
  assert (Fs.wf (fs wB)) as HwfB by (by rewrite HfsB, HfsA).
  pose proof (tar_create_keeps_wf _ _ _ _ _ _ Etar HwfB) as HwfC.
  pose proof (io_stays_calm _ _ _ _ _ Etar HcalmB) as HcalmC.
  pose proof (tar_create_only_changes _ _ _ _ _ _ Etar) as HonlyC.
  pose proof (fs_writeFile_keeps_wf _ _ _ _ _ Ewr HwfC) as HwfD.
  pose proof (io_stays_calm _ _ _ _ _ Ewr HcalmC) as HcalmD.
  apply io_ok, write_file_ok in Ewr as (HfsD & HneP & _).
  rewrite (resolve_join_simple _ _ metadata_file_simple) in HfsD, HneP.
  fold D in HfsD, HneP.
  pose proof (io_sink_same_tree _ _ _ _ Eadd') as Hfs'. unfold same_tree in Hfs'.
  pose proof (io_stays_calm _ _ _ _ _ Eadd' HcalmD) as Hcalm'.
  assert (Fs.wf (fs w')) as Hwf' by (by rewrite Hfs').
  assert (Fs.lookup_node (fs w') D = Some Dir) as HD'.
  { rewrite <- HD1. apply lookup_node_eq.
    rewrite Hfs', HfsD, lookup_insert_ne.
    2:{ intros E. apply (f_equal length) in E. rewrite length_app in E.
        simpl in E. lia. }
    rewrite HonlyC, HfsB, HfsA; [done|].
    rewrite (resolve_join_simple _ _ (archiveFileName_simple cfg (now w))).
    fold D. intros E. apply (f_equal length) in E. rewrite length_app in E.
    simpl in E. lia. }
  (* the archives directory is resolved again *)
  assert (Fs.lookup_node (fs w')
            (Path.resolve (Path.join tmp ARCHIVES_DIR_NAME)) = Some Dir) as HD''.
  { by rewrite <- Edir. }
  destruct (getArchivesDir_again cfg tmp w' Htmp Hwf' HD''
              (calm_head _ Hcalm')) as (w2 & Hagain & Hfs2 & Hf2).
  rewrite <- Edir in Hagain.
  assert (calm w2) as Hcalm2.
  { unfold calm in *. rewrite Hf2. destruct (faults w'); [done|].
    by apply Forall_cons in Hcalm' as [_ ?]. }
  (* the store is read back *)
  destruct (readArchiveMetadata_file dir w2 _ _ (existing ++ [saved])
              (calm_head _ Hcalm2)
              ltac:(fold D; by rewrite Hfs2, Hfs', HfsD, lookup_insert_eq)
              Hcodec (metadata_of_json_of_metadata _))
    as (w3 & Hstore & Hfs3).
  assert (saved ∈ Array_sort newest_first
                     (filterArchives cfg (existing ++ [saved]))) as Hin.
  { rewrite Array_sort_perm. apply filterArchives_prefix. split.
    - apply elem_of_app. right. by left.
    - apply archiveFileName_prefix. }
  split.
  - eexists _, w3. split.
    + unfold completion. rewrite Hcfg, (bind_ok _ _ _ _ _ Hagain), Htr.
      erewrite try_catch_ok; [done|]. by rewrite (bind_ok _ _ _ _ _ Hstore).
    + apply list_elem_of_In.
      apply (in_map (λ archive,
                       {| Candidate.label := filename archive;
                          Candidate.value := filename archive;
                          Candidate.description := description archive |})
               _ saved).
      by apply list_elem_of_In.
  - eexists _, w3. split; [|apply (render_includes _ _ Hin)].
    unfold loadAction. rewrite Hcfg, (bind_ok _ _ _ _ _ Hagain), Htr.
    change (selectedFile EmptyString) with EmptyString. cbn [Js.truthy negb].
    cbv zeta. unfold listArchives. erewrite try_catch_ok; [done|].
    rewrite (bind_ok _ _ _ _ _ Hstore). cbv zeta.
    destruct (decide _) as [Hlen|]; [|done].
    apply nil_length_inv in Hlen.
    assert (saved ∈ filterArchives cfg (existing ++ [saved])) as Hf.
    { by rewrite <- (Array_sort_perm newest_first). }
    rewrite Hlen in Hf. by apply elem_of_nil in Hf.
Qed.
End SaveThenLook.

(** ** Ties *)

Lemma insert_by_ties (t : Z) (x : ArchiveMetadata) (l : list ArchiveMetadata) :
  filter (λ a, timestamp a = t) (insert_by newest_first x l)
  = filter (λ a, timestamp a = t) (x :: l).
Proof.
  induction l as [|y l IH]; [done|]. simpl.
  destruct (newest_first x y <=? 0) eqn:E; [done|].
  apply Z.leb_gt in E. unfold newest_first in E.
  rewrite (filter_cons _ y), IH, !(filter_cons _ x), (filter_cons _ y).
  destruct (decide (timestamp x = t)) as [Hx|Hx];
    destruct (decide (timestamp y = t)) as [Hy|Hy]; try done. lia.
Qed.

(** X22: the sort of the listing and of the completion is stable:
    records of one timestamp come out in the order in which the store
    holds them. *)
Theorem ties_keep_store_order (t : Z) (l : list ArchiveMetadata) :
  filter (λ a, timestamp a = t) (Array_sort newest_first l)
  = filter (λ a, timestamp a = t) l.
Proof.
  induction l as [|x l IH]; [done|].
  change (Array_sort newest_first (x :: l))
    with (insert_by newest_first x (Array_sort newest_first l)).
  by rewrite insert_by_ties, !(filter_cons _ x), IH.
Qed.

(** ** The further properties at concrete worlds *)

(** Words after the name of a legacy file, the flag among them, change
    nothing. *)
Lemma load_reads_two_things_witness :
  (selectedFile "h.json --force now" = selectedFile "h.json"
   ∧ Js.endsWith (selectedFile "h.json --force now") ".tar.gz" = false)
  ∧ loadAction Demo.ctx "h.json --force now" Demo.w0
    = loadAction Demo.ctx "h.json" Demo.w0.
Proof.
  assert (selectedFile "h.json --force now" = selectedFile "h.json") as H1
    by (vm_compute; reflexivity).
  assert (Js.endsWith (selectedFile "h.json --force now") ".tar.gz" = false)
    as H2 by (vm_compute; reflexivity).
  split; [exact (conj H1 H2)|].
  apply (load_reads_two_things Demo.ctx "h.json --force now" "h.json" Demo.w0 H1).
  intros Hends. rewrite H2 in Hends. discriminate Hends.
Defined.

(** A project temporary directory that is the empty string. *)
Lemma unconfigured_handlers_witness :
  (∀ cfg, config Echo.homeless = Some cfg →
          truthy_string (getProjectTempDir cfg) = None)
  ∧ loadAction Echo.homeless "x.tar.gz --force" Demo.w0
    = (Ok (message error "Could not determine the .gemini directory path."),
       Demo.w0)
  ∧ completion Echo.homeless EmptyString Demo.w0 = (Ok [], Demo.w0).
Proof.
  assert (∀ cfg, config Echo.homeless = Some cfg →
                 truthy_string (getProjectTempDir cfg) = None) as Hno.
  { intros cfg [= <-]. reflexivity. }
  split; [exact Hno|].
  destruct (unconfigured_handlers Echo.homeless "x.tar.gz --force" Demo.w0 Hno)
    as (Hload & _ & _).
  destruct (unconfigured_handlers Echo.homeless EmptyString Demo.w0 Hno)
    as (_ & _ & Hcomp).
  exact (conj Hload Hcomp).
Defined.

(** The world without an archives directory: it is made, once. *)
Lemma getArchivesDir_ensures_witness :
  let w := Demo.fresh in
  let w1 := after (getArchivesDir Demo.cfg) w in
  (getArchivesDir Demo.cfg w = (Ok (Some "/t/archives"), w1)
   ∧ Fs.wf (fs w))
  ∧ fs w !! ["t"; "archives"] = None
  ∧ Fs.lookup_node (fs w1) (Path.resolve "/t/archives") = Some Dir
  ∧ ∃ w2, getArchivesDir Demo.cfg w1 = (Ok (Some "/t/archives"), w2)
          ∧ fs w2 = fs w1.
Proof.
  intros w w1.
  assert (getArchivesDir Demo.cfg w = (Ok (Some "/t/archives"), w1)) as H1
    by (apply run_eq; vm_compute; reflexivity).
  assert (Fs.wf (fs w)) as H2
    by (apply wf_check_sound; vm_compute; reflexivity).
  assert (fs w !! ["t"; "archives"] = None) as H3 by (vm_compute; reflexivity).
  assert (∀ e, head (faults w1) ≠ Some (Some e)) as H4.
  { assert (faults w1 = []) as -> by (vm_compute; reflexivity). done. }
  clearbody w1 w.
  split; [exact (conj H1 H2)|]. split; [exact H3|].
  destruct (getArchivesDir_ensures Demo.cfg w "/t/archives" w1 H1 H2)
    as (Hdir & _ & _ & _ & Hagain).
  exact (conj Hdir (Hagain H4)).
Defined.

(** The base world has no store: it reads as empty from the archives
    directory, and the read throws where the directory given is the
    regular file [/t/secret.json]. *)
Lemma store_read_outcomes_witness :
  (∀ e, head (faults Demo.w0) ≠ Some (Some e))
  ∧ (∃ w', fs w' = fs Demo.w0
           ∧ readArchiveMetadata "/t/archives" Demo.w0 = (Ok [], w'))
  ∧ (∃ w', fs w' = fs Demo.w0
           ∧ readArchiveMetadata "/t/secret.json" Demo.w0
             = (Thrown (SystemError "ENOTDIR" "open"), w')).
Proof.
  assert (∀ e, head (faults Demo.w0) ≠ Some (Some e)) as Hcalm by done.
  split; [exact Hcalm|]. split.
  - destruct (store_read_outcomes "/t/archives" Demo.w0 Hcalm)
      as (w' & Hfs & Hst).
    exists w'. split; [exact Hfs|].
    assert (Fs.lookup_node (fs Demo.w0)
              (Path.resolve (Path.join "/t/archives" ARCHIVE_METADATA_FILE))
            = None) as Hnone by (vm_compute; reflexivity).
    assert (forallb (λ q, negb (Fs.is_file (fs Demo.w0) q))
              (Fs.prefixes
                 (Path.resolve (Path.join "/t/archives" ARCHIVE_METADATA_FILE)))
            = true) as Hdirs by (vm_compute; reflexivity).
    rewrite Hnone in Hst. apply (proj1 Hst). intros q Hq.
    destruct (decide (q = [])) as [->|Hne]; [reflexivity|].
    rewrite forallb_forall in Hdirs. apply negb_true_iff, Hdirs.
    by apply list_elem_of_In, prefixes_spec.
  - destruct (store_read_outcomes "/t/secret.json" Demo.w0 Hcalm)
      as (w' & Hfs & Hst).
    exists w'. split; [exact Hfs|].
    assert (Fs.lookup_node (fs Demo.w0)
              (Path.resolve (Path.join "/t/secret.json" ARCHIVE_METADATA_FILE))
            = None) as Hnone by (vm_compute; reflexivity).
    rewrite Hnone in Hst. apply (proj2 Hst).
    exists ["t"; "secret.json"]. split; [|vm_compute; reflexivity].
    by exists ["archive-metadata.json"].
Defined.

(** One record, written and read back. *)
Lemma store_round_trip_witness :
  let l := [Echo.saved] in
  let w := Demo.w0 in
  let w1 := after (writeArchiveMetadata (H:=Echo.platform) "/t/archives" l) w in
  (writeArchiveMetadata (H:=Echo.platform) "/t/archives" l w = (Ok (), w1)
   ∧ JSON_parse (Platform:=Echo.platform)
       (JSON_stringify (Platform:=Echo.platform) (json_of_metadata l))
     = Some (json_of_metadata l))
  ∧ ∃ w2, readArchiveMetadata (H:=Echo.platform) "/t/archives" w1 = (Ok l, w2)
          ∧ fs w2 = fs w1.
Proof.
  intros l w w1.
  assert (writeArchiveMetadata (H:=Echo.platform) "/t/archives" l w
          = (Ok (), w1)) as H1 by (apply run_eq; vm_compute; reflexivity).
  assert (JSON_parse (Platform:=Echo.platform)
            (JSON_stringify (Platform:=Echo.platform) (json_of_metadata l))
          = Some (json_of_metadata l)) as H2 by (vm_compute; reflexivity).
  assert (∀ e, head (faults w1) ≠ Some (Some e)) as H3.
  { assert (faults w1 = []) as -> by (vm_compute; reflexivity). done. }
  clearbody w1 w.
  split; [exact (conj H1 H2)|].
  exact (@store_round_trip Echo.platform "/t/archives" l w w1 H1 H2 H3).
Defined.

(** A save in the base world leaves [old.txt] of the project alone. *)
Lemma save_changes_only_archives_witness :
  let w := Demo.w0 in
  let r := (saveAction Demo.ctx "my important backup" w).1 in
  let w' := after (saveAction Demo.ctx "my important backup") w in
  (config Demo.ctx = Some Demo.cfg
   ∧ truthy_string (getProjectTempDir Demo.cfg) = Some "/t"
   ∧ saveAction Demo.ctx "my important backup" w = (r, w'))
  ∧ fs w' !! (Demo.project ++ ["old.txt"]) = Some (File "x").
Proof.
  intros w r w'.
  assert (saveAction Demo.ctx "my important backup" w = (r, w')) as H1
    by exact (run_pair (saveAction Demo.ctx "my important backup") w).
  assert (fs w !! (Demo.project ++ ["old.txt"]) = Some (File "x")) as K0
    by (vm_compute; reflexivity).
  assert (Demo.project ++ ["old.txt"]
          ≠ Path.resolve (Path.join "/t" ARCHIVES_DIR_NAME)
            ++ [archiveFileName Demo.cfg (now w)]) as K1
    by (apply (bool_decide_eq_false_1 _); vm_compute; reflexivity).
  assert (Demo.project ++ ["old.txt"]
          ≠ Path.resolve (Path.join "/t" ARCHIVES_DIR_NAME)
            ++ [ARCHIVE_METADATA_FILE]) as K2
    by (apply (bool_decide_eq_false_1 _); vm_compute; reflexivity).
  clearbody w' r w.
  split; [exact (conj eq_refl (conj eq_refl H1))|].
  destruct (save_changes_only_archives Demo.ctx Demo.cfg "/t"
              "my important backup" w r w' eq_refl eq_refl H1
              (Demo.project ++ ["old.txt"]))
    as [Hsame|[(Hnone & _)|[Hk|Hk]]].
  - by rewrite Hsame.
  - by rewrite K0 in Hnone.
  - by destruct K1.
  - by destruct K2.
Defined.

(** The two notices of a save in the base world. *)
Lemma save_notices_witness :
  let w := Demo.w0 in
  let c := answer (saveAction Demo.ctx "my important backup") w in
  let w' := after (saveAction Demo.ctx "my important backup") w in
  (config Demo.ctx = Some Demo.cfg
   ∧ saveAction Demo.ctx "my important backup" w = (Ok (message info c), w'))
  ∧ length (notices (trace w')) = 2%nat.
Proof.
  intros w c w'.
  assert (saveAction Demo.ctx "my important backup" w
          = (Ok (message info c), w')) as H1
    by (apply (run_eq (saveAction Demo.ctx "my important backup") w);
        vm_compute; reflexivity).
  assert (notices (trace w) = []) as K0 by reflexivity.
  clearbody w' c w.
  split; [exact (conj eq_refl H1)|].
  destruct (save_notices Demo.ctx Demo.cfg "my important backup" w c w'
              eq_refl H1) as (dir & Hn & _).
  by rewrite Hn, K0.
Defined.

(** The archiver is refused: the error comes back, the tree stays. *)
Lemma failed_archive_leaves_store_witness :
  let w := Echo.archiver_refused in
  let path := Path.join "/t/archives" (archiveFileName Demo.cfg (now w)) in
  let w1 := after (getArchivesDir Demo.cfg) w in
  let w2 := after (ui_addItem ("Creating archive: " +:+ path) (now w)) w1 in
  let w3 := after (readArchiveMetadata "/t/archives") w2 in
  let w4 := after (tar_create path
                     (default "." (getProjectRoot Demo.cfg))
                     (archiveFilter (allExcludes []))) w3 in
  (getArchivesDir Demo.cfg w = (Ok (Some "/t/archives"), w1)
   ∧ ui_addItem ("Creating archive: " +:+ path) (now w) w1 = (Ok (), w2)
   ∧ readArchiveMetadata "/t/archives" w2 = (Ok [], w3)
   ∧ tar_create path (default "." (getProjectRoot Demo.cfg))
                (archiveFilter (allExcludes [])) w3
     = (Thrown (SystemError "ENOSPC" "write"), w4))
  ∧ saveAction Demo.ctx "my important backup" w
    = (Ok (message error "An unexpected error occurred: Error: ENOSPC: write"),
       w4)
  ∧ ∀ p d, EvWriteFile p d ∉ trace w4.
Proof.
  intros w path w1 w2 w3 w4.
  assert (getArchivesDir Demo.cfg w = (Ok (Some "/t/archives"), w1)) as H1
    by (apply run_eq; vm_compute; reflexivity).
  assert (ui_addItem ("Creating archive: " +:+ path) (now w) w1 = (Ok (), w2))
    as H2 by (apply run_eq; vm_compute; reflexivity).
  assert (readArchiveMetadata "/t/archives" w2 = (Ok [], w3)) as H3
    by (apply run_eq; vm_compute; reflexivity).
  assert (tar_create path (default "." (getProjectRoot Demo.cfg))
            (archiveFilter (allExcludes [])) w3
          = (Thrown (SystemError "ENOSPC" "write"), w4)) as H4
    by (apply run_eq; vm_compute; reflexivity).
  assert (trace w = []) as K0 by reflexivity.
  clearbody w4 w3 w2 w1. subst path.
  split; [exact (conj H1 (conj H2 (conj H3 H4)))|].
  destruct (failed_archive_leaves_store Demo.ctx Demo.cfg "my important backup"
              w "/t/archives" w1 w2 [] w3 (SystemError "ENOSPC" "write") w4
              eq_refl H1 H2 H3 H4) as (Hrun & _ & Hcalls).
  split; [exact Hrun|]. intros p d Hin.
  apply Hcalls in Hin. rewrite K0 in Hin. by apply elem_of_nil in Hin.
Defined.

(** A store that is not JSON. *)
Lemma unreadable_store_witness :
  let w := Demo.with_store "not json" in
  let w1 := after (getArchivesDir Demo.cfg) w in
  let w2 := after (readArchiveMetadata "/t/archives") w1 in
  (selectedFile EmptyString = EmptyString
   ∧ getArchivesDir Demo.cfg w = (Ok (Some "/t/archives"), w1)
   ∧ readArchiveMetadata "/t/archives" w1
     = (Thrown (SyntaxError "Unexpected token in JSON"), w2))
  ∧ loadAction Demo.ctx EmptyString w
    = (Ok (message error
             "Error loading archives: SyntaxError: Unexpected token in JSON"),
       w2)
  ∧ completion Demo.ctx EmptyString w = (Ok [], w2).
Proof.
  intros w w1 w2.
  assert (getArchivesDir Demo.cfg w = (Ok (Some "/t/archives"), w1)) as H1
    by (apply run_eq; vm_compute; reflexivity).
  assert (readArchiveMetadata "/t/archives" w1
          = (Thrown (SyntaxError "Unexpected token in JSON"), w2)) as H2
    by (apply run_eq; vm_compute; reflexivity).
  clearbody w2 w1 w.
  split; [exact (conj eq_refl (conj H1 H2))|].
  destruct (unreadable_store Demo.ctx Demo.cfg EmptyString EmptyString w
              "/t/archives" w1 _ w2 eq_refl eq_refl H1 H2)
    as (Hload & Hcomp & _).
  exact (conj Hload Hcomp).
Defined.

(** The listing of a store in no order, with a record of another
    project in it. *)
Lemma listing_lines_witness :
  let w := Demo.with_store "MIXED" in
  let w1 := after (getArchivesDir Demo.cfg) w in
  let w2 := after (readArchiveMetadata "/t/archives") w1 in
  let archives :=
    [Demo.old_backup; Demo.foreign_backup; Demo.newest_backup;
     Demo.mid_backup] in
  (selectedFile EmptyString = EmptyString
   ∧ getArchivesDir Demo.cfg w = (Ok (Some "/t/archives"), w1)
   ∧ readArchiveMetadata "/t/archives" w1 = (Ok archives, w2)
   ∧ filterArchives Demo.cfg archives ≠ [])
  ∧ ∃ c,
      loadAction Demo.ctx EmptyString w = (Ok (message info c), w2)
      ∧ Js.includes c
          ("- test-project-archive-1.tar.gz (Created: 1678886400000) - Old backup"
           +:+ Js.nl).
Proof.
  intros w w1 w2 archives.
  assert (getArchivesDir Demo.cfg w = (Ok (Some "/t/archives"), w1)) as H1
    by (apply (run_eq (getArchivesDir Demo.cfg) w); vm_compute; reflexivity).
  assert (readArchiveMetadata "/t/archives" w1 = (Ok archives, w2)) as H2
    by (apply (run_eq (readArchiveMetadata "/t/archives") w1);
        vm_compute; reflexivity).
  assert (filterArchives Demo.cfg archives
          = [Demo.old_backup; Demo.newest_backup; Demo.mid_backup]) as H3
    by (vm_compute; reflexivity).
  assert (filterArchives Demo.cfg archives ≠ []) as H4 by (by rewrite H3).
  assert (Js.startsWith (filename Demo.old_backup)
            (projectName Demo.cfg +:+ "-archive-") = true) as H5
    by (vm_compute; reflexivity).
  assert (Demo.old_backup ∈ archives) as H6 by left.
  clearbody w2 w1 w.
  split; [exact (conj eq_refl (conj H1 (conj H2 H4)))|].
  destruct (listing_lines Demo.ctx Demo.cfg EmptyString w "/t/archives" w1
              archives w2 eq_refl eq_refl H1 H2 H4)
    as (c & Hrun & _ & Hlines).
  exists c. split; [exact Hrun|]. exact (Hlines _ H6 H5).
Defined.

(** A legacy load and a completion in the base world. *)
Lemma reads_leave_the_tree_witness :
  let w := Demo.w0 in
  let w1 := after (getArchivesDir Demo.cfg) w in
  getArchivesDir Demo.cfg w = (Ok (Some "/t/archives"), w1)
  ∧ fs (after (loadAction Demo.ctx "h.json") w) = fs w1
  ∧ fs (after (completion Demo.ctx "h") w) = fs w1.
Proof.
  intros w w1.
  assert (getArchivesDir Demo.cfg w = (Ok (Some "/t/archives"), w1)) as H1
    by (apply run_eq; vm_compute; reflexivity).
  assert (Js.endsWith (selectedFile "h.json") ".tar.gz" = false) as H2
    by (vm_compute; reflexivity).
  clearbody w1 w.
  split; [exact H1|].
  destruct (reads_leave_the_tree Demo.ctx Demo.cfg "h.json" "h" w
              "/t/archives" w1 eq_refl H1) as [Hload Hcomp].
  exact (conj (Hload H2) Hcomp).
Defined.

(** The store in no order, with a record of another project. *)
Lemma completion_candidates_witness :
  let w := Demo.with_store "MIXED" in
  let w1 := after (getArchivesDir Demo.cfg) w in
  let w2 := after (readArchiveMetadata "/t/archives") w1 in
  let archives :=
    [Demo.old_backup; Demo.foreign_backup; Demo.newest_backup;
     Demo.mid_backup] in
  (getArchivesDir Demo.cfg w = (Ok (Some "/t/archives"), w1)
   ∧ readArchiveMetadata "/t/archives" w1 = (Ok archives, w2))
  ∧ ∃ shown,
      completion Demo.ctx "test" w
      = (Ok (map (λ a, {| Candidate.label := filename a;
                          Candidate.value := filename a;
                          Candidate.description := description a |}) shown),
         w2)
      ∧ shown ≡ₚ filterArchives Demo.cfg archives.
Proof.
  intros w w1 w2 archives.
  assert (getArchivesDir Demo.cfg w = (Ok (Some "/t/archives"), w1)) as H1
    by (apply run_eq; vm_compute; reflexivity).
  assert (readArchiveMetadata "/t/archives" w1 = (Ok archives, w2)) as H2
    by (apply run_eq; vm_compute; reflexivity).
  clearbody w2 w1 w.
  split; [exact (conj H1 H2)|].
  destruct (completion_candidates Demo.ctx Demo.cfg "test" w "/t/archives" w1
              archives w2 eq_refl H1 H2) as [(shown & Hrun & Hperm & _) _].
  exists shown. exact (conj Hrun Hperm).
Defined.

(** A legacy file with both histories: the UI sink, then the client. *)
Lemma legacy_sinks_witness :
  let w := Echo.with_both in
  let w1 := after (getArchivesDir Demo.cfg) w in
  let w2 := after (fs_readFile "/t/archives/b.json") w1 in
  (getArchivesDir Demo.cfg w = (Ok (Some "/t/archives"), w1)
   ∧ selectedFile "b.json" = "b.json"
   ∧ Js.endsWith "b.json" ".tar.gz" = false
   ∧ fs_readFile (Path.join "/t/archives" "b.json") w1 = (Ok "BOTH", w2)
   ∧ JSON_parse (Platform:=Echo.platform) "BOTH"
     = Some (JObj [("history", JArr [JStr "hello"]);
                   ("clientHistory", JArr [JStr "hi"])])
   ∧ calm w2)
  ∧ ∃ w',
      loadAction (H:=Echo.platform) Demo.ctx "b.json" w
      = (Ok (message info "Archive 'b.json' loaded successfully."), w')
      ∧ sink_calls (trace w')
        = [EvLoadHistory (JArr [JStr "hello"]); EvSetHistory (JArr [JStr "hi"])].
Proof.
  intros w w1 w2.
  assert (getArchivesDir Demo.cfg w
          = (Ok (Some "/t/archives"), w1)) as H1
    by (apply (run_eq (getArchivesDir Demo.cfg) w);
        vm_compute; reflexivity).
  assert (selectedFile "b.json" = "b.json") as H2 by (vm_compute; reflexivity).
  assert (Js.endsWith "b.json" ".tar.gz" = false) as H3
    by (vm_compute; reflexivity).
  assert (fs_readFile (Path.join "/t/archives" "b.json") w1 = (Ok "BOTH", w2))
    as H4 by (apply (run_eq (fs_readFile "/t/archives/b.json") w1);
              vm_compute; reflexivity).
  assert (JSON_parse (Platform:=Echo.platform) "BOTH"
          = Some (JObj [("history", JArr [JStr "hello"]);
                        ("clientHistory", JArr [JStr "hi"])])) as H5
    by (vm_compute; reflexivity).
  assert (calm w2) as H6.
  { unfold calm. assert (faults w2 = []) as -> by (vm_compute; reflexivity).
    constructor. }
  assert (sink_calls (trace w) = []) as K0 by reflexivity.
  clearbody w2 w1 w.
  split; [exact (conj H1 (conj H2 (conj H3 (conj H4 (conj H5 H6)))))|].
  destruct (@legacy_sinks Echo.platform Demo.ctx Demo.cfg "b.json" w
              "/t/archives" w1 "b.json" "BOTH" w2 _
              eq_refl H1 H2 eq_refl H3 H4 H5 eq_refl H6)
    as (w' & Hrun & Hsinks & _).
  exists w'. split; [exact Hrun|]. rewrite Hsinks, K0. reflexivity.
Defined.

(** A legacy file that is not there. *)
Lemma legacy_unreadable_witness :
  let w := Demo.w0 in
  let w1 := after (getArchivesDir Demo.cfg) w in
  let w2 := after (fs_readFile "/t/archives/gone.json") w1 in
  (getArchivesDir Demo.cfg w = (Ok (Some "/t/archives"), w1)
   ∧ selectedFile "gone.json" = "gone.json"
   ∧ Js.endsWith "gone.json" ".tar.gz" = false
   ∧ fs_readFile (Path.join "/t/archives" "gone.json") w1
     = (Thrown (SystemError "ENOENT" "open"), w2))
  ∧ loadAction Demo.ctx "gone.json" w
    = (Ok (message error
             ("Error loading archive " +:+ "gone.json" +:+ ": "
              +:+ "Error: ENOENT: open")), w2)
  ∧ sink_calls (trace w2) = sink_calls (trace w).
Proof.
  intros w w1 w2.
  assert (getArchivesDir Demo.cfg w = (Ok (Some "/t/archives"), w1)) as H1
    by (apply (run_eq (getArchivesDir Demo.cfg) w); vm_compute; reflexivity).
  assert (selectedFile "gone.json" = "gone.json") as H2
    by (vm_compute; reflexivity).
  assert (Js.endsWith "gone.json" ".tar.gz" = false) as H3
    by (vm_compute; reflexivity).
  assert (fs_readFile (Path.join "/t/archives" "gone.json") w1
          = (Thrown (SystemError "ENOENT" "open"), w2)) as H4
    by (apply (run_eq (fs_readFile "/t/archives/gone.json") w1);
        vm_compute; reflexivity).
  clearbody w2 w1 w.
  split; [exact (conj H1 (conj H2 (conj H3 H4)))|].
  destruct (legacy_unreadable Demo.ctx Demo.cfg "gone.json" w "/t/archives" w1
              "gone.json" _ w2 eq_refl H1 H2 eq_refl H3 H4 I)
    as (text & Hrun & Htext & Hsinks & _).
  rewrite (Htext _ eq_refl) in Hrun. exact (conj Hrun Hsinks).
Defined.

(** No project root: refused, even with the flag. *)
Lemma restore_needs_project_root_witness :
  let w := Demo.w0 in
  let w1 := after (getArchivesDir Demo.cfg) w in
  (getArchivesDir Demo.cfg w = (Ok (Some "/t/archives"), w1)
   ∧ selectedFile "x.tar.gz --force" = "x.tar.gz"
   ∧ Js.endsWith "x.tar.gz" ".tar.gz" = true)
  ∧ loadAction Demo.rootless "x.tar.gz --force" w
    = (Ok (message error "Could not determine the project root path."), w1).
Proof.
  intros w w1.
  assert (getArchivesDir Demo.cfg w = (Ok (Some "/t/archives"), w1)) as H1
    by (apply (run_eq (getArchivesDir Demo.cfg) w); vm_compute; reflexivity).
  assert (selectedFile "x.tar.gz --force" = "x.tar.gz") as H2
    by (vm_compute; reflexivity).
  assert (Js.endsWith "x.tar.gz" ".tar.gz" = true) as H3
    by (vm_compute; reflexivity).
  clearbody w1 w.
  split; [exact (conj H1 (conj H2 H3))|].
  exact (proj1 (restore_needs_project_root Demo.rootless
                  {| getProjectTempDir := Some "/t"; getProjectRoot := None;
                     getGeminiClient := true |}
                  "x.tar.gz --force" w "/t/archives" w1 "x.tar.gz"
                  eq_refl H1 H2 H3 eq_refl)).
Defined.

(** An archive that is not there: the tree is as before. *)
Lemma failed_extraction_leaves_project_witness :
  let w := Demo.w0 in
  let w1 := after (getArchivesDir Demo.cfg) w in
  let w2 := after (fs_mkdtemp (Path.join os_tmpdir "gemini-cli-load-")) w1 in
  let w3 := after (tar_extract "/t/archives/gone.tar.gz" demo_temp) w2 in
  let w' := after (fs_rm demo_temp) w3 in
  (getArchivesDir Demo.cfg w = (Ok (Some "/t/archives"), w1)
   ∧ selectedFile "gone.tar.gz --force" = "gone.tar.gz"
   ∧ Js.endsWith "gone.tar.gz" ".tar.gz" = true
   ∧ forceConfirm "gone.tar.gz --force" = true
   ∧ fs_mkdtemp (Path.join os_tmpdir "gemini-cli-load-") w1 = (Ok demo_temp, w2)
   ∧ tar_extract (Path.join "/t/archives" "gone.tar.gz") demo_temp w2
     = (Thrown (SystemError "ENOENT" "open"), w3)
   ∧ fs_rm demo_temp w3 = (Ok (), w')
   ∧ Fs.wf (fs w))
  ∧ loadAction Demo.ctx "gone.tar.gz --force" w
    = (Ok (message error
             ("Error loading archive " +:+ "gone.tar.gz" +:+ ": "
              +:+ "Error: ENOENT: open")), w')
  ∧ fs w' = fs w1.
Proof.
  intros w w1 w2 w3 w'.
  assert (getArchivesDir Demo.cfg w = (Ok (Some "/t/archives"), w1)) as H1
    by (apply (run_eq (getArchivesDir Demo.cfg) w); vm_compute; reflexivity).
  assert (selectedFile "gone.tar.gz --force" = "gone.tar.gz") as H2
    by (vm_compute; reflexivity).
  assert (Js.endsWith "gone.tar.gz" ".tar.gz" = true) as H3
    by (vm_compute; reflexivity).
  assert (forceConfirm "gone.tar.gz --force" = true) as H4
    by (vm_compute; reflexivity).
  assert (fs_mkdtemp (Path.join os_tmpdir "gemini-cli-load-") w1
          = (Ok demo_temp, w2)) as H5
    by (apply (run_eq (fs_mkdtemp (Path.join os_tmpdir "gemini-cli-load-")) w1);
        vm_compute; reflexivity).
  assert (tar_extract (Path.join "/t/archives" "gone.tar.gz") demo_temp w2
          = (Thrown (SystemError "ENOENT" "open"), w3)) as H6
    by (apply (run_eq (tar_extract "/t/archives/gone.tar.gz" demo_temp) w2);
        vm_compute; reflexivity).
  assert (fs_rm demo_temp w3 = (Ok (), w')) as H7
    by (apply (run_eq (fs_rm demo_temp) w3); vm_compute; reflexivity).
  assert (Fs.wf (fs w)) as H8 by exact demo_base_wf.
  clearbody w' w3 w2 w1 w.
  split; [exact (conj H1 (conj H2 (conj H3 (conj H4 (conj H5
                  (conj H6 (conj H7 H8)))))))|].
  destruct (failed_extraction_leaves_project Demo.ctx Demo.cfg
              "gone.tar.gz --force" w "/t/archives" w1 "gone.tar.gz"
              "/mock/path/test-project" demo_temp w2 _ w3 w'
              eq_refl H1 H2 H3 H4 eq_refl H5 H6 H7) as [Hrun Hfs].
  exact (conj Hrun (Hfs H8)).
Defined.

(** The restore of [x.tar.gz]: [.git] and the archive itself stay. *)
Lemma restore_keeps_the_rest_witness :
  let w := Demo.w0 in
  let w1 := after (getArchivesDir Demo.cfg) w in
  let w2 := after (fs_mkdtemp (Path.join os_tmpdir "gemini-cli-load-")) w1 in
  let w3 := after (tar_extract "/t/archives/x.tar.gz" demo_temp) w2 in
  let w' := after (loadAction Demo.ctx "x.tar.gz --force") w in
  (getArchivesDir Demo.cfg w = (Ok (Some "/t/archives"), w1)
   ∧ selectedFile "x.tar.gz --force" = "x.tar.gz"
   ∧ Js.endsWith "x.tar.gz" ".tar.gz" = true
   ∧ forceConfirm "x.tar.gz --force" = true
   ∧ fs_mkdtemp (Path.join os_tmpdir "gemini-cli-load-") w1 = (Ok demo_temp, w2)
   ∧ tar_extract (Path.join "/t/archives" "x.tar.gz") demo_temp w2
     = (Ok (), w3)
   ∧ loadAction Demo.ctx "x.tar.gz --force" w
     = (Ok (message info
              ("Archive '" +:+ "x.tar.gz"
               +:+ "' loaded and extracted successfully to "
               +:+ "/mock/path/test-project" +:+ ".")), w')
   ∧ Fs.wf (fs w)
   ∧ Fs.lookup_node (fs w) (Path.resolve "/mock/path/test-project") = Some Dir
   ∧ ¬ Path.resolve "/mock/path/test-project" `prefix_of` Path.resolve demo_temp)
  ∧ fs w' !! (Path.resolve "/mock/path/test-project" ++ [".git"]) = Some Dir
  ∧ fs w' !! ["t"; "archives"; "x.tar.gz"] = Some (File "TAR").
Proof.
  intros w w1 w2 w3 w'.
  assert (getArchivesDir Demo.cfg w = (Ok (Some "/t/archives"), w1)) as H1
    by (apply (run_eq (getArchivesDir Demo.cfg) w); vm_compute; reflexivity).
  assert (selectedFile "x.tar.gz --force" = "x.tar.gz") as H2
    by (vm_compute; reflexivity).
  assert (Js.endsWith "x.tar.gz" ".tar.gz" = true) as H3
    by (vm_compute; reflexivity).
  assert (forceConfirm "x.tar.gz --force" = true) as H4
    by (vm_compute; reflexivity).
  assert (fs_mkdtemp (Path.join os_tmpdir "gemini-cli-load-") w1
          = (Ok demo_temp, w2)) as H5
    by (apply (run_eq (fs_mkdtemp (Path.join os_tmpdir "gemini-cli-load-")) w1);
        vm_compute; reflexivity).
  assert (tar_extract (Path.join "/t/archives" "x.tar.gz") demo_temp w2
          = (Ok (), w3)) as H6
    by (apply (run_eq (tar_extract "/t/archives/x.tar.gz" demo_temp) w2);
        vm_compute; reflexivity).
  assert (loadAction Demo.ctx "x.tar.gz --force" w
          = (Ok (message info
                   ("Archive '" +:+ "x.tar.gz"
                    +:+ "' loaded and extracted successfully to "
                    +:+ "/mock/path/test-project" +:+ ".")), w')) as H7
    by (apply (run_eq (loadAction Demo.ctx "x.tar.gz --force") w);
        vm_compute; reflexivity).
  assert (Fs.wf (fs w)) as H8 by exact demo_base_wf.
  assert (Fs.lookup_node (fs w) (Path.resolve "/mock/path/test-project")
          = Some Dir) as H9 by (vm_compute; reflexivity).
  assert (¬ Path.resolve "/mock/path/test-project"
            `prefix_of` Path.resolve demo_temp) as H10
    by (apply not_prefix_checked; vm_compute; reflexivity).
  assert (".git" ∈ filesToKeep) as K1
    by (apply elem_of_checked; vm_compute; reflexivity).
  assert (fs w3 !! (Path.resolve demo_temp ++ [".git"]) = None) as K2
    by (vm_compute; reflexivity).
  assert (fs w1 !! (Path.resolve "/mock/path/test-project" ++ [".git"])
          = Some Dir) as K3 by (vm_compute; reflexivity).
  assert (¬ Path.resolve "/mock/path/test-project"
            `prefix_of` ["t"; "archives"; "x.tar.gz"]) as K4
    by (apply not_prefix_checked; vm_compute; reflexivity).
  assert (fs w1 !! ["t"; "archives"; "x.tar.gz"] = Some (File "TAR")) as K5
    by (vm_compute; reflexivity).
  clearbody w' w3 w2 w1 w.
  split; [exact (conj H1 (conj H2 (conj H3 (conj H4 (conj H5 (conj H6
                  (conj H7 (conj H8 (conj H9 H10)))))))))|].
  destruct (restore_keeps_the_rest Demo.ctx Demo.cfg "x.tar.gz --force" w
              "/t/archives" w1 "x.tar.gz" "/mock/path/test-project"
              demo_temp w2 w3 w' eq_refl H1 H2 H3 H4 eq_refl H5 H6 H7 H8 H9 H10)
    as [Hout Hkept].
  split.
  - rewrite (Hkept ".git" [] K1), K2. exact K3.
  - rewrite (Hout _ K4). exact K5.
Defined.

(** A save in the base world, then a completion. *)
Lemma saved_archive_is_offered_witness :
  let w := Demo.w0 in
  let w1 := after (getArchivesDir Demo.cfg) w in
  let w1r := after (readArchiveMetadata (H:=Echo.platform) "/t/archives") w1 in
  let c := answer (saveAction (H:=Echo.platform) Demo.ctx "my important backup") w in
  let w' := after (saveAction (H:=Echo.platform) Demo.ctx "my important backup") w in
  (Fs.wf (fs w) ∧ calm w
   ∧ getArchivesDir Demo.cfg w = (Ok (Some "/t/archives"), w1)
   ∧ readArchiveMetadata (H:=Echo.platform) "/t/archives" w1 = (Ok [], w1r)
   ∧ JSON_parse (Platform:=Echo.platform)
       (JSON_stringify (Platform:=Echo.platform)
          (json_of_metadata [Echo.saved]))
     = Some (json_of_metadata [Echo.saved])
   ∧ saveAction (H:=Echo.platform) Demo.ctx "my important backup" w
     = (Ok (message info c), w'))
  ∧ ∃ l w'',
      completion (H:=Echo.platform) Demo.ctx "te" w' = (Ok l, w'')
      ∧ {| Candidate.label := "test-project-archive-20250101-120000.tar.gz";
           Candidate.value := "test-project-archive-20250101-120000.tar.gz";
           Candidate.description := "my important backup" |} ∈ l.
Proof.
  intros w w1 w1r c w'.
  assert (Fs.wf (fs w)) as H1 by exact demo_base_wf.
  assert (calm w) as H2 by constructor.
  assert (getArchivesDir Demo.cfg w
          = (Ok (Some "/t/archives"), w1)) as H3
    by (apply (run_eq (getArchivesDir Demo.cfg) w);
        vm_compute; reflexivity).
  assert (readArchiveMetadata (H:=Echo.platform) "/t/archives" w1
          = (Ok [], w1r)) as H4
    by (apply (run_eq (readArchiveMetadata (H:=Echo.platform) "/t/archives") w1);
        vm_compute; reflexivity).
  assert (JSON_parse (Platform:=Echo.platform)
            (JSON_stringify (Platform:=Echo.platform)
               (json_of_metadata [Echo.saved]))
          = Some (json_of_metadata [Echo.saved])) as H5
    by (vm_compute; reflexivity).
  assert (saveAction (H:=Echo.platform) Demo.ctx "my important backup" w
          = (Ok (message info c), w')) as H6
    by (apply (run_eq (saveAction (H:=Echo.platform) Demo.ctx
                         "my important backup") w);
        vm_compute; reflexivity).
  assert ({| filename := archiveFileName (H:=Echo.platform) Demo.cfg (now w);
             timestamp := now w;
             description := Js.trim "my important backup" |} = Echo.saved) as K1
    by (vm_compute; reflexivity).
  clearbody w' c w1r w1.
  split; [exact (conj H1 (conj H2 (conj H3 (conj H4 (conj H5 H6)))))|].
  pose proof (@saved_archive_is_offered Echo.platform Demo.ctx Demo.cfg
                "my important backup" "te" w "/t/archives" w1 [] w1r c w'
                eq_refl H1 H2 H3 H4) as Hthm.
  cbv zeta in Hthm. rewrite K1 in Hthm.
  destruct (Hthm H5 H6) as [(l & w'' & Hrun & Hin) _].
  exists l, w''. exact (conj Hrun Hin).
Defined.
